(** * Inventory ledger: a shallow embedding of [inventory_system_cleaned.py]

    The Python module keeps a dictionary from item names to integer
    quantities, mutates it in place ([add_item], [remove_item]), queries it
    ([get_qty], [check_low_items]) and moves it to and from a JSON file
    ([save_data], [load_data]).

    Conventions of the embedding:
    - a Python [str] is the list of its code points ([pystr]);
    - a dynamically typed argument is a [pyval];
    - a [dict] is an association list in insertion order, as Python
      dictionaries iterate, with string keys;
    - every function of the module is a computation in the monad [M]:
      a function from the [store] (the objects and the environment the module
      touches) to a result, normal or raised, and the store afterwards.  An
      exception leaves the store as it was when it was raised, as in Python;
    - [json.dump], [json.load], the text layer of [open] and the file system
      are not part of the module; they are modelled after CPython in the
      name spaces [Utf8] and [Json] and in [node].

    Two limits of the interpreter are part of the model, because the
    module runs into both: an [int] of more than 4300 decimal digits cannot
    be turned into text, nor such a text into an [int] (the default of
    [sys.set_int_max_str_digits]), and the decoder of [json] stops with
    [RecursionError] when arrays and objects are nested deeper than the call
    stack has room for ([recursion_room], a part of the store).

    What the model leaves out: [main], the guard that calls it and
    [print_data] (they write to standard output, whose encoding decides
    what can be printed); the text of the log messages (a record keeps the
    level, the kind of message and its arguments); unhashable arguments;
    ledgers with values that are not integers; failures of a file once it is
    open (a full disk); two paths that name one file (links, [./]); the
    translation of line ends on writing, which POSIX systems do not make;
    and the exhaustion of memory or of the call stack by the module's own
    calls. *)

From Stdlib Require Import ZArith List Bool Lia NArith.
From Stdlib.Strings Require Import String Ascii Byte.
From Stdlib Require Decimal DecimalFacts DecimalPos.
Import ListNotations.
Open Scope Z_scope.

(** ** Python values *)

(** A [str]: its code points, each in [0, 0x110000). *)
Definition pystr := list Z.

Definition pystr_eq_dec : forall a b : pystr, {a = b} + {a <> b} :=
  list_eq_dec Z.eq_dec.

Definition pystr_eqb (a b : pystr) : bool :=
  if pystr_eq_dec a b then true else false.

(** Code points of a literal of the development (ASCII and Latin-1). *)
Definition str (s : string) : pystr :=
  map (fun a => Z.of_N (N_of_ascii a)) (list_ascii_of_string s).

(** The hashable scalar values an argument can be.  [bool] is a subclass of
    [int] in Python; a [float] is kept as its 64 bits and never computed
    with. *)
Inductive pyval : Type :=
| PyNone
| PyBool (b : bool)
| PyInt (n : Z)
| PyFloat (bits : Z)
| PyStr (s : pystr).

(** [isinstance(v, str)] *)
Definition isinstance_str (v : pyval) : bool :=
  match v with PyStr _ => true | _ => false end.

(** [isinstance(v, int)]: true of [bool] values too. *)
Definition isinstance_int (v : pyval) : bool :=
  match v with PyInt _ | PyBool _ => true | _ => false end.

(** The number an [int] (or [bool]) stands for in arithmetic and comparison.
    Only consulted after [isinstance_int]. *)
Definition int_of (v : pyval) : Z :=
  match v with
  | PyInt n => n
  | PyBool true => 1
  | _ => 0
  end.

(** ** Dictionaries with string keys, in insertion order *)

Definition dict (V : Type) := list (pystr * V).

Section DictOps.
Context {V : Type}.

(** [d[k]] when present. *)
Fixpoint dict_lookup (d : dict V) (k : pystr) : option V :=
  match d with
  | [] => None
  | (k', v) :: rest => if pystr_eqb k' k then Some v else dict_lookup rest k
  end.

(** [d[k] = v]: an existing key keeps its place, a new one goes last. *)
Fixpoint dict_setitem (d : dict V) (k : pystr) (v : V) : dict V :=
  match d with
  | [] => [(k, v)]
  | (k', v') :: rest =>
      if pystr_eqb k' k then (k', v) :: rest
      else (k', v') :: dict_setitem rest k v
  end.

(** [del d[k]] for a key that is present. *)
Fixpoint dict_delitem (d : dict V) (k : pystr) : dict V :=
  match d with
  | [] => []
  | (k', v') :: rest =>
      if pystr_eqb k' k then rest else (k', v') :: dict_delitem rest k
  end.

Definition dict_keys (d : dict V) : list pystr := map fst d.
Definition dict_values (d : dict V) : list V := map snd d.

(** What a Python dictionary guarantees: no key twice. *)
Definition dict_wf (d : dict V) : Prop := NoDup (dict_keys d).

(** [dict(pairs)]: later pairs overwrite earlier ones. *)
Definition dict_of_pairs (pairs : list (pystr * V)) : dict V :=
  fold_left (fun d kv => dict_setitem d (fst kv) (snd kv)) pairs [].
End DictOps.

(** ** Exceptions, log records, files *)

(** The messages of the [ValueError]s: the three of [add_item], and the two
    the interpreter raises by itself, for an [int] of more than 4300 digits
    that is to become text (or a text of that many digits that is to become
    an [int]) and for a path that holds a NUL character. *)
Inductive value_error : Type :=
| ItemNotNonEmptyString (item : pyval)
| QuantityNotInteger (qty : pyval)
| QuantityNegative
| IntStrDigitsExceeded
| EmbeddedNullByte.

(** [OSError] stands for the instances of [OSError] that belong to none of
    its subclasses named here (a file name too long, a loop of links). *)
Inductive exn : Type :=
| ValueError (why : value_error)
| KeyError (key : pyval)
| FileNotFoundError
| IsADirectoryError
| NotADirectoryError
| PermissionError
| OSError
| JSONDecodeError
| UnicodeDecodeError
| UnicodeEncodeError
| RecursionError.

(** The classes named in the module's [except] clauses.  [IOError] is
    [OSError]. *)
Inductive exn_class : Type :=
| CValueError
| CKeyError
| COSError
| CFileNotFoundError
| CJSONDecodeError.

Definition IOError : exn_class := COSError.

(** [isinstance(e, c)], after the built-in hierarchy:
    [FileNotFoundError], [IsADirectoryError], [NotADirectoryError],
    [PermissionError] < [OSError];
    [json.JSONDecodeError], [UnicodeError] < [ValueError];
    [RecursionError] < [RuntimeError], which no clause of the module names. *)
Definition isinstance_exn (e : exn) (c : exn_class) : bool :=
  match e, c with
  | ValueError _, CValueError => true
  | KeyError _, CKeyError => true
  | FileNotFoundError, (CFileNotFoundError | COSError) => true
  | IsADirectoryError, COSError => true
  | NotADirectoryError, COSError => true
  | PermissionError, COSError => true
  | OSError, COSError => true
  | JSONDecodeError, (CJSONDecodeError | CValueError) => true
  | UnicodeDecodeError, CValueError => true
  | UnicodeEncodeError, CValueError => true
  | _, _ => false
  end.

Inductive level : Type := INFO | WARNING | ERROR.

(** The messages the module formats. *)
Inductive message : Type :=
| MsgAdded (now : Z) (qty item : pyval)
| MsgRemoveBadQuantity
| MsgRemovedAll (item : pyval)
| MsgRemoved (qty item : pyval)
| MsgNotInStock (item : pyval)
| MsgLoadNotFound (file_path : pystr)
| MsgLoadBadJson (file_path : pystr)
| MsgLoadIOError (file_path : pystr) (error : exn)
| MsgSaveIOError (file_path : pystr) (error : exn).

(** Why a path cannot be followed to its end: one of its components is a
    file, or a directory the process may not search, or the system call fails
    in another way (a name too long, a loop of links). *)
Inductive obstacle : Type :=
| BelowFile
| SearchDenied
| OtherFailure.

(** What [open] raises for it: an [OSError] that is no [FileNotFoundError]. *)
Definition obstacle_error (why : obstacle) : exn :=
  match why with
  | BelowFile => NotADirectoryError
  | SearchDenied => PermissionError
  | OtherFailure => OSError
  end.

(** What a path names.  [Missing parent_ok]: nothing there, and a file can
    be created iff [parent_ok].  A [File] carries its permissions and its
    bytes.  [Unreachable why]: the path cannot be followed. *)
Inductive node : Type :=
| Missing (parent_ok : bool)
| Directory
| File (readable writable : bool) (content : list byte)
| Unreachable (why : obstacle).

(** ** The store and the monad of the module's functions *)

(** [recursion_room]: how many arrays and objects, one inside the other,
    the decoder of [json] can enter before the interpreter's limit on the
    depth of recursion stops it; what is left of the limit (1000 unless
    changed) at the depth of the call stack where [load_data] runs. *)
Record store : Type := mkStore {
  stock_data : dict Z;
  logs : option (list message);
  sink : list (level * message);
  disk : pystr -> node;
  clock : Z;
  recursion_room : nat
}.

Inductive result (A : Type) : Type :=
| Ok (a : A)
| Raise (e : exn).
Arguments Ok {A} a.
Arguments Raise {A} e.

Definition M (A : Type) : Type := store -> result A * store.

Definition ret {A} (a : A) : M A := fun st => (Ok a, st).

Definition bind {A B} (m : M A) (k : A -> M B) : M B :=
  fun st =>
    match m st with
    | (Ok a, st') => k a st'
    | (Raise e, st') => (Raise e, st')
    end.

Definition raise {A} (e : exn) : M A := fun st => (Raise e, st).

Notation "x <- m ;; k" := (bind m (fun x => k))
  (at level 61, m at next level, right associativity).
Notation "m ;; k" := (bind m (fun _ => k))
  (at level 61, right associativity).

(** [try: body except c1: h1 except c2: h2 ...]: the first clause whose class
    the exception is an instance of runs; with none, it propagates. *)
Fixpoint dispatch {A} (handlers : list (exn_class * (exn -> M A))) (e : exn)
  : M A :=
  match handlers with
  | [] => raise e
  | (c, h) :: more => if isinstance_exn e c then h e else dispatch more e
  end.

Definition try_except {A} (body : M A)
    (handlers : list (exn_class * (exn -> M A))) : M A :=
  fun st =>
    match body st with
    | (Ok a, st') => (Ok a, st')
    | (Raise e, st') => dispatch handlers e st'
    end.

Definition get_stock : M (dict Z) := fun st => (Ok (stock_data st), st).

Definition put_stock (d : dict Z) : M unit :=
  fun st =>
    (Ok tt,
     mkStore d (logs st) (sink st) (disk st) (clock st) (recursion_room st)).

(** [datetime.now()] *)
Definition datetime_now : M Z := fun st => (Ok (clock st), st).

(** The limit on the digits of an [int] that becomes text, or of a text that
    becomes an [int]: [sys.get_int_max_str_digits()], 4300 unless changed. *)
Definition int_max_str_digits : Z := 4300.

(** The least number of more digits than that. *)
Definition int_str_limit : Z := 10 ^ int_max_str_digits.

(** [n] has at most [int_max_str_digits] decimal digits. *)
Definition fits_str_digits (n : Z) : bool := Z.abs n <? int_str_limit.

(** Formatting an [int] in an f-string: [ValueError] beyond the limit.  The
    text itself goes into a message, of which the model keeps the
    arguments. *)
Definition format_int (n : Z) : M unit :=
  if fits_str_digits n then ret tt
  else raise (ValueError IntStrDigitsExceeded).

(** [logs.append(m)] on the caller's accumulator; with [logs=None] the
    function appends to a list of its own, which nobody else sees. *)
Definition logs_append (m : message) : M unit :=
  fun st =>
    (Ok tt,
     mkStore (stock_data st)
             (match logs st with Some l => Some (l ++ [m]) | None => None end)
             (sink st) (disk st) (clock st) (recursion_room st)).

(** [logging.log(lvl, m)]; the module configures the root logger at [INFO],
    so every record of the three levels is emitted. *)
Definition logging_log (lvl : level) (m : message) : M unit :=
  fun st =>
    (Ok tt,
     mkStore (stock_data st) (logs st) (sink st ++ [(lvl, m)]) (disk st)
             (clock st) (recursion_room st)).

Definition logging_info := logging_log INFO.
Definition logging_warning := logging_log WARNING.
Definition logging_error := logging_log ERROR.

(** [stock_data[name]]: [KeyError] when absent. *)
Definition stock_getitem (name : pystr) : M Z :=
  d <- get_stock ;;
  match dict_lookup d name with
  | Some v => ret v
  | None => raise (KeyError (PyStr name))
  end.

Definition stock_setitem (name : pystr) (v : Z) : M unit :=
  d <- get_stock ;; put_stock (dict_setitem d name v).

(** [del stock_data[name]]: [KeyError] when absent. *)
Definition stock_delitem (name : pystr) : M unit :=
  d <- get_stock ;;
  match dict_lookup d name with
  | Some _ => put_stock (dict_delitem d name)
  | None => raise (KeyError (PyStr name))
  end.

(** ** The ledger operations *)

(** Defaults of [add_item(stock_data, item="default", qty=0, logs=None)]. *)
Definition add_item_default_item : pyval := PyStr (str "default").
Definition add_item_default_qty : pyval := PyInt 0.

(** [add_item].  The first test is [not isinstance(item, str) or not item];
    a [str] is falsy exactly when empty.  The message is formatted after the
    mapping was updated, and formatting the quantity can fail. *)
Definition add_item (item qty : pyval) : M unit :=
  match item with
  | PyStr name =>
      match name with
      | [] => raise (ValueError (ItemNotNonEmptyString item))
      | _ :: _ =>
          if negb (isinstance_int qty) then
            raise (ValueError (QuantityNotInteger qty))
          else if int_of qty <? 0 then
            raise (ValueError QuantityNegative)
          else
            d <- get_stock ;;
            put_stock
              (dict_setitem d name
                 (match dict_lookup d name with Some v => v | None => 0 end
                  + int_of qty)) ;;
            now <- datetime_now ;;
            format_int (int_of qty) ;;
            logs_append (MsgAdded now qty item) ;;
            logging_info (MsgAdded now qty item)
      end
  | _ => raise (ValueError (ItemNotNonEmptyString item))
  end.

(** [remove_item].  A key of the ledger is a string, so looking up an item
    of another type raises [KeyError] like an absent name. *)
Definition remove_item (item qty : pyval) : M unit :=
  if negb (isinstance_int qty) || (int_of qty <? 0) then
    logging_warning MsgRemoveBadQuantity
  else
    try_except
      (match item with
       | PyStr name =>
           current_qty <- stock_getitem name ;;
           if current_qty - int_of qty <=? 0 then
             stock_delitem name ;;
             logging_info (MsgRemovedAll item)
           else
             (v <- stock_getitem name ;;
              stock_setitem name (v - int_of qty)) ;;
             logging_info (MsgRemoved qty item)
       | _ => raise (KeyError item)
       end)
      [(CKeyError, fun _ => logging_warning (MsgNotInStock item))].

(** [get_qty]: [stock_data.get(item, 0)]. *)
Definition get_qty (item : pyval) : M Z :=
  d <- get_stock ;;
  ret (match item with
       | PyStr name =>
           match dict_lookup d name with Some v => v | None => 0 end
       | _ => 0
       end).

(** Default of [check_low_items(stock_data, threshold=5)]. *)
Definition check_low_items_default_threshold : Z := 5.

(** The comprehension [[item for item, qty in d.items() if qty < threshold]]. *)
Fixpoint low_items (items : dict Z) (threshold : Z) : list pystr :=
  match items with
  | [] => []
  | (item, qty) :: rest =>
      if qty <? threshold then item :: low_items rest threshold
      else low_items rest threshold
  end.

Definition check_low_items (threshold : option Z) : M (list pystr) :=
  d <- get_stock ;;
  ret (low_items d
         (match threshold with
          | Some t => t
          | None => check_low_items_default_threshold
          end)).

(** ** Text files: the UTF-8 layer of [open(..., encoding="utf-8")] *)

Module Utf8.

Definition byte_val (b : byte) : Z := Z.of_N (Byte.to_N b).

Definition byte_of (z : Z) : byte :=
  match Byte.of_N (Z.to_N z) with Some b => b | None => x00 end.

(** A continuation byte, [10xxxxxx]. *)
Definition is_cont (b : byte) : bool :=
  (0x80 <=? byte_val b) && (byte_val b <=? 0xBF).

Definition cont_bits (b : byte) : Z := Z.land (byte_val b) 0x3F.

(** The bytes of one code point; [None] where the codec raises
    [UnicodeEncodeError] (surrogates). *)
Definition encode_char (c : Z) : option (list byte) :=
  if c <? 0 then None
  else if c <? 0x80 then Some [byte_of c]
  else if c <? 0x800 then
    Some [byte_of (Z.lor 0xC0 (Z.shiftr c 6));
          byte_of (Z.lor 0x80 (Z.land c 0x3F))]
  else if c <? 0x10000 then
    if (0xD800 <=? c) && (c <=? 0xDFFF) then None
    else
      Some [byte_of (Z.lor 0xE0 (Z.shiftr c 12));
            byte_of (Z.lor 0x80 (Z.land (Z.shiftr c 6) 0x3F));
            byte_of (Z.lor 0x80 (Z.land c 0x3F))]
  else if c <? 0x110000 then
    Some [byte_of (Z.lor 0xF0 (Z.shiftr c 18));
          byte_of (Z.lor 0x80 (Z.land (Z.shiftr c 12) 0x3F));
          byte_of (Z.lor 0x80 (Z.land (Z.shiftr c 6) 0x3F));
          byte_of (Z.lor 0x80 (Z.land c 0x3F))]
  else None.

Fixpoint encode (s : pystr) : option (list byte) :=
  match s with
  | [] => Some []
  | c :: rest =>
      match encode_char c, encode rest with
      | Some bs, Some more => Some (bs ++ more)
      | _, _ => None
      end
  end.

(** Strict decoding: [None] where the codec raises [UnicodeDecodeError]
    (stray or missing continuation bytes, overlong forms, surrogates, code
    points above U+10FFFF). *)
Fixpoint decode (bs : list byte) : option pystr :=
  match bs with
  | [] => Some []
  | b0 :: r0 =>
      let v0 := byte_val b0 in
      if v0 <? 0x80 then option_map (cons v0) (decode r0)
      else if v0 <? 0xC2 then None
      else if v0 <? 0xE0 then
        match r0 with
        | b1 :: r1 =>
            if is_cont b1 then
              option_map
                (cons (Z.lor (Z.shiftl (Z.land v0 0x1F) 6) (cont_bits b1)))
                (decode r1)
            else None
        | _ => None
        end
      else if v0 <? 0xF0 then
        match r0 with
        | b1 :: b2 :: r2 =>
            let v1 := byte_val b1 in
            if ((if v0 =? 0xE0 then 0xA0 else 0x80) <=? v1)
               && (v1 <=? (if v0 =? 0xED then 0x9F else 0xBF))
               && is_cont b2
            then
              option_map
                (cons (Z.lor (Z.shiftl (Z.land v0 0x0F) 12)
                         (Z.lor (Z.shiftl (cont_bits b1) 6) (cont_bits b2))))
                (decode r2)
            else None
        | _ => None
        end
      else if v0 <? 0xF5 then
        match r0 with
        | b1 :: b2 :: b3 :: r3 =>
            let v1 := byte_val b1 in
            if ((if v0 =? 0xF0 then 0x90 else 0x80) <=? v1)
               && (v1 <=? (if v0 =? 0xF4 then 0x8F else 0xBF))
               && is_cont b2 && is_cont b3
            then
              option_map
                (cons (Z.lor (Z.shiftl (Z.land v0 0x07) 18)
                         (Z.lor (Z.shiftl (cont_bits b1) 12)
                            (Z.lor (Z.shiftl (cont_bits b2) 6)
                               (cont_bits b3)))))
                (decode r3)
            else None
        | _ => None
        end
      else None
  end.

(** [os.fsencode] where the file system encoding is UTF-8, as on POSIX
    systems: the codec with the [surrogateescape] handler, under which the
    code points U+DC80..U+DCFF stand for the bytes [0x80..0xFF] and every
    other surrogate is refused. *)
Definition fsencode_char (c : Z) : option (list byte) :=
  if (0xDC80 <=? c) && (c <=? 0xDCFF) then Some [byte_of (c - 0xDC00)]
  else encode_char c.

Fixpoint fsencode (s : pystr) : option (list byte) :=
  match s with
  | [] => Some []
  | c :: rest =>
      match fsencode_char c, fsencode rest with
      | Some bs, Some more => Some (bs ++ more)
      | _, _ => None
      end
  end.

End Utf8.

(** Reading in text mode with the default [newline=None]: ["\r\n"] and a
    lone ["\r"] both arrive as ["\n"]. *)
Fixpoint universal_newlines (s : pystr) : pystr :=
  match s with
  | [] => []
  | c :: rest =>
      if c =? 13 then
        match rest with
        | c' :: rest' =>
            if c' =? 10 then 10 :: universal_newlines rest'
            else 10 :: universal_newlines rest
        | [] => [10]
        end
      else c :: universal_newlines rest
  end.

(** ** JSON: what [json.load] returns and what [json.dump] writes *)

(** The Python objects [json.load] builds.  A float keeps its literal. *)
#[warnings="-register-all"]
Inductive json : Type :=
| JNull
| JBool (b : bool)
| JInt (n : Z)
| JFloat (literal : pystr)
| JStr (s : pystr)
| JArr (items : list json)
| JObj (members : dict json).

(** The ledger as the object [json.load] builds for it. *)
Definition json_of_stock (d : dict Z) : json :=
  JObj (map (fun kv => (fst kv, JInt (snd kv))) d).

Module Json.

(** *** Encoder: [json.dump(obj, fp, indent=4)] on a [dict] of [int] *)

(** One lower-case hexadecimal digit. *)
Definition hex_digit (d : Z) : Z := if d <? 10 then 48 + d else 87 + d.

(** ['{0:04x}'.format(n)] *)
Definition hex4 (n : Z) : pystr :=
  [hex_digit (n / 4096); hex_digit (n / 256 mod 16);
   hex_digit (n / 16 mod 16); hex_digit (n mod 16)].

(** The replacement of one character under [ensure_ascii=True]: the short
    escapes, printable ASCII as it is, [\uXXXX] for the rest of the basic
    plane, a surrogate pair above it. *)
Definition escape_char (c : Z) : pystr :=
  if c =? 34 then [92; 34]            (* quote *)
  else if c =? 92 then [92; 92]       (* backslash *)
  else if c =? 10 then [92; 110]      (* n *)
  else if c =? 13 then [92; 114]      (* r *)
  else if c =? 9 then [92; 116]       (* t *)
  else if c =? 8 then [92; 98]        (* b *)
  else if c =? 12 then [92; 102]      (* f *)
  else if (32 <=? c) && (c <=? 126) then [c]
  else if c <? 0x10000 then 92 :: 117 :: hex4 c
  else
    let v := c - 0x10000 in
    let s1 := Z.lor 0xD800 (Z.land (Z.shiftr v 10) 0x3FF) in
    let s2 := Z.lor 0xDC00 (Z.land v 0x3FF) in
    (92 :: 117 :: hex4 s1) ++ (92 :: 117 :: hex4 s2).

Definition encode_string (s : pystr) : pystr :=
  34 :: flat_map escape_char s ++ [34].

Fixpoint uint_digits (u : Decimal.uint) : pystr :=
  match u with
  | Decimal.Nil => []
  | Decimal.D0 u => 48 :: uint_digits u
  | Decimal.D1 u => 49 :: uint_digits u
  | Decimal.D2 u => 50 :: uint_digits u
  | Decimal.D3 u => 51 :: uint_digits u
  | Decimal.D4 u => 52 :: uint_digits u
  | Decimal.D5 u => 53 :: uint_digits u
  | Decimal.D6 u => 54 :: uint_digits u
  | Decimal.D7 u => 55 :: uint_digits u
  | Decimal.D8 u => 56 :: uint_digits u
  | Decimal.D9 u => 57 :: uint_digits u
  end.

(** The decimal digits of an integer: no leading zero, ["-"] for
    negatives. *)
Definition int_repr (n : Z) : pystr :=
  match n with
  | Z0 => [48]
  | Zpos p => uint_digits (Pos.to_uint p)
  | Zneg p => 45 :: uint_digits (Pos.to_uint p)
  end.

(** [int.__repr__]: those digits, or [None] where it raises [ValueError]
    because there are more than [int_max_str_digits] of them. *)
Definition int_str (n : Z) : option pystr :=
  if fits_str_digits n then Some (int_repr n) else None.

(** ["\n"] and one level of four spaces. *)
Definition newline_indent : pystr := [10; 32; 32; 32; 32].

(** The separators under [indent=4]: [","] and a new line between members,
    [": "] between a key and its value. *)
Definition item_separator : pystr := 44 :: newline_indent.
Definition key_separator : pystr := [58; 32].

(** The pieces the encoder hands to [file.write] for the members [items],
    one after the other: [sep] (nothing before the first member, the item
    separator before the others), the key, the key separator, the value.
    The flag is [false] when the encoder stopped at a value that
    [int.__repr__] refuses; what it had handed over before is written. *)
Fixpoint dump_items (sep : pystr) (items : dict Z) : pystr * bool :=
  match items with
  | [] => ([], true)
  | (key, value) :: more =>
      match int_str value with
      | Some digits =>
          let (text, done) := dump_items item_separator more in
          (sep ++ encode_string key ++ key_separator ++ digits ++ text, done)
      | None => (sep ++ encode_string key ++ key_separator, false)
      end
  end.

(** [json.dump(stock_data, file, indent=4)]: the text that reaches the file,
    and whether the call returned ([true]) or raised [ValueError]. *)
Definition dump (d : dict Z) : pystr * bool :=
  match d with
  | [] => ([123; 125], true)
  | _ :: _ =>
      let (text, done) := dump_items [] d in
      if done then ([123] ++ newline_indent ++ text ++ [10; 125], true)
      else ([123] ++ newline_indent ++ text, false)
  end.

(** [key: value] in full. *)
Definition dump_member (kv : pystr * Z) : pystr :=
  encode_string (fst kv) ++ [58; 32] ++ int_repr (snd kv).

(** The whole text of a ledger: what [dump] writes when it refuses no
    value. *)
Definition dumps (d : dict Z) : pystr :=
  match d with
  | [] => [123; 125]
  | first :: more =>
      [123] ++ newline_indent ++ dump_member first
      ++ flat_map (fun kv => [44] ++ newline_indent ++ dump_member kv) more
      ++ [10] ++ [125]
  end.

(** *** Decoder: [json.loads] *)

Definition is_ws (c : Z) : bool :=
  (c =? 32) || (c =? 9) || (c =? 10) || (c =? 13).

Fixpoint skip_ws (s : pystr) : pystr :=
  match s with
  | c :: rest => if is_ws c then skip_ws rest else s
  | [] => []
  end.

Definition is_digit (c : Z) : bool := (48 <=? c) && (c <=? 57).

Definition hex_value (c : Z) : option Z :=
  if (48 <=? c) && (c <=? 57) then Some (c - 48)
  else if (97 <=? c) && (c <=? 102) then Some (c - 87)
  else if (65 <=? c) && (c <=? 70) then Some (c - 55)
  else None.

Definition hex4_value (h1 h2 h3 h4 : Z) : option Z :=
  match hex_value h1, hex_value h2, hex_value h3, hex_value h4 with
  | Some a, Some b, Some c, Some d => Some (((a * 16 + b) * 16 + c) * 16 + d)
  | _, _, _, _ => None
  end.

(** The character a backslash and [e] stand for, [\u] apart. *)
Definition simple_escape (e : Z) : option Z :=
  if e =? 34 then Some 34
  else if e =? 92 then Some 92
  else if e =? 47 then Some 47
  else if e =? 98 then Some 8
  else if e =? 102 then Some 12
  else if e =? 110 then Some 10
  else if e =? 114 then Some 13
  else if e =? 116 then Some 9
  else None.

(** A piece of a string literal: a character, or the value of a [\uXXXX]
    escape (which may be half of a surrogate pair). *)
Inductive chunk : Type :=
| Raw (c : Z)
| Esc (u : Z).

(** The pieces of a string literal from just after its opening quote to
    its closing quote, and the text after it.  [None]: unterminated string,
    control character, invalid escape. *)
Fixpoint scan_chunks (s : pystr) : option (list chunk * pystr) :=
  match s with
  | [] => None
  | c :: r =>
      if c =? 34 then Some ([], r)
      else if c =? 92 then
        match r with
        | [] => None
        | e :: r1 =>
            if e =? 117 then
              match r1 with
              | h1 :: h2 :: h3 :: h4 :: r2 =>
                  match hex4_value h1 h2 h3 h4, scan_chunks r2 with
                  | Some u, Some (cs, rest) => Some (Esc u :: cs, rest)
                  | _, _ => None
                  end
              | _ => None
              end
            else
              match simple_escape e, scan_chunks r1 with
              | Some ch, Some (cs, rest) => Some (Raw ch :: cs, rest)
              | _, _ => None
              end
        end
      else if c <? 32 then None
      else
        match scan_chunks r with
        | Some (cs, rest) => Some (Raw c :: cs, rest)
        | None => None
        end
  end.

Definition is_high_surrogate (u : Z) : bool := (0xD800 <=? u) && (u <=? 0xDBFF).
Definition is_low_surrogate (u : Z) : bool := (0xDC00 <=? u) && (u <=? 0xDFFF).

(** The characters of the pieces: an escaped high surrogate directly
    followed by an escaped low surrogate is one character. *)
Fixpoint join_surrogates (cs : list chunk) : pystr :=
  match cs with
  | [] => []
  | Raw c :: more => c :: join_surrogates more
  | Esc u :: more =>
      match more with
      | Esc u2 :: more2 =>
          if is_high_surrogate u && is_low_surrogate u2 then
            (0x10000 + Z.lor (Z.shiftl (u - 0xD800) 10) (u2 - 0xDC00))
              :: join_surrogates more2
          else u :: join_surrogates more
      | _ => u :: join_surrogates more
      end
  end.

(** A string literal, from just after its opening quote. *)
Definition scan_string (s : pystr) : option (pystr * pystr) :=
  match scan_chunks s with
  | Some (cs, rest) => Some (join_surrogates cs, rest)
  | None => None
  end.

(** The longest prefix of digits, and the rest. *)
Fixpoint span_digits (s : pystr) : pystr * pystr :=
  match s with
  | c :: rest =>
      if is_digit c then
        let (ds, rest') := span_digits rest in (c :: ds, rest')
      else ([], s)
  | [] => ([], [])
  end.

(** [int(digits)] *)
Definition digits_value (ds : pystr) : Z :=
  fold_left (fun acc c => 10 * acc + (c - 48)) ds 0.

(** [s] without the prefix [p], when it starts with it. *)
Fixpoint strip_prefix (p s : pystr) : option pystr :=
  match p, s with
  | [], _ => Some s
  | a :: p', b :: s' => if a =? b then strip_prefix p' s' else None
  | _ :: _, [] => None
  end.

(** The optional fraction [\.[0-9]+] of a number. *)
Definition scan_fraction (s : pystr) : pystr * pystr :=
  match s with
  | c :: r =>
      if c =? 46 then
        match span_digits r with
        | ([], _) => ([], s)
        | (ds, rest) => (46 :: ds, rest)
        end
      else ([], s)
  | [] => ([], s)
  end.

(** The optional exponent [[eE][-+]?[0-9]+] of a number. *)
Definition scan_exponent (s : pystr) : pystr * pystr :=
  match s with
  | e :: r =>
      if (e =? 101) || (e =? 69) then
        let (sign, r1) :=
          match r with
          | c :: r' => if (c =? 45) || (c =? 43) then ([c], r') else ([], r)
          | [] => ([], r)
          end in
        match span_digits r1 with
        | ([], _) => ([], s)
        | (ds, rest) => (e :: sign ++ ds, rest)
        end
      else ([], s)
  | [] => ([], s)
  end.

(** A number after its integer part [sign intpart]: an [int] unless a
    fraction or an exponent follows.  [int(text)] raises [ValueError] for
    more than [int_max_str_digits] digits; [float(text)] takes any. *)
Definition finish_number (negative : bool) (intpart rest : pystr)
  : result (json * pystr) :=
  let (frac, rest1) := scan_fraction rest in
  let (expo, rest2) := scan_exponent rest1 in
  match frac, expo with
  | [], [] =>
      if Z.of_nat (List.length intpart) >? int_max_str_digits then
        Raise (ValueError IntStrDigitsExceeded)
      else
        Ok (JInt (if negative then - digits_value intpart
                  else digits_value intpart), rest1)
  | _, _ =>
      Ok (JFloat ((if negative then [45] else []) ++ intpart ++ frac ++ expo),
          rest2)
  end.

(** A number: an optional minus sign, then [0] or a digit [1-9] and the
    digits after it, then what [finish_number] finds.  [None]: no number
    starts here. *)
Definition scan_number (s : pystr) : option (result (json * pystr)) :=
  let (negative, s1) :=
    match s with
    | c :: r => if c =? 45 then (true, r) else (false, s)
    | [] => (false, s)
    end in
  match s1 with
  | d :: r =>
      if d =? 48 then Some (finish_number negative [48] r)
      else if is_digit d then
        let (ds, r') := span_digits r in
        Some (finish_number negative (d :: ds) r')
      else None
  | [] => None
  end.

Definition lit_null : pystr := Eval cbv in str "null".
Definition lit_true : pystr := Eval cbv in str "true".
Definition lit_false : pystr := Eval cbv in str "false".
Definition lit_NaN : pystr := Eval cbv in str "NaN".
Definition lit_Infinity : pystr := Eval cbv in str "Infinity".
Definition lit_minus_Infinity : pystr := Eval cbv in str "-Infinity".

(** A value that is neither a string, an object nor an array. *)
Definition scan_scalar (s : pystr) : result (json * pystr) :=
  match strip_prefix lit_null s with
  | Some rest => Ok (JNull, rest)
  | None =>
  match strip_prefix lit_true s with
  | Some rest => Ok (JBool true, rest)
  | None =>
  match strip_prefix lit_false s with
  | Some rest => Ok (JBool false, rest)
  | None =>
  match scan_number s with
  | Some r => r
  | None =>
  match strip_prefix lit_NaN s with
  | Some rest => Ok (JFloat lit_NaN, rest)
  | None =>
  match strip_prefix lit_Infinity s with
  | Some rest => Ok (JFloat lit_Infinity, rest)
  | None =>
  match strip_prefix lit_minus_Infinity s with
  | Some rest => Ok (JFloat lit_minus_Infinity, rest)
  | None => Raise JSONDecodeError
  end end end end end end end.

(** The recursive descent of the decoder.  [parse_value] reads a value at
    the head of [s]; [parse_elements], the rest of an array from its next
    element; [parse_members], the rest of an object from just after the
    opening quote of its next key.  The members become a [dict], a repeated
    key keeping its last value.  Entering an array or an object takes one
    level of [depth]; with none left the decoder raises [RecursionError].
    What is malformed raises [JSONDecodeError].  Every call spends one unit
    of [fuel]. *)
Fixpoint parse_value (fuel depth : nat) (s : pystr) {struct fuel}
  : result (json * pystr) :=
  match fuel with
  | O => Raise JSONDecodeError
  | S fuel' =>
      match s with
      | [] => Raise JSONDecodeError
      | c :: r =>
          if c =? 34 then
            match scan_string r with
            | Some (str, rest) => Ok (JStr str, rest)
            | None => Raise JSONDecodeError
            end
          else if c =? 123 then
            match depth with
            | O => Raise RecursionError
            | S depth' =>
                match skip_ws r with
                | c1 :: r1 =>
                    if c1 =? 125 then Ok (JObj [], r1)
                    else if c1 =? 34 then parse_members fuel' depth' r1 []
                    else Raise JSONDecodeError
                | [] => Raise JSONDecodeError
                end
            end
          else if c =? 91 then
            match depth with
            | O => Raise RecursionError
            | S depth' =>
                match skip_ws r with
                | c1 :: r1 =>
                    if c1 =? 93 then Ok (JArr [], r1)
                    else parse_elements fuel' depth' (c1 :: r1) []
                | [] => Raise JSONDecodeError
                end
            end
          else scan_scalar s
      end
  end
with parse_elements (fuel depth : nat) (s : pystr) (acc : list json)
    {struct fuel} : result (json * pystr) :=
  match fuel with
  | O => Raise JSONDecodeError
  | S fuel' =>
      match parse_value fuel' depth s with
      | Ok (v, rest) =>
          match skip_ws rest with
          | c :: r =>
              if c =? 93 then Ok (JArr (rev (v :: acc)), r)
              else if c =? 44 then
                parse_elements fuel' depth (skip_ws r) (v :: acc)
              else Raise JSONDecodeError
          | [] => Raise JSONDecodeError
          end
      | Raise e => Raise e
      end
  end
with parse_members (fuel depth : nat) (s : pystr) (acc : list (pystr * json))
    {struct fuel} : result (json * pystr) :=
  match fuel with
  | O => Raise JSONDecodeError
  | S fuel' =>
      match scan_string s with
      | Some (key, rest) =>
          match skip_ws rest with
          | c :: r =>
              if c =? 58 then
                match parse_value fuel' depth (skip_ws r) with
                | Ok (v, rest') =>
                    match skip_ws rest' with
                    | c' :: r' =>
                        if c' =? 125 then
                          Ok (JObj (dict_of_pairs (rev ((key, v) :: acc))),
                              r')
                        else if c' =? 44 then
                          match skip_ws r' with
                          | c'' :: r'' =>
                              if c'' =? 34 then
                                parse_members fuel' depth r''
                                  ((key, v) :: acc)
                              else Raise JSONDecodeError
                          | [] => Raise JSONDecodeError
                          end
                        else Raise JSONDecodeError
                    | [] => Raise JSONDecodeError
                    end
                | Raise e => Raise e
                end
              else Raise JSONDecodeError
          | [] => Raise JSONDecodeError
          end
      | None => Raise JSONDecodeError
      end
  end.

(** [json.loads(s)] with room for [depth] levels of nesting: one value,
    white space around it, nothing else; a leading byte-order mark is
    refused.  Two units of fuel for each character are more than the descent
    can spend. *)
Definition loads (depth : nat) (s : pystr) : result json :=
  if match s with c :: _ => c =? 0xFEFF | [] => false end
  then Raise JSONDecodeError
  else
    match parse_value (S (2 * List.length s)) depth (skip_ws s) with
    | Ok (v, rest) =>
        match skip_ws rest with
        | [] => Ok v
        | _ :: _ => Raise JSONDecodeError
        end
    | Raise e => Raise e
    end.

End Json.

(** ** Persistence *)

(** Default of [load_data(file_path="inventory.json")] and [save_data]. *)
Definition default_file_path : pystr := Eval cbv in str "inventory.json".

Definition put_disk (f : pystr -> node) : M unit :=
  fun st =>
    (Ok tt,
     mkStore (stock_data st) (logs st) (sink st) f (clock st)
             (recursion_room st)).

(** What [open] raises for the path itself, before the file system is
    asked: [UnicodeEncodeError] when the path cannot be encoded for it, then
    [ValueError] when its bytes hold a NUL. *)
Definition fs_path_error (file_path : pystr) : option exn :=
  match Utf8.fsencode file_path with
  | None => Some UnicodeEncodeError
  | Some bytes =>
      if existsb (fun b => Utf8.byte_val b =? 0) bytes
      then Some (ValueError EmbeddedNullByte)
      else None
  end.

(** [open(file_path, "r", encoding="utf-8")] and reading the whole file as
    bytes. *)
Definition open_read (file_path : pystr) : M (list byte) :=
  fun st =>
    match fs_path_error file_path with
    | Some e => (Raise e, st)
    | None =>
        match disk st file_path with
        | Missing _ => (Raise FileNotFoundError, st)
        | Directory => (Raise IsADirectoryError, st)
        | Unreachable why => (Raise (obstacle_error why), st)
        | File readable _ content =>
            if readable then (Ok content, st) else (Raise PermissionError, st)
        end
    end.

(** [open(file_path, "w", encoding="utf-8")]: creates or truncates. *)
Definition open_write (file_path : pystr) : M unit :=
  fun st =>
    match fs_path_error file_path with
    | Some e => (Raise e, st)
    | None =>
        match disk st file_path with
        | Missing false => (Raise FileNotFoundError, st)
        | Directory => (Raise IsADirectoryError, st)
        | Unreachable why => (Raise (obstacle_error why), st)
        | File _ false _ => (Raise PermissionError, st)
        | Missing true =>
            put_disk (fun p => if pystr_eqb p file_path then File true true []
                               else disk st p) st
        | File readable true _ =>
            put_disk (fun p => if pystr_eqb p file_path
                               then File readable true []
                               else disk st p) st
        end
    end.

(** [file.write(text)] on a file opened by [open_write], then closing it. *)
Definition file_write (file_path : pystr) (text : pystr) : M unit :=
  fun st =>
    match Utf8.encode text with
    | None => (Raise UnicodeEncodeError, st)
    | Some bytes =>
        match disk st file_path with
        | File readable writable content =>
            put_disk (fun p => if pystr_eqb p file_path
                               then File readable writable (content ++ bytes)
                               else disk st p) st
        | _ => (Raise FileNotFoundError, st)
        end
    end.

(** [file.read()] in text mode. *)
Definition file_read (file_path : pystr) : M pystr :=
  bytes <- open_read file_path ;;
  match Utf8.decode bytes with
  | Some text => ret (universal_newlines text)
  | None => raise UnicodeDecodeError
  end.

(** [with open(file_path, "r", encoding="utf-8") as file: json.load(file)] *)
Definition json_load (file_path : pystr) : M json :=
  text <- file_read file_path ;;
  fun st =>
    match Json.loads (recursion_room st) text with
    | Ok v => (Ok v, st)
    | Raise e => (Raise e, st)
    end.

(** [load_data] *)
Definition load_data (file_path : pystr) : M json :=
  try_except (json_load file_path)
    [(CFileNotFoundError,
      fun _ => logging_warning (MsgLoadNotFound file_path) ;; ret (JObj []));
     (CJSONDecodeError,
      fun _ => logging_error (MsgLoadBadJson file_path) ;; ret (JObj []));
     (IOError,
      fun error =>
        logging_error (MsgLoadIOError file_path error) ;; ret (JObj []))].

(** [json.dump(stock_data, file, indent=4)] inside the [with] block, which
    closes the file whether [json.dump] returns or raises: what the encoder
    handed over before a refusal is in the file. *)
Definition json_dump (file_path : pystr) : M unit :=
  d <- get_stock ;;
  file_write file_path (fst (Json.dump d)) ;;
  if snd (Json.dump d) then ret tt
  else raise (ValueError IntStrDigitsExceeded).

(** [save_data] *)
Definition save_data (file_path : pystr) : M unit :=
  try_except
    (open_write file_path ;; json_dump file_path)
    [(IOError,
      fun error => logging_error (MsgSaveIOError file_path error))].

(** ** Vocabulary of the statements *)

(** No stock, no accumulator, nothing logged, an empty disk. *)
Definition empty_store : store :=
  mkStore [] None [] (fun _ => Missing true) 0 990.

(** The data invariant of the specification: every stored quantity is
    strictly positive. *)
Definition positive_quantities (d : dict Z) : Prop :=
  Forall (fun kv => 0 < snd kv) d.

(** Every stored quantity can be written as text: none has more than
    [int_max_str_digits] digits. *)
Definition quantities_fit (d : dict Z) : Prop :=
  Forall (fun kv => fits_str_digits (snd kv) = true) d.


(** The item names no key of the ledger. *)
Definition item_absent (d : dict Z) (item : pyval) : Prop :=
  forall name, item = PyStr name -> ~ In name (dict_keys d).

(** The characters [json.dump] writes: a line feed or printable ASCII. *)
Definition json_out_char (c : Z) : Prop := c = 10 \/ 32 <= c <= 126.

(** A code point of Unicode. *)
Definition code_point (c : Z) : bool := (0 <=? c) && (c <? 0x110000).

(** No high surrogate is directly followed by a low surrogate. *)
Fixpoint surrogate_pair_free (s : pystr) : bool :=
  match s with
  | c :: rest =>
      match rest with
      | c2 :: _ =>
          negb (Json.is_high_surrogate c && Json.is_low_surrogate c2)
          && surrogate_pair_free rest
      | [] => true
      end
  | [] => true
  end.

(** The strings that survive [json.dump] followed by [json.load]. *)
Definition str_round_trips (s : pystr) : bool :=
  forallb code_point s && surrogate_pair_free s.

(** The pieces [scan_chunks] finds in the escape of one character. *)
Definition chunks_of_char (c : Z) : list Json.chunk :=
  if c =? 34 then [Json.Raw c]
  else if c =? 92 then [Json.Raw c]
  else if c =? 10 then [Json.Raw c]
  else if c =? 13 then [Json.Raw c]
  else if c =? 9 then [Json.Raw c]
  else if c =? 8 then [Json.Raw c]
  else if c =? 12 then [Json.Raw c]
  else if (32 <=? c) && (c <=? 126) then [Json.Raw c]
  else if c <? 0x10000 then [Json.Esc c]
  else
    [Json.Esc (Z.lor 0xD800 (Z.land (Z.shiftr (c - 0x10000) 10) 0x3FF));
     Json.Esc (Z.lor 0xDC00 (Z.land (c - 0x10000) 0x3FF))].

(** A character that ends a number: no digit, no [.], no [e], no [E]. *)
Definition ends_number (c : Z) : Prop :=
  Json.is_digit c = false /\ c <> 46 /\ c <> 101 /\ c <> 69.

(** The text of the members after the first: each is a comma, a new line,
    the indentation and the member. *)
Definition member_texts (more : dict Z) : pystr :=
  flat_map (fun kv => [44] ++ Json.newline_indent ++ Json.dump_member kv) more.

(** The members the encoder wrote in full before the one it stopped at,
    each with the item separator after it. *)
Definition members_before (before : dict Z) : pystr :=
  flat_map (fun kv => Json.dump_member kv ++ Json.item_separator) before.

(** The text that reached the file when the encoder stopped at the quantity
    of [item], after the members [before]: it ends with the key and the key
    separator. *)
Definition cut_text (before : dict Z) (item : pystr) : pystr :=
  [123] ++ Json.newline_indent ++ members_before before
  ++ Json.encode_string item ++ Json.key_separator.

(** The path can be opened for writing, and the file that results for
    reading: nothing is there and it can be created, or a file is there that
    the process may both read and write. *)
Definition opens_for_write_and_read (n : node) : bool :=
  match n with
  | Missing true => true
  | File true true _ => true
  | _ => false
  end.

(** The bytes of [{"cafe": 1}], with an acute accent on the [e], as an
    editor saving in Latin-1 writes them: the accented letter is the single
    byte [0xE9], which is no UTF-8 sequence. *)
Definition latin1_inventory : list byte :=
  [x7b; x22; x63; x61; x66; xe9; x22; x3a; x20; x31; x7d].

(** The path can be opened for writing: nothing is there and it can be
    created, or a writable file is there. *)
Definition opens_for_write (n : node) : bool :=
  match n with
  | Missing true => true
  | File _ true _ => true
  | _ => false
  end.

(** A Unicode scalar value: a code point that is no surrogate.  Text decoded
    from UTF-8 holds nothing else. *)
Definition scalar_value (c : Z) : Prop :=
  0 <= c < 0x110000 /\ ~ (0xD800 <= c <= 0xDFFF).

(** What scanning a string literal of such a text yields: characters that
    are scalar values, and escapes of four hexadecimal digits. *)
Definition chunk_ok (ch : Json.chunk) : Prop :=
  match ch with
  | Json.Raw c => scalar_value c
  | Json.Esc u => 0 <= u < 0x10000
  end.

(** [rest] is what is left of [s] after reading some of it. *)
Definition is_suffix (rest s : pystr) : Prop := exists read, s = read ++ rest.

(** An integer that was read from a text has at most
    [int_max_str_digits] digits. *)
Definition loaded_int_ok (v : json) : Prop :=
  match v with
  | JInt n => fits_str_digits n = true
  | _ => True
  end.

(** A member of a loaded object: its key is a string that [json.dump]
    writes back faithfully, and so is its value when it is an integer. *)
Definition member_ok (kv : pystr * json) : Prop :=
  str_round_trips (fst kv) = true /\ loaded_int_ok (snd kv).

(** A loaded value: an integer that can be written back, or an object with
    the keys of a dictionary and members as above. *)
Definition loaded_ok (v : json) : Prop :=
  match v with
  | JObj members => dict_wf members /\ Forall member_ok members
  | _ => loaded_int_ok v
  end.

(** * Properties of the ledger *)

(** ** Dictionary lemmas *)

Lemma pystr_eqb_refl (k : pystr) : pystr_eqb k k = true.
Proof. unfold pystr_eqb. destruct (pystr_eq_dec k k); congruence. Qed.

Lemma pystr_eqb_neq (k k' : pystr) : k <> k' -> pystr_eqb k k' = false.
Proof. unfold pystr_eqb. destruct (pystr_eq_dec k k'); congruence. Qed.

Lemma pystr_eqb_spec (k k' : pystr) : reflect (k = k') (pystr_eqb k k').
Proof.
  unfold pystr_eqb. destruct (pystr_eq_dec k k'); constructor; assumption.
Qed.

Section DictFacts.
Context {V : Type}.
Implicit Types (d : dict V) (k : pystr) (v : V).

Lemma dict_lookup_setitem_same d k v :
  dict_lookup (dict_setitem d k v) k = Some v.
Proof.
  induction d as [|[k' v'] d IH]; simpl.
  - now rewrite pystr_eqb_refl.
  - destruct (pystr_eqb_spec k' k) as [->|Hne]; simpl.
    + now rewrite pystr_eqb_refl.
    + now rewrite pystr_eqb_neq.
Qed.

Lemma dict_lookup_setitem_other d k k' v :
  k' <> k -> dict_lookup (dict_setitem d k v) k' = dict_lookup d k'.
Proof.
  intros Hne. induction d as [|[k0 v0] d IH]; simpl.
  - now rewrite pystr_eqb_neq by congruence.
  - destruct (pystr_eqb_spec k0 k) as [->|Hk]; simpl.
    + now rewrite pystr_eqb_neq by congruence.
    + now rewrite IH.
Qed.

Lemma dict_lookup_delitem_other d k k' :
  k' <> k -> dict_lookup (dict_delitem d k) k' = dict_lookup d k'.
Proof.
  intros Hne. induction d as [|[k0 v0] d IH]; simpl; [reflexivity|].
  destruct (pystr_eqb_spec k0 k) as [->|Hk]; simpl.
  - now rewrite pystr_eqb_neq by congruence.
  - now rewrite IH.
Qed.

Lemma dict_lookup_none_iff d k :
  dict_lookup d k = None <-> ~ In k (dict_keys d).
Proof.
  induction d as [|[k0 v0] d IH]; simpl.
  - tauto.
  - destruct (pystr_eqb_spec k0 k) as [->|Hk].
    + split; [discriminate | intros H; exfalso; apply H; now left].
    + rewrite IH. tauto.
Qed.

Lemma dict_lookup_some_in d k v :
  dict_lookup d k = Some v -> In (k, v) d.
Proof.
  induction d as [|[k0 v0] d IH]; simpl; [discriminate|].
  destruct (pystr_eqb_spec k0 k) as [->|Hk].
  - intros [= ->]. now left.
  - intros H. right. now apply IH.
Qed.

Lemma dict_in_lookup d k v :
  dict_wf d -> In (k, v) d -> dict_lookup d k = Some v.
Proof.
  unfold dict_wf, dict_keys.
  induction d as [|[k0 v0] d IH]; simpl; [tauto|].
  intros Hnd [Heq|Hin].
  - inversion Heq; subst. now rewrite pystr_eqb_refl.
  - inversion Hnd as [|? ? Hnotin Hnd']; subst.
    destruct (pystr_eqb_spec k0 k) as [->|Hk].
    + exfalso. apply Hnotin. now apply (in_map fst) in Hin.
    + now apply IH.
Qed.

Lemma dict_keys_delitem_subset d k k' :
  In k' (dict_keys (dict_delitem d k)) -> In k' (dict_keys d).
Proof.
  unfold dict_keys.
  induction d as [|[k0 v0] d IH]; simpl; [tauto|].
  destruct (pystr_eqb k0 k); simpl; [tauto|]. intros [H|H]; auto.
Qed.

Lemma dict_wf_delitem d k : dict_wf d -> dict_wf (dict_delitem d k).
Proof.
  unfold dict_wf.
  induction d as [|[k0 v0] d IH]; simpl; [trivial|].
  intros Hnd. inversion Hnd as [|? ? Hnotin Hnd']; subst.
  destruct (pystr_eqb k0 k); [assumption|]. simpl.
  constructor; [|now apply IH].
  intros Hin. apply Hnotin. eapply dict_keys_delitem_subset, Hin.
Qed.

Lemma dict_lookup_delitem_same d k :
  dict_wf d -> dict_lookup (dict_delitem d k) k = None.
Proof.
  unfold dict_wf, dict_keys.
  induction d as [|[k0 v0] d IH]; simpl; [reflexivity|].
  intros Hnd. inversion Hnd as [|? ? Hnotin Hnd']; subst.
  destruct (pystr_eqb_spec k0 k) as [->|Hk].
  - now apply dict_lookup_none_iff.
  - simpl. rewrite pystr_eqb_neq by assumption. now apply IH.
Qed.

Lemma dict_keys_setitem_present d k v :
  dict_lookup d k <> None -> dict_keys (dict_setitem d k v) = dict_keys d.
Proof.
  unfold dict_keys.
  induction d as [|[k0 v0] d IH]; simpl; [congruence|].
  destruct (pystr_eqb k0 k); simpl; [reflexivity|].
  intros H. now rewrite IH.
Qed.

Lemma dict_keys_setitem_absent d k v :
  dict_lookup d k = None -> dict_keys (dict_setitem d k v) = dict_keys d ++ [k].
Proof.
  unfold dict_keys.
  induction d as [|[k0 v0] d IH]; simpl; [reflexivity|].
  destruct (pystr_eqb k0 k); simpl; [discriminate|].
  intros H. now rewrite IH.
Qed.

Lemma dict_setitem_absent d k v :
  dict_lookup d k = None -> dict_setitem d k v = d ++ [(k, v)].
Proof.
  induction d as [|[k0 v0] d IH]; simpl; [reflexivity|].
  destruct (pystr_eqb k0 k); simpl; [discriminate|].
  intros H. now rewrite IH.
Qed.

Lemma dict_wf_setitem d k v : dict_wf d -> dict_wf (dict_setitem d k v).
Proof.
  intros Hwf. unfold dict_wf.
  destruct (dict_lookup d k) eqn:E.
  - rewrite dict_keys_setitem_present by congruence. exact Hwf.
  - rewrite dict_keys_setitem_absent by assumption.
    apply NoDup_app; [exact Hwf | repeat constructor; simpl; tauto |].
    intros x Hin [<-|[]]. now apply dict_lookup_none_iff in E.
Qed.

Lemma dict_values_delitem d k x :
  In x (dict_values (dict_delitem d k)) -> In x (dict_values d).
Proof.
  unfold dict_values.
  induction d as [|[k0 v0] d IH]; simpl; [tauto|].
  destruct (pystr_eqb k0 k); simpl; [tauto|]. intros [H|H]; auto.
Qed.

Lemma dict_delitem_absent d k :
  dict_lookup d k = None -> dict_delitem d k = d.
Proof.
  induction d as [|[k0 v0] d IH]; simpl; [reflexivity|].
  destruct (pystr_eqb k0 k); [discriminate|].
  intros H. now rewrite IH.
Qed.
End DictFacts.

(** ** Running the operations *)

Ltac run :=
  unfold add_item, remove_item, get_qty, check_low_items, format_int,
    stock_getitem, stock_setitem, stock_delitem, try_except,
    logging_info, logging_warning, logging_error, logging_log, logs_append,
    datetime_now, get_stock, put_stock, bind, ret, raise;
  cbn [dispatch isinstance_exn fst snd stock_data logs sink disk clock
       recursion_room].

(** The limit is a positive number; from here on it is only compared. *)
Lemma int_str_limit_pos : 0 < int_str_limit.
Proof.
  unfold int_str_limit, int_max_str_digits. apply Z.pow_pos_nonneg; lia.
Qed.

Lemma int_str_limit_eq : int_str_limit = 10 ^ int_max_str_digits.
Proof. reflexivity. Qed.

Opaque int_str_limit.

Lemma fits_str_digits_spec (n : Z) :
  fits_str_digits n = true <-> Z.abs n < int_str_limit.
Proof. unfold fits_str_digits. apply Z.ltb_lt. Qed.

(** The least number of 4301 digits does not fit. *)
Lemma int_str_limit_does_not_fit : fits_str_digits int_str_limit = false.
Proof.
  unfold fits_str_digits. pose proof int_str_limit_pos.
  rewrite Z.abs_eq by lia. apply Z.ltb_irrefl.
Qed.

Lemma Forall_dict_setitem {V} (P : pystr * V -> Prop) (d : dict V) k v :
  Forall P d -> P (k, v) ->
  (forall k', k' = k -> forall v', P (k', v') -> P (k', v)) ->
  Forall P (dict_setitem d k v).
Proof.
  intros Hd Hkv Hrepl. induction Hd as [|[k0 v0] d H0 Hd IH]; simpl.
  - now constructor.
  - destruct (pystr_eqb_spec k0 k) as [->|Hk].
    + constructor; assumption.
    + constructor; assumption.
Qed.

Lemma Forall_dict_delitem {V} (P : pystr * V -> Prop) (d : dict V) k :
  Forall P d -> Forall P (dict_delitem d k).
Proof.
  intros Hd. induction Hd as [|[k0 v0] d H0 Hd IH]; simpl; [constructor|].
  destruct (pystr_eqb k0 k); [assumption | now constructor].
Qed.

(** What [add_item] does once its three checks pass, when the quantity can
    be formatted. *)
Lemma add_item_valid (st : store) (c : Z) (name : pystr) (qty : pyval) :
  isinstance_int qty = true -> 0 <= int_of qty ->
  fits_str_digits (int_of qty) = true ->
  add_item (PyStr (c :: name)) qty st =
    (Ok tt,
     mkStore
       (dict_setitem (stock_data st) (c :: name)
          (match dict_lookup (stock_data st) (c :: name) with
           | Some v => v | None => 0 end + int_of qty))
       (match logs st with
        | Some l => Some (l ++ [MsgAdded (clock st) qty (PyStr (c :: name))])
        | None => None
        end)
       (sink st ++ [(INFO, MsgAdded (clock st) qty (PyStr (c :: name)))])
       (disk st) (clock st) (recursion_room st)).
Proof.
  intros Hint Hnn Hfit. run. rewrite Hint. cbn [negb].
  destruct (Z.ltb_spec (int_of qty) 0); [lia|]. rewrite Hfit. reflexivity.
Qed.

(** And when it cannot: the mapping is already updated when the message is
    formatted, and nothing else happens before the [ValueError]. *)
Lemma add_item_unformattable (st : store) (c : Z) (name : pystr)
    (qty : pyval) :
  isinstance_int qty = true -> 0 <= int_of qty ->
  fits_str_digits (int_of qty) = false ->
  add_item (PyStr (c :: name)) qty st =
    (Raise (ValueError IntStrDigitsExceeded),
     mkStore
       (dict_setitem (stock_data st) (c :: name)
          (match dict_lookup (stock_data st) (c :: name) with
           | Some v => v | None => 0 end + int_of qty))
       (logs st) (sink st) (disk st) (clock st) (recursion_room st)).
Proof.
  intros Hint Hnn Hfit. run. rewrite Hint. cbn [negb].
  destruct (Z.ltb_spec (int_of qty) 0); [lia|]. rewrite Hfit. reflexivity.
Qed.

(** The mapping after [add_item], whether it completed or raised. *)
Lemma add_item_stock (st : store) (item qty : pyval) :
  stock_data (snd (add_item item qty st)) =
    match item with
    | PyStr (c :: name) =>
        if negb (isinstance_int qty) || (int_of qty <? 0) then stock_data st
        else
          dict_setitem (stock_data st) (c :: name)
            (match dict_lookup (stock_data st) (c :: name) with
             | Some v => v | None => 0 end + int_of qty)
    | _ => stock_data st
    end.
Proof.
  destruct item as [| | | |[|c name]]; try reflexivity.
  run. destruct (isinstance_int qty); [|reflexivity]. cbn [negb orb].
  destruct (int_of qty <? 0); [reflexivity|].
  now destruct (fits_str_digits (int_of qty)).
Qed.

(** The mapping after [remove_item], case by case. *)
Lemma remove_item_stock (st : store) (item qty : pyval) :
  fst (remove_item item qty st) = Ok tt /\
  stock_data (snd (remove_item item qty st)) =
    match item with
    | PyStr name =>
        if negb (isinstance_int qty) || (int_of qty <? 0) then stock_data st
        else
          match dict_lookup (stock_data st) name with
          | None => stock_data st
          | Some current_qty =>
              if current_qty - int_of qty <=? 0
              then dict_delitem (stock_data st) name
              else dict_setitem (stock_data st) name (current_qty - int_of qty)
          end
    | _ => stock_data st
    end.
Proof.
  run.
  destruct (negb (isinstance_int qty) || (int_of qty <? 0)) eqn:Hq.
  - destruct item; auto.
  - destruct item as [| | | |name]; auto.
    destruct (dict_lookup (stock_data st) name) as [current_qty|] eqn:Hl;
      cbn; auto.
    destruct (current_qty - int_of qty <=? 0); cbn; rewrite Hl; cbn; auto.
Qed.

(** ** The data invariant (C1) *)

(** C1, as stated, fails: from the empty ledger, which satisfies the
    invariant, the valid call [add_item(stock, "apple", 0)] completes and
    stores ["apple"] with quantity 0. *)
Lemma add_item_zero_stores_zero :
  positive_quantities (stock_data empty_store) /\
  fst (add_item (PyStr (str "apple")) (PyInt 0) empty_store) = Ok tt /\
  stock_data (snd (add_item (PyStr (str "apple")) (PyInt 0) empty_store))
    = [(str "apple", 0)] /\
  ~ positive_quantities
      (stock_data (snd (add_item (PyStr (str "apple")) (PyInt 0) empty_store))).
Proof.
  repeat split; try (vm_compute; constructor).
  intros H. vm_compute in H. inversion H as [|? ? Hlt _]. vm_compute in Hlt.
  discriminate.
Qed.

(** C1 (amended): from a ledger whose quantities are all strictly positive,
    [remove_item] with any arguments leaves all quantities strictly positive;
    so does a completed [add_item] when the quantity is positive or the item is
    already present; and a completed [add_item] of quantity 0 for an absent
    item appends that item with quantity 0 and changes nothing else. *)
Theorem mutations_and_positive_quantities
    (st : store) (item qty : pyval) :
  positive_quantities (stock_data st) ->
  positive_quantities (stock_data (snd (remove_item item qty st))) /\
  (forall st',
     add_item item qty st = (Ok tt, st') ->
     exists name,
       item = PyStr name /\
       ((0 < int_of qty \/ dict_lookup (stock_data st) name <> None ->
         positive_quantities (stock_data st')) /\
        (int_of qty = 0 -> dict_lookup (stock_data st) name = None ->
         stock_data st' = stock_data st ++ [(name, 0)]))).
Proof.
  intros Hpos. split.
  - destruct (remove_item_stock st item qty) as [_ ->].
    destruct item as [| | | |name]; try assumption.
    destruct (negb (isinstance_int qty) || (int_of qty <? 0)); [assumption|].
    destruct (dict_lookup (stock_data st) name) as [current_qty|] eqn:Hl;
      [|assumption].
    destruct (Z.leb_spec (current_qty - int_of qty) 0).
    + now apply Forall_dict_delitem.
    + apply Forall_dict_setitem; simpl; auto.
  - intros st' Hadd.
    destruct item as [| | | |[|c name]]; try discriminate.
    destruct (isinstance_int qty) eqn:Hint;
      [|revert Hadd; run; rewrite Hint; discriminate].
    destruct (Z.ltb_spec (int_of qty) 0) as [Hneg|Hnn].
    { revert Hadd. run. rewrite Hint. cbn [negb].
      destruct (Z.ltb_spec (int_of qty) 0); [discriminate | lia]. }
    destruct (fits_str_digits (int_of qty)) eqn:Hfit;
      [|rewrite add_item_unformattable in Hadd by assumption; discriminate].
    rewrite add_item_valid in Hadd by assumption.
    injection Hadd as <-. cbn [stock_data].
    exists (c :: name). split; [reflexivity|]. split.
    + intros Hcase.
      destruct (dict_lookup (stock_data st) (c :: name)) as [v|] eqn:Hl.
      * assert (0 < v).
        { apply dict_lookup_some_in in Hl.
          unfold positive_quantities in Hpos. rewrite Forall_forall in Hpos.
          apply (Hpos _ Hl). }
        apply Forall_dict_setitem; simpl; auto; lia.
      * destruct Hcase as [Hq|Hp]; [|congruence].
        apply Forall_dict_setitem; simpl; auto; lia.
    + intros Hz Hl. rewrite Hl, Hz. now apply dict_setitem_absent.
Qed.

Lemma mutations_and_positive_quantities_witness :
  positive_quantities [(str "apple", 7)] /\
  positive_quantities
    (stock_data
       (snd (remove_item (PyStr (str "apple")) (PyInt 3)
               (mkStore [(str "apple", 7)] None [] (fun _ => Missing true) 0 990)))).
Proof.
  assert (H : positive_quantities [(str "apple", 7)]).
  { repeat constructor. }
  split; [exact H|].
  exact (proj1 (mutations_and_positive_quantities
                  (mkStore [(str "apple", 7)] None [] (fun _ => Missing true) 0 990)
                  (PyStr (str "apple")) (PyInt 3) H)).
Defined.

(** ** Validation in [add_item] (C2) *)



(** ** Adding and querying (C3, C8) *)




(** C8: [get_qty] always completes, leaves the whole store as it was, and
    returns the quantity stored under the item when there is an entry for it
    and 0 when the item is no key of the mapping. *)
Theorem get_qty_lookup (st : store) (item : pyval) :
  exists q,
    get_qty item st = (Ok q, st) /\
    (forall name v,
       item = PyStr name -> dict_wf (stock_data st) ->
       In (name, v) (stock_data st) -> q = v) /\
    ((forall name, item = PyStr name -> ~ In name (dict_keys (stock_data st))) ->
     q = 0).
Proof.
  eexists. split; [run; reflexivity|]. split.
  - intros name v -> Hwf Hin. now rewrite (dict_in_lookup _ _ _ Hwf Hin).
  - intros Habs. destruct item as [| | | |name]; try reflexivity.
    specialize (Habs name eq_refl). apply dict_lookup_none_iff in Habs.
    now rewrite Habs.
Qed.

(** ** Removing (C4, C5) *)

(** C4: when [name] is present with quantity [c] and [qty >= 0] is an [int],
    [remove_item] completes; if [c - qty <= 0] the key is gone (and [get_qty]
    then returns 0), otherwise the key keeps its place and holds [c - qty]. *)
Theorem remove_item_present (st : store) (name : pystr) (c : Z) (qty : pyval) :
  dict_wf (stock_data st) ->
  dict_lookup (stock_data st) name = Some c ->
  isinstance_int qty = true -> 0 <= int_of qty ->
  exists st',
    remove_item (PyStr name) qty st = (Ok tt, st') /\
    (c - int_of qty <= 0 ->
       ~ In name (dict_keys (stock_data st')) /\
       stock_data st' = dict_delitem (stock_data st) name /\
       fst (get_qty (PyStr name) st') = Ok 0) /\
    (0 < c - int_of qty ->
       dict_lookup (stock_data st') name = Some (c - int_of qty) /\
       dict_keys (stock_data st') = dict_keys (stock_data st)).
Proof.
  intros Hwf Hl Hint Hnn.
  destruct (remove_item_stock st (PyStr name) qty) as [Hr Hs].
  exists (snd (remove_item (PyStr name) qty st)).
  split; [rewrite <- Hr; now destruct (remove_item (PyStr name) qty st)|].
  rewrite Hs, Hint, Hl. cbn [negb orb].
  destruct (Z.ltb_spec (int_of qty) 0); [lia|].
  split; intros Hc.
  - destruct (Z.leb_spec (c - int_of qty) 0); [|lia].
    assert (Hnone : dict_lookup (dict_delitem (stock_data st) name) name = None)
      by now apply dict_lookup_delitem_same.
    split; [now apply dict_lookup_none_iff|]. split; [reflexivity|].
    unfold get_qty, bind, get_stock, ret. cbn [fst].
    rewrite Hs, Hint, Hl. cbn [negb orb].
    destruct (Z.ltb_spec (int_of qty) 0); [lia|].
    destruct (Z.leb_spec (c - int_of qty) 0); [|lia].
    now rewrite Hnone.
  - destruct (Z.leb_spec (c - int_of qty) 0); [lia|].
    split; [apply dict_lookup_setitem_same|].
    apply dict_keys_setitem_present. congruence.
Qed.

Lemma remove_item_present_witness :
  exists st',
    remove_item (PyStr (str "banana")) (PyInt 25)
      (mkStore [(str "apple", 7); (str "banana", 20)] None []
         (fun _ => Missing true) 0 990)
    = (Ok tt, st') /\
    (20 - int_of (PyInt 25) <= 0 ->
       ~ In (str "banana") (dict_keys (stock_data st')) /\
       stock_data st' =
         dict_delitem [(str "apple", 7); (str "banana", 20)] (str "banana") /\
       fst (get_qty (PyStr (str "banana")) st') = Ok 0) /\
    (0 < 20 - int_of (PyInt 25) ->
       dict_lookup (stock_data st') (str "banana")
         = Some (20 - int_of (PyInt 25)) /\
       dict_keys (stock_data st') =
         dict_keys [(str "apple", 7); (str "banana", 20)]).
Proof.
  apply (remove_item_present
           (mkStore [(str "apple", 7); (str "banana", 20)] None []
              (fun _ => Missing true) 0 990)
           (str "banana") 20 (PyInt 25)).
  - unfold dict_wf. vm_compute.
    repeat constructor; simpl; intros H;
      repeat (destruct H as [H|H]; try discriminate H); exact H.
  - reflexivity.
  - reflexivity.
  - vm_compute. discriminate.
Defined.

(** C5: [remove_item] never raises, whatever its arguments; and when the
    quantity is not an [int], or is negative, or the item is absent, the
    mapping, the caller's log list and the disk are exactly as before: the only
    effect is one [WARNING] record. *)
Theorem remove_item_swallows (st : store) (item qty : pyval) :
  fst (remove_item item qty st) = Ok tt /\
  (isinstance_int qty = false \/ int_of qty < 0 \/
   item_absent (stock_data st) item ->
   exists m,
     snd (remove_item item qty st) =
       mkStore (stock_data st) (logs st) (sink st ++ [(WARNING, m)])
               (disk st) (clock st) (recursion_room st)).
Proof.
  split; [apply remove_item_stock|].
  intros Hcase. run.
  destruct (negb (isinstance_int qty) || (int_of qty <? 0)) eqn:Hq.
  - eexists. reflexivity.
  - apply orb_false_iff in Hq. destruct Hq as [Hq1 Hq2].
    apply negb_false_iff in Hq1. apply Z.ltb_ge in Hq2.
    destruct Hcase as [H|[H|H]]; [congruence | lia |].
    destruct item as [| | | |name]; try (eexists; reflexivity).
    specialize (H name eq_refl). apply dict_lookup_none_iff in H.
    rewrite H. eexists. reflexivity.
Qed.

(** ** Low-stock scan (C9) *)

Lemma low_items_in (d : dict Z) (t : Z) (name : pystr) :
  In name (low_items d t) <-> exists q, In (name, q) d /\ q < t.
Proof.
  induction d as [|[k v] d IH]; simpl.
  - split; [tauto | intros (q & [] & _)].
  - destruct (Z.ltb_spec v t) as [Hlt|Hge]; simpl; rewrite IH; split.
    + intros [->|(q & Hin & Hq)]; [exists v; auto | exists q; auto].
    + intros (q & [[= -> ->]|Hin] & Hq); [now left | right; eauto].
    + intros (q & Hin & Hq); eauto.
    + intros (q & [[= -> ->]|Hin] & Hq); [lia | eauto].
Qed.

Lemma low_items_filter (d : dict Z) (t : Z) :
  dict_wf d ->
  low_items d t =
    filter (fun name =>
              match dict_lookup d name with
              | Some q => q <? t
              | None => false
              end) (dict_keys d).
Proof.
  unfold dict_wf, dict_keys.
  induction d as [|[k v] d IH]; simpl; [reflexivity|].
  intros Hnd. inversion Hnd as [|? ? Hnotin Hnd']; subst.
  rewrite pystr_eqb_refl.
  assert (Hext : filter
            (fun name =>
               match (if pystr_eqb k name then Some v else dict_lookup d name)
               with Some q => q <? t | None => false end) (map fst d)
          = filter
              (fun name =>
                 match dict_lookup d name with
                 | Some q => q <? t | None => false end) (map fst d)).
  { apply filter_ext_in. intros name Hin.
    destruct (pystr_eqb_spec k name) as [->|_]; [contradiction | reflexivity]. }
  rewrite Hext, <- IH by assumption.
  now destruct (v <? t).
Qed.

(** C9: [check_low_items] always completes and leaves the store as it was;
    its result holds exactly the names stored with a quantity strictly below
    the threshold (5 when none is given), in the order of the mapping: it is
    the list of keys, filtered.  The empty mapping gives the empty list. *)
Theorem check_low_items_exact (st : store) (threshold : option Z) :
  exists t r,
    t = match threshold with Some t => t | None => 5 end /\
    check_low_items threshold st = (Ok r, st) /\
    (forall name, In name r <-> exists q, In (name, q) (stock_data st) /\ q < t)
    /\
    (dict_wf (stock_data st) ->
     r = filter (fun name =>
                   match dict_lookup (stock_data st) name with
                   | Some q => q <? t
                   | None => false
                   end) (dict_keys (stock_data st))) /\
    (stock_data st = [] -> r = []).
Proof.
  eexists. eexists. split; [reflexivity|]. split; [run; reflexivity|].
  split; [|split].
  - intros name. destruct threshold; apply low_items_in.
  - intros Hwf. destruct threshold; now apply low_items_filter.
  - intros ->. reflexivity.
Qed.

(** The example of the specification: [{apple: 7, banana: 2}] at threshold 5
    gives [["banana"]]. *)
Example check_low_items_example :
  fst (check_low_items (Some 5)
         (mkStore [(str "apple", 7); (str "banana", 2)] None []
            (fun _ => Missing true) 0 990))
  = Ok [str "banana"].
Proof. reflexivity. Qed.

(** ** Frame (C10) *)

(** C10: whatever the arguments and whether the call completes or raises,
    [add_item] and [remove_item] leave the presence and the quantity of every
    key other than [item] as they were. *)
Theorem mutations_frame (st : store) (item qty : pyval) (other : pystr) :
  PyStr other <> item ->
  dict_lookup (stock_data (snd (add_item item qty st))) other
    = dict_lookup (stock_data st) other /\
  dict_lookup (stock_data (snd (remove_item item qty st))) other
    = dict_lookup (stock_data st) other.
Proof.
  intros Hne. split.
  - rewrite add_item_stock.
    destruct item as [| | | |[|c name]]; try reflexivity.
    destruct (negb (isinstance_int qty) || (int_of qty <? 0)); [reflexivity|].
    apply dict_lookup_setitem_other. congruence.
  - destruct (remove_item_stock st item qty) as [_ ->].
    destruct item as [| | | |name]; try reflexivity.
    destruct (negb (isinstance_int qty) || (int_of qty <? 0)); [reflexivity|].
    destruct (dict_lookup (stock_data st) name) as [current_qty|];
      [|reflexivity].
    destruct (current_qty - int_of qty <=? 0).
    + apply dict_lookup_delitem_other. congruence.
    + apply dict_lookup_setitem_other. congruence.
Qed.

Lemma mutations_frame_witness :
  dict_lookup
    (stock_data
       (snd (add_item (PyStr (str "banana")) (PyInt 20)
               (mkStore [(str "apple", 7)] None [] (fun _ => Missing true) 0 990))))
    (str "apple")
  = dict_lookup [(str "apple", 7)] (str "apple") /\
  dict_lookup
    (stock_data
       (snd (remove_item (PyStr (str "banana")) (PyInt 20)
               (mkStore [(str "apple", 7)] None [] (fun _ => Missing true) 0 990))))
    (str "apple")
  = dict_lookup [(str "apple", 7)] (str "apple").
Proof.
  apply (mutations_frame
           (mkStore [(str "apple", 7)] None [] (fun _ => Missing true) 0 990)
           (PyStr (str "banana")) (PyInt 20) (str "apple")).
  vm_compute. discriminate.
Defined.

(** * Properties of the persistence layer *)

(** ** UTF-8 and newlines on ASCII text *)

Lemma byte_val_of (c : Z) : 0 <= c < 256 -> Utf8.byte_val (Utf8.byte_of c) = c.
Proof.
  intros Hc. unfold Utf8.byte_val, Utf8.byte_of.
  destruct (Byte.of_N (Z.to_N c)) as [b|] eqn:E.
  - apply Byte.to_of_N in E. rewrite E. lia.
  - apply Byte.of_N_None_iff in E. lia.
Qed.

Lemma utf8_encode_ascii (s : pystr) :
  Forall (fun c => 0 <= c < 128) s ->
  Utf8.encode s = Some (map Utf8.byte_of s).
Proof.
  induction 1 as [|c s Hc Hs IH]; [reflexivity|].
  cbn [Utf8.encode map]. rewrite IH. unfold Utf8.encode_char.
  destruct (Z.ltb_spec c 0); [lia|].
  destruct (Z.ltb_spec c 128); [reflexivity | lia].
Qed.

Lemma utf8_decode_ascii (s : pystr) :
  Forall (fun c => 0 <= c < 128) s ->
  Utf8.decode (map Utf8.byte_of s) = Some s.
Proof.
  induction 1 as [|c s Hc Hs IH]; [reflexivity|].
  cbn [Utf8.decode map]. rewrite byte_val_of by lia.
  destruct (Z.ltb_spec c 128); [|lia]. now rewrite IH.
Qed.

Lemma universal_newlines_no_cr (s : pystr) :
  Forall (fun c => c <> 13) s -> universal_newlines s = s.
Proof.
  induction 1 as [|c s Hc Hs IH]; [reflexivity|].
  cbn [universal_newlines].
  destruct (Z.eqb_spec c 13); [contradiction|]. now rewrite IH.
Qed.

Lemma json_out_char_ascii (s : pystr) :
  Forall json_out_char s -> Forall (fun c => 0 <= c < 128) s.
Proof. apply Forall_impl. unfold json_out_char. lia. Qed.

Lemma json_out_char_no_cr (s : pystr) :
  Forall json_out_char s -> Forall (fun c => c <> 13) s.
Proof. apply Forall_impl. unfold json_out_char. lia. Qed.

(** ** Hexadecimal escapes *)

Lemma hex_value_digit (d : Z) :
  0 <= d < 16 -> Json.hex_value (Json.hex_digit d) = Some d.
Proof.
  intros Hd. unfold Json.hex_value, Json.hex_digit.
  destruct (Z.ltb_spec d 10).
  - destruct (Z.leb_spec 48 (48 + d)); [|lia].
    destruct (Z.leb_spec (48 + d) 57); [|lia]. cbn [andb]. f_equal. lia.
  - destruct (Z.leb_spec 48 (87 + d)); [|lia].
    destruct (Z.leb_spec (87 + d) 57); [lia|]. cbn [andb].
    destruct (Z.leb_spec 97 (87 + d)); [|lia].
    destruct (Z.leb_spec (87 + d) 102); [|lia]. cbn [andb]. f_equal. lia.
Qed.

Lemma hex_digit_out (d : Z) : 0 <= d < 16 -> json_out_char (Json.hex_digit d).
Proof.
  intros Hd. unfold Json.hex_digit, json_out_char.
  destruct (Z.ltb_spec d 10); lia.
Qed.

Lemma hex4_parts (n : Z) :
  0 <= n < 65536 ->
  0 <= n / 4096 < 16 /\ 0 <= n / 256 mod 16 < 16 /\
  0 <= n / 16 mod 16 < 16 /\ 0 <= n mod 16 < 16 /\
  ((n / 4096 * 16 + n / 256 mod 16) * 16 + n / 16 mod 16) * 16 + n mod 16 = n.
Proof.
  intros Hn.
  pose proof (Z.div_mod n 16 ltac:(lia)).
  pose proof (Z.mod_pos_bound n 16 ltac:(lia)).
  pose proof (Z.div_mod (n / 16) 16 ltac:(lia)).
  pose proof (Z.mod_pos_bound (n / 16) 16 ltac:(lia)).
  pose proof (Z.div_mod (n / 256) 16 ltac:(lia)).
  pose proof (Z.mod_pos_bound (n / 256) 16 ltac:(lia)).
  assert (n / 256 = n / 16 / 16) by (rewrite Z.div_div by lia; reflexivity).
  assert (n / 4096 = n / 256 / 16) by (rewrite Z.div_div by lia; reflexivity).
  assert (0 <= n / 4096 < 16).
  { split; [apply Z.div_pos; lia | apply Z.div_lt_upper_bound; lia]. }
  lia.
Qed.

Lemma hex4_value_hex4 (n : Z) :
  0 <= n < 65536 ->
  Json.hex4_value (Json.hex_digit (n / 4096)) (Json.hex_digit (n / 256 mod 16))
    (Json.hex_digit (n / 16 mod 16)) (Json.hex_digit (n mod 16)) = Some n.
Proof.
  intros Hn. destruct (hex4_parts n Hn) as (H1 & H2 & H3 & H4 & Heq).
  unfold Json.hex4_value. rewrite !hex_value_digit by assumption.
  now rewrite Heq.
Qed.

Lemma hex4_out (n : Z) : 0 <= n < 65536 -> Forall json_out_char (Json.hex4 n).
Proof.
  intros Hn. destruct (hex4_parts n Hn) as (H1 & H2 & H3 & H4 & _).
  unfold Json.hex4. repeat (constructor; [now apply hex_digit_out|]).
  constructor.
Qed.

(** ** Surrogate arithmetic *)

Lemma lor_shiftl_low (a b n : Z) :
  0 <= n -> 0 <= b < 2 ^ n -> Z.lor (Z.shiftl a n) b = Z.shiftl a n + b.
Proof.
  intros Hn Hb.
  assert (Hland : Z.land (Z.shiftl a n) b = 0).
  { apply Z.bits_inj'. intros i Hi. rewrite Z.land_spec, Z.bits_0.
    destruct (Z.ltb_spec i n).
    - rewrite Z.shiftl_spec_low by assumption. reflexivity.
    - assert (Z.testbit b i = false) as ->; [|apply andb_false_r].
      destruct (Z.eq_dec b 0) as [->|Hnz]; [apply Z.bits_0|].
      apply Z.bits_above_log2; [lia|].
      apply Z.lt_le_trans with n; [|assumption].
      apply Z.log2_lt_pow2; lia. }
  pose proof (Z.add_lor_land (Z.shiftl a n) b) as H. rewrite Hland in H. lia.
Qed.

(** The two halves [escape_char] writes for a code point above the basic
    plane, and the code point their values join into. *)
Lemma surrogate_halves (c : Z) :
  0x10000 <= c < 0x110000 ->
  0xD800 <= Z.lor 0xD800 (Z.land (Z.shiftr (c - 0x10000) 10) 0x3FF) <= 0xDBFF /\
  0xDC00 <= Z.lor 0xDC00 (Z.land (c - 0x10000) 0x3FF) <= 0xDFFF /\
  0x10000
  + Z.lor
      (Z.shiftl
         (Z.lor 0xD800 (Z.land (Z.shiftr (c - 0x10000) 10) 0x3FF) - 0xD800) 10)
      (Z.lor 0xDC00 (Z.land (c - 0x10000) 0x3FF) - 0xDC00) = c.
Proof.
  intros Hc.
  set (v := c - 0x10000).
  set (s1 := Z.lor 0xD800 (Z.land (Z.shiftr v 10) 0x3FF)).
  set (s2 := Z.lor 0xDC00 (Z.land v 0x3FF)).
  assert (Hv : 0 <= v < 2 ^ 20) by (subst v; change (2 ^ 20) with 1048576; lia).
  assert (Hhi : Z.land (Z.shiftr v 10) 0x3FF = v / 1024).
  { change 0x3FF with (Z.ones 10). rewrite Z.land_ones by lia.
    rewrite Z.shiftr_div_pow2 by lia. change (2 ^ 10) with 1024.
    apply Z.mod_small. split; [apply Z.div_pos; lia|].
    apply Z.div_lt_upper_bound; [lia|]. change (2 ^ 20) with 1048576 in Hv. lia. }
  assert (Hlo : Z.land v 0x3FF = v mod 1024).
  { change 0x3FF with (Z.ones 10). now rewrite Z.land_ones by lia. }
  assert (Hhib : 0 <= v / 1024 < 1024).
  { split; [apply Z.div_pos; lia|].
    apply Z.div_lt_upper_bound; [lia|]. change (2 ^ 20) with 1048576 in Hv. lia. }
  pose proof (Z.mod_pos_bound v 1024 ltac:(lia)) as Hlob.
  assert (H1 : s1 = 0xD800 + v / 1024).
  { subst s1. rewrite Hhi. change 0xD800 with (Z.shiftl 54 10).
    apply lor_shiftl_low; [lia|]. change (2 ^ 10) with 1024. lia. }
  assert (H2 : s2 = 0xDC00 + v mod 1024).
  { subst s2. rewrite Hlo. change 0xDC00 with (Z.shiftl 55 10).
    apply lor_shiftl_low; [lia|]. change (2 ^ 10) with 1024. lia. }
  split; [lia|]. split; [lia|].
  rewrite H1, H2.
  replace (0xD800 + v / 1024 - 0xD800) with (v / 1024) by lia.
  replace (0xDC00 + v mod 1024 - 0xDC00) with (v mod 1024) by lia.
  rewrite lor_shiftl_low; [|lia|change (2 ^ 10) with 1024; lia].
  rewrite Z.shiftl_mul_pow2 by lia. change (2 ^ 10) with 1024.
  pose proof (Z.div_mod v 1024 ltac:(lia)). subst v. lia.
Qed.

(** ** String literals: escaping and scanning *)

Lemma scan_chunks_simple (e ch : Z) (r : pystr) :
  Json.simple_escape e = Some ch -> e <> 117 ->
  Json.scan_chunks (92 :: e :: r) =
    match Json.scan_chunks r with
    | Some (cs, rest) => Some (Json.Raw ch :: cs, rest)
    | None => None
    end.
Proof.
  intros Hs He. cbn [Json.scan_chunks].
  change (92 =? 34) with false. change (92 =? 92) with true. cbv iota.
  destruct (Z.eqb_spec e 117); [contradiction|]. now rewrite Hs.
Qed.

Lemma scan_chunks_u (h1 h2 h3 h4 : Z) (r : pystr) :
  Json.scan_chunks (92 :: 117 :: h1 :: h2 :: h3 :: h4 :: r) =
    match Json.hex4_value h1 h2 h3 h4, Json.scan_chunks r with
    | Some u, Some (cs, rest) => Some (Json.Esc u :: cs, rest)
    | _, _ => None
    end.
Proof. reflexivity. Qed.

Lemma scan_chunks_plain (c : Z) (r : pystr) :
  c <> 34 -> c <> 92 -> 32 <= c ->
  Json.scan_chunks (c :: r) =
    match Json.scan_chunks r with
    | Some (cs, rest) => Some (Json.Raw c :: cs, rest)
    | None => None
    end.
Proof.
  intros H1 H2 H3. cbn [Json.scan_chunks].
  destruct (Z.eqb_spec c 34); [contradiction|].
  destruct (Z.eqb_spec c 92); [contradiction|].
  destruct (Z.ltb_spec c 32); [lia | reflexivity].
Qed.

Lemma code_point_range (c : Z) : code_point c = true -> 0 <= c < 0x110000.
Proof. unfold code_point. lia. Qed.

(** Scanning the escape of one character, then anything. *)
Lemma scan_chunks_escape_char (c : Z) (tail : pystr) :
  code_point c = true ->
  Json.scan_chunks (Json.escape_char c ++ tail) =
    match Json.scan_chunks tail with
    | Some (cs, rest) => Some (chunks_of_char c ++ cs, rest)
    | None => None
    end.
Proof.
  intros Hc. apply code_point_range in Hc.
  unfold Json.escape_char, chunks_of_char.
  destruct (Z.eqb_spec c 34) as [->|]; [now apply scan_chunks_simple|].
  destruct (Z.eqb_spec c 92) as [->|]; [now apply scan_chunks_simple|].
  destruct (Z.eqb_spec c 10) as [->|]; [now apply scan_chunks_simple|].
  destruct (Z.eqb_spec c 13) as [->|]; [now apply scan_chunks_simple|].
  destruct (Z.eqb_spec c 9) as [->|]; [now apply scan_chunks_simple|].
  destruct (Z.eqb_spec c 8) as [->|]; [now apply scan_chunks_simple|].
  destruct (Z.eqb_spec c 12) as [->|]; [now apply scan_chunks_simple|].
  destruct (Z.leb_spec 32 c); cbn [andb].
  - destruct (Z.leb_spec c 126).
    + cbn [app]. now apply scan_chunks_plain.
    + destruct (Z.ltb_spec c 0x10000).
      * cbn [app Json.hex4]. rewrite scan_chunks_u, hex4_value_hex4 by lia.
        reflexivity.
      * destruct (surrogate_halves c ltac:(lia)) as (Hs1 & Hs2 & _).
        cbn [app Json.hex4].
        rewrite scan_chunks_u, hex4_value_hex4 by lia.
        rewrite scan_chunks_u, hex4_value_hex4 by lia.
        now destruct (Json.scan_chunks tail) as [[cs rest]|].
  - destruct (Z.ltb_spec c 0x10000); [|lia].
    cbn [app Json.hex4]. rewrite scan_chunks_u, hex4_value_hex4 by lia.
    reflexivity.
Qed.

Lemma scan_chunks_escape (k rest : pystr) :
  forallb code_point k = true ->
  Json.scan_chunks (flat_map Json.escape_char k ++ 34 :: rest) =
    Some (flat_map chunks_of_char k, rest).
Proof.
  induction k as [|c k IH]; intros Hk; [reflexivity|].
  cbn [forallb] in Hk. apply andb_prop in Hk. destruct Hk as [Hc Hk].
  cbn [flat_map]. rewrite <- app_assoc, scan_chunks_escape_char by assumption.
  now rewrite IH.
Qed.

(** The first piece of an escaped string is never a low surrogate that did
    not stand in the string itself. *)
Lemma chunks_head_esc (k : pystr) (u : Z) (more : list Json.chunk) :
  forallb code_point k = true ->
  flat_map chunks_of_char k = Json.Esc u :: more ->
  exists c k', k = c :: k' /\ (u = c \/ Json.is_low_surrogate u = false).
Proof.
  destruct k as [|c k']; [discriminate|]. intros Hk Heq.
  cbn [forallb] in Hk. apply andb_prop in Hk. destruct Hk as [Hc _].
  apply code_point_range in Hc.
  exists c, k'. split; [reflexivity|].
  cbn [flat_map] in Heq. unfold chunks_of_char in Heq.
  repeat match type of Heq with
         | context [if ?b then _ else _] => destruct b eqn:?
         end;
    cbn [app] in Heq; try discriminate.
  - left. congruence.
  - right. destruct (surrogate_halves c ltac:(lia)) as (Hs1 & _ & _).
    assert (Hu : Z.lor 0xD800 (Z.land (Z.shiftr (c - 0x10000) 10) 0x3FF) = u)
      by congruence.
    rewrite Hu in Hs1. unfold Json.is_low_surrogate. lia.
Qed.

Lemma join_surrogates_esc (u : Z) (more : list Json.chunk) :
  (forall u2 more2,
     more = Json.Esc u2 :: more2 ->
     Json.is_high_surrogate u && Json.is_low_surrogate u2 = false) ->
  Json.join_surrogates (Json.Esc u :: more) = u :: Json.join_surrogates more.
Proof.
  intros H. destruct more as [|[c|u2] more2]; try reflexivity.
  cbn [Json.join_surrogates]. now rewrite (H u2 more2 eq_refl).
Qed.

Lemma join_surrogates_chunks (k : pystr) :
  str_round_trips k = true ->
  Json.join_surrogates (flat_map chunks_of_char k) = k.
Proof.
  unfold str_round_trips. intros Hk. apply andb_prop in Hk.
  destruct Hk as [Hcp Hfree].
  induction k as [|c k IH]; [reflexivity|].
  cbn [forallb] in Hcp. apply andb_prop in Hcp. destruct Hcp as [Hc Hcp].
  assert (Hfree' : surrogate_pair_free k = true).
  { cbn [surrogate_pair_free] in Hfree. destruct k; [reflexivity|].
    now apply andb_prop in Hfree. }
  specialize (IH Hcp Hfree').
  cbn [flat_map].
  assert (Hraw : Json.join_surrogates
                   ([Json.Raw c] ++ flat_map chunks_of_char k) = c :: k).
  { cbn [app Json.join_surrogates]. now rewrite IH. }
  pose proof (code_point_range c Hc) as Hrange.
  unfold chunks_of_char at 1.
  repeat match goal with
         | |- context [if ?b then _ else _] =>
             destruct b eqn:?; [exact Hraw|]
         end.
  destruct (Z.ltb_spec c 0x10000).
  - cbn [app]. rewrite join_surrogates_esc; [now rewrite IH|].
    intros u2 more2 Hmore.
    destruct (chunks_head_esc k u2 more2 Hcp Hmore) as (c2 & k' & -> & [->|Hlow]).
    + cbn [surrogate_pair_free] in Hfree. apply andb_prop in Hfree.
      destruct Hfree as [Hpair _]. now apply negb_true_iff in Hpair.
    + rewrite Hlow. apply andb_false_r.
  - destruct (surrogate_halves c ltac:(lia)) as (Hs1 & Hs2 & Hjoin).
    cbn [app Json.join_surrogates].
    unfold Json.is_high_surrogate, Json.is_low_surrogate.
    destruct (Z.leb_spec 0xD800
                (Z.lor 0xD800 (Z.land (Z.shiftr (c - 0x10000) 10) 0x3FF)));
      [|lia].
    destruct (Z.leb_spec
                (Z.lor 0xD800 (Z.land (Z.shiftr (c - 0x10000) 10) 0x3FF))
                0xDBFF); [|lia].
    destruct (Z.leb_spec 0xDC00 (Z.lor 0xDC00 (Z.land (c - 0x10000) 0x3FF)));
      [|lia].
    destruct (Z.leb_spec (Z.lor 0xDC00 (Z.land (c - 0x10000) 0x3FF)) 0xDFFF);
      [|lia].
    cbn [andb]. rewrite Hjoin. now rewrite IH.
Qed.

(** A key written by [encode_string] is read back by [scan_string]. *)
Lemma scan_string_escape (k rest : pystr) :
  str_round_trips k = true ->
  Json.scan_string (flat_map Json.escape_char k ++ 34 :: rest) = Some (k, rest).
Proof.
  intros Hk. unfold Json.scan_string.
  rewrite scan_chunks_escape
    by (unfold str_round_trips in Hk; now apply andb_prop in Hk).
  now rewrite join_surrogates_chunks.
Qed.

(** ** Integers: printing and scanning *)

Lemma uint_digits_are_digits (u : Decimal.uint) :
  forallb Json.is_digit (Json.uint_digits u) = true.
Proof. induction u; cbn [Json.uint_digits forallb]; auto. Qed.

Lemma digits_value_acc (u : Decimal.uint) (acc : positive) :
  fold_left (fun a c => 10 * a + (c - 48)) (Json.uint_digits u) (Zpos acc)
  = Zpos (Pos.of_uint_acc u acc).
Proof.
  revert acc. induction u; intros acc;
    cbn [Json.uint_digits fold_left Pos.of_uint_acc]; [reflexivity|..];
    match goal with
    | |- fold_left _ _ ?z = _ =>
        match goal with
        | |- _ = Zpos (Pos.of_uint_acc _ ?a) =>
            replace z with (Zpos a) by lia
        end
    end; apply IHu.
Qed.

Lemma digits_value_of_uint (u : Decimal.uint) :
  Json.digits_value (Json.uint_digits u) = Z.of_N (Pos.of_uint u).
Proof.
  unfold Json.digits_value.
  induction u; cbn [Json.uint_digits fold_left Pos.of_uint]; try reflexivity;
    try exact IHu;
    match goal with
    | |- fold_left _ _ ?z = Z.of_N (Npos (Pos.of_uint_acc _ ?a)) =>
        change z with (Zpos a); apply digits_value_acc
    end.
Qed.

Lemma digits_value_to_uint (p : positive) :
  Json.digits_value (Json.uint_digits (Pos.to_uint p)) = Zpos p.
Proof.
  rewrite digits_value_of_uint, DecimalPos.Unsigned.of_to. reflexivity.
Qed.

(** The digits of a positive number: a first digit that is not [0], then
    digits. *)
Lemma to_uint_digits_shape (p : positive) :
  exists d ds,
    Json.uint_digits (Pos.to_uint p) = d :: ds /\
    49 <= d <= 57 /\ forallb Json.is_digit ds = true.
Proof.
  pose proof (uint_digits_are_digits (Pos.to_uint p)) as Hall.
  pose proof (DecimalPos.Unsigned.to_uint_nonzero p) as Hnz.
  pose proof (DecimalPos.Unsigned.to_of (Pos.to_uint p)) as Hnorm.
  rewrite DecimalPos.Unsigned.of_to in Hnorm. cbn [N.to_uint] in Hnorm.
  destruct (Pos.to_uint p) as [|u|u|u|u|u|u|u|u|u|u] eqn:E.
  - now apply DecimalPos.Unsigned.to_uint_nonnil in E.
  - exfalso. rewrite DecimalFacts.unorm_D0 in Hnorm.
    unfold Decimal.unorm in Hnorm.
    destruct (Decimal.nzhead u) eqn:Eh;
      try (now apply DecimalFacts.nzhead_nonzero in Eh);
      try discriminate Hnorm.
    apply Hnz. exact Hnorm.
  - cbn [Json.uint_digits forallb] in *. eexists _, _. split; [reflexivity|].
    split; [lia|]. exact Hall.
  - cbn [Json.uint_digits forallb] in *. eexists _, _. split; [reflexivity|].
    split; [lia|]. exact Hall.
  - cbn [Json.uint_digits forallb] in *. eexists _, _. split; [reflexivity|].
    split; [lia|]. exact Hall.
  - cbn [Json.uint_digits forallb] in *. eexists _, _. split; [reflexivity|].
    split; [lia|]. exact Hall.
  - cbn [Json.uint_digits forallb] in *. eexists _, _. split; [reflexivity|].
    split; [lia|]. exact Hall.
  - cbn [Json.uint_digits forallb] in *. eexists _, _. split; [reflexivity|].
    split; [lia|]. exact Hall.
  - cbn [Json.uint_digits forallb] in *. eexists _, _. split; [reflexivity|].
    split; [lia|]. exact Hall.
  - cbn [Json.uint_digits forallb] in *. eexists _, _. split; [reflexivity|].
    split; [lia|]. exact Hall.
  - cbn [Json.uint_digits forallb] in *. eexists _, _. split; [reflexivity|].
    split; [lia|]. exact Hall.
Qed.

Lemma span_digits_stop (ds rest : pystr) (c : Z) :
  forallb Json.is_digit ds = true -> Json.is_digit c = false ->
  Json.span_digits (ds ++ c :: rest) = (ds, c :: rest).
Proof.
  intros Hds Hc. induction ds as [|d ds IH]; cbn [app Json.span_digits].
  - now rewrite Hc.
  - cbn [forallb] in Hds. apply andb_prop in Hds. destruct Hds as [Hd Hds].
    now rewrite Hd, IH.
Qed.

(** The value of a digit string after a number already read. *)
Lemma digits_value_shift (ds : pystr) (acc : Z) :
  fold_left (fun a c => 10 * a + (c - 48)) ds acc
  = acc * 10 ^ Z.of_nat (List.length ds) + Json.digits_value ds.
Proof.
  unfold Json.digits_value. revert acc.
  induction ds as [|c ds IH]; intros acc; cbn [fold_left List.length].
  - change (10 ^ Z.of_nat 0) with 1. lia.
  - rewrite IH, (IH (10 * 0 + (c - 48))).
    rewrite Nat2Z.inj_succ, Z.pow_succ_r by lia. ring.
Qed.

(** A string of [k] digits is worth less than [10 ^ k]. *)
Lemma digits_value_bounds (ds : pystr) :
  forallb Json.is_digit ds = true ->
  0 <= Json.digits_value ds < 10 ^ Z.of_nat (List.length ds).
Proof.
  induction ds as [|c ds IH]; intros Hds.
  - change (0 <= 0 < 1). lia.
  - cbn [forallb] in Hds. apply andb_prop in Hds. destruct Hds as [Hc Hds].
    specialize (IH Hds). unfold Json.is_digit in Hc.
    unfold Json.digits_value at 1 2. cbn [fold_left List.length].
    rewrite digits_value_shift, Nat2Z.inj_succ, Z.pow_succ_r by lia.
    set (P := 10 ^ Z.of_nat (List.length ds)) in *.
    assert (0 <= (c - 48) * P <= 9 * P) by nia.
    lia.
Qed.

(** And at least [10 ^ (k - 1)] when its first digit is not [0]. *)
Lemma digits_value_lower (d : Z) (tl : pystr) :
  49 <= d -> forallb Json.is_digit tl = true ->
  10 ^ Z.of_nat (List.length tl) <= Json.digits_value (d :: tl).
Proof.
  intros Hd Htl. pose proof (digits_value_bounds tl Htl) as Hb.
  unfold Json.digits_value at 1. cbn [fold_left].
  rewrite digits_value_shift.
  set (P := 10 ^ Z.of_nat (List.length tl)) in *. nia.
Qed.

(** A number that fits is printed with at most [int_max_str_digits]
    digits. *)
Lemma fits_digits_length (p : positive) :
  fits_str_digits (Zpos p) = true ->
  Z.of_nat (List.length (Json.uint_digits (Pos.to_uint p)))
  <= int_max_str_digits.
Proof.
  intros Hfit. apply fits_str_digits_spec in Hfit.
  rewrite int_str_limit_eq in Hfit. cbn [Z.abs] in Hfit.
  destruct (to_uint_digits_shape p) as (d & ds & E & Hd & Hds).
  pose proof (digits_value_to_uint p) as Hval. rewrite E in *.
  pose proof (digits_value_lower d ds ltac:(lia) Hds) as Hlow.
  rewrite Hval in Hlow.
  destruct (Z.le_gt_cases (Z.of_nat (List.length (d :: ds)))
              int_max_str_digits) as [Hle|Hgt]; [exact Hle|].
  exfalso. cbn [List.length] in Hgt. rewrite Nat2Z.inj_succ in Hgt.
  assert (10 ^ int_max_str_digits <= 10 ^ Z.of_nat (List.length ds))
    by (apply Z.pow_le_mono_r; lia).
  lia.
Qed.

(** A string of at most [int_max_str_digits] digits is worth a number that
    fits, with either sign. *)
Lemma digits_fit (negative : bool) (ds : pystr) :
  forallb Json.is_digit ds = true ->
  Z.of_nat (List.length ds) <= int_max_str_digits ->
  fits_str_digits (if negative then - Json.digits_value ds
                   else Json.digits_value ds) = true.
Proof.
  intros Hds Hlen. apply fits_str_digits_spec. rewrite int_str_limit_eq.
  pose proof (digits_value_bounds ds Hds) as [H0 H1].
  assert (10 ^ Z.of_nat (List.length ds) <= 10 ^ int_max_str_digits)
    by (apply Z.pow_le_mono_r; lia).
  destruct negative; lia.
Qed.

Lemma finish_number_int (negative : bool) (intpart rest : pystr) (c : Z) :
  ends_number c ->
  Z.of_nat (List.length intpart) <= int_max_str_digits ->
  Json.finish_number negative intpart (c :: rest) =
    Ok (JInt (if negative then - Json.digits_value intpart
              else Json.digits_value intpart), c :: rest).
Proof.
  intros (_ & H1 & H2 & H3) Hlen.
  unfold Json.finish_number, Json.scan_fraction, Json.scan_exponent.
  destruct (Z.eqb_spec c 46); [contradiction|].
  destruct (Z.eqb_spec c 101); [contradiction|].
  destruct (Z.eqb_spec c 69); [contradiction|]. cbn [orb].
  destruct (Z.gtb_spec (Z.of_nat (List.length intpart)) int_max_str_digits);
    [lia | reflexivity].
Qed.

(** The first character of a printed integer. *)
Lemma int_repr_head (n : Z) :
  exists c0 tl, Json.int_repr n = c0 :: tl /\ (c0 = 45 \/ 48 <= c0 <= 57).
Proof.
  destruct n as [|p|p]; cbn [Json.int_repr].
  - exists 48, []. split; [reflexivity | lia].
  - destruct (to_uint_digits_shape p) as (d & ds & -> & Hd & _).
    exists d, ds. split; [reflexivity | lia].
  - eexists _, _. split; [reflexivity | now left].
Qed.

Lemma scan_number_int_repr (n c : Z) (rest : pystr) :
  ends_number c -> fits_str_digits n = true ->
  Json.scan_number (Json.int_repr n ++ c :: rest)
  = Some (Ok (JInt n, c :: rest)).
Proof.
  intros Hc Hfit. pose proof Hc as (Hnd & _).
  destruct n as [|p|p]; cbn [Json.int_repr].
  - cbn [app]. unfold Json.scan_number.
    change (48 =? 45) with false. change (48 =? 48) with true. cbv iota.
    rewrite finish_number_int; [reflexivity | exact Hc|].
    unfold int_max_str_digits. cbn [List.length]. lia.
  - pose proof (fits_digits_length p Hfit) as Hlen.
    destruct (to_uint_digits_shape p) as (d & ds & E & Hd & Hds).
    pose proof (digits_value_to_uint p) as Hval. rewrite E in *.
    cbn [app]. unfold Json.scan_number.
    destruct (Z.eqb_spec d 45); [lia|].
    destruct (Z.eqb_spec d 48); [lia|].
    assert (Json.is_digit d = true) as -> by (unfold Json.is_digit; lia).
    rewrite span_digits_stop, finish_number_int by assumption.
    now rewrite Hval.
  - pose proof (fits_digits_length p Hfit) as Hlen.
    destruct (to_uint_digits_shape p) as (d & ds & E & Hd & Hds).
    pose proof (digits_value_to_uint p) as Hval. rewrite E in *.
    cbn [app]. unfold Json.scan_number.
    change (45 =? 45) with true. cbv iota.
    destruct (Z.eqb_spec d 48); [lia|].
    assert (Json.is_digit d = true) as -> by (unfold Json.is_digit; lia).
    rewrite span_digits_stop, finish_number_int by assumption.
    now rewrite Hval.
Qed.

(** [parse_value] on a printed integer, with any fuel and at any depth. *)
Lemma parse_value_int_repr (fuel depth : nat) (n c : Z) (rest : pystr) :
  ends_number c -> fits_str_digits n = true ->
  Json.parse_value (S fuel) depth (Json.int_repr n ++ c :: rest)
  = Ok (JInt n, c :: rest).
Proof.
  intros Hc Hfit. pose proof (scan_number_int_repr n c rest Hc Hfit) as Hnum.
  destruct (int_repr_head n) as (c0 & tl & E & Hc0). rewrite E in *.
  cbn [app] in *. cbn [Json.parse_value].
  destruct (Z.eqb_spec c0 34); [lia|].
  destruct (Z.eqb_spec c0 123); [lia|].
  destruct (Z.eqb_spec c0 91); [lia|].
  unfold Json.scan_scalar, Json.lit_null, Json.lit_true, Json.lit_false.
  cbn [Json.strip_prefix].
  destruct (Z.eqb_spec 110 c0); [lia|].
  destruct (Z.eqb_spec 116 c0); [lia|].
  destruct (Z.eqb_spec 102 c0); [lia|].
  now rewrite Hnum.
Qed.

Lemma skip_ws_int_repr (n : Z) (rest : pystr) :
  Json.skip_ws (Json.int_repr n ++ rest) = Json.int_repr n ++ rest.
Proof.
  destruct (int_repr_head n) as (c0 & tl & -> & Hc0).
  cbn [app Json.skip_ws]. unfold Json.is_ws.
  destruct (Z.eqb_spec c0 32); [lia|]. destruct (Z.eqb_spec c0 9); [lia|].
  destruct (Z.eqb_spec c0 10); [lia|]. destruct (Z.eqb_spec c0 13); [lia|].
  reflexivity.
Qed.

(** ** The text [dumps] writes *)

Lemma escape_char_out (c : Z) :
  code_point c = true -> Forall json_out_char (Json.escape_char c).
Proof.
  intros Hc. apply code_point_range in Hc. unfold Json.escape_char.
  repeat match goal with
         | |- context [if ?x =? ?y then _ else _] =>
             destruct (Z.eqb_spec x y);
             [repeat constructor; unfold json_out_char; lia|]
         end.
  destruct (Z.leb_spec 32 c); cbn [andb].
  - destruct (Z.leb_spec c 126);
      [repeat constructor; unfold json_out_char; lia|].
    destruct (Z.ltb_spec c 0x10000).
    + repeat (constructor; [unfold json_out_char; lia|]).
      apply hex4_out. lia.
    + destruct (surrogate_halves c ltac:(lia)) as (Hs1 & Hs2 & _).
      apply Forall_app. split;
        repeat (constructor; [unfold json_out_char; lia|]);
        apply hex4_out; lia.
  - destruct (Z.ltb_spec c 0x10000); [|lia].
    repeat (constructor; [unfold json_out_char; lia|]).
    apply hex4_out. lia.
Qed.

Lemma int_repr_out (n : Z) : Forall json_out_char (Json.int_repr n).
Proof.
  assert (H : forall u, Forall json_out_char (Json.uint_digits u)).
  { induction u; cbn [Json.uint_digits]; constructor; auto;
      unfold json_out_char; lia. }
  destruct n; cbn [Json.int_repr]; auto.
  - constructor; [unfold json_out_char; lia | constructor].
  - constructor; [unfold json_out_char; lia | apply H].
Qed.

Lemma dump_member_out (kv : pystr * Z) :
  forallb code_point (fst kv) = true ->
  Forall json_out_char (Json.dump_member kv).
Proof.
  intros Hk. unfold Json.dump_member, Json.encode_string.
  cbn [app]. constructor; [unfold json_out_char; lia|].
  apply Forall_app. split; [apply Forall_app; split|].
  - apply Forall_flat_map. rewrite forallb_forall in Hk.
    apply Forall_forall. intros c Hin. apply escape_char_out. now apply Hk.
  - constructor; [unfold json_out_char; lia | constructor].
  - repeat (constructor; [unfold json_out_char; lia|]). apply int_repr_out.
Qed.

Lemma dumps_out (d : dict Z) :
  Forall (fun kv => forallb code_point (fst kv) = true) d ->
  Forall json_out_char (Json.dumps d).
Proof.
  assert (Hlit : forall l, forallb (fun c => (c =? 10) || ((32 <=? c) && (c <=? 126))) l = true ->
                          Forall json_out_char l).
  { intros l Hl. apply Forall_forall. intros c Hin.
    rewrite forallb_forall in Hl. specialize (Hl c Hin).
    unfold json_out_char. lia. }
  intros Hd. destruct Hd as [|first more Hfirst Hmore]; cbn [Json.dumps].
  - now apply Hlit.
  - apply Forall_app. split; [now apply Hlit|].
    apply Forall_app. split; [now apply Hlit|].
    apply Forall_app. split; [now apply dump_member_out|].
    apply Forall_app. split; [|apply Forall_app; split; now apply Hlit].
    apply Forall_flat_map. revert Hmore. apply Forall_impl. intros kv Hkv.
    apply Forall_app. split; [now apply Hlit|].
    apply Forall_app. split; [now apply Hlit|].
    now apply dump_member_out.
Qed.

(** ** Reading back what [dumps] wrote *)

Lemma member_texts_cons (k : pystr) (v : Z) (more : dict Z) (tl : pystr) :
  member_texts ((k, v) :: more) ++ tl =
    44 :: 10 :: 32 :: 32 :: 32 :: 32 :: 34 ::
      (flat_map Json.escape_char k
       ++ 34 :: 58 :: 32 :: (Json.int_repr v ++ member_texts more ++ tl)).
Proof.
  unfold member_texts. cbn [flat_map].
  unfold Json.dump_member, Json.encode_string, Json.newline_indent.
  cbn [fst snd app]. repeat rewrite <- app_assoc. cbn [app].
  repeat rewrite <- app_assoc. reflexivity.
Qed.

Lemma member_texts_length (more : dict Z) :
  (List.length more <= List.length (member_texts more))%nat.
Proof.
  induction more as [|kv more IH]; [apply Nat.le_refl|].
  change (member_texts (kv :: more))
    with (([44] ++ Json.newline_indent ++ Json.dump_member kv)
          ++ member_texts more).
  rewrite length_app. cbn [List.length app]. lia.
Qed.

Lemma dict_of_pairs_acc {V} (l d0 : dict V) :
  NoDup (dict_keys (d0 ++ l)) ->
  fold_left (fun d kv => dict_setitem d (fst kv) (snd kv)) l d0 = d0 ++ l.
Proof.
  revert d0. induction l as [|[k v] l IH]; intros d0 Hnd; cbn [fold_left].
  - now rewrite app_nil_r.
  - cbn [fst snd]. rewrite dict_setitem_absent.
    + rewrite IH; rewrite <- app_assoc; [reflexivity | exact Hnd].
    + apply dict_lookup_none_iff. unfold dict_keys in *.
      rewrite map_app in Hnd. cbn [map fst] in Hnd.
      apply NoDup_remove_2 in Hnd. intros Hin. apply Hnd.
      apply in_or_app. now left.
Qed.

Lemma dict_of_pairs_wf {V} (l : dict V) : dict_wf l -> dict_of_pairs l = l.
Proof. intros Hwf. unfold dict_of_pairs. now rewrite dict_of_pairs_acc. Qed.

Lemma ends_number_comma : ends_number 44.
Proof. repeat split; discriminate. Qed.

Lemma ends_number_newline : ends_number 10.
Proof. repeat split; discriminate. Qed.

(** Decides the tests on literal characters that scanning has reached. *)
Ltac literal_tests :=
  repeat match goal with
         | |- context [Json.is_ws ?c] =>
             let b := eval vm_compute in (Json.is_ws c) in
             lazymatch b with
             | true => change (Json.is_ws c) with true
             | false => change (Json.is_ws c) with false
             end
         | |- context [Z.eqb ?a ?c] =>
             let b := eval vm_compute in (Z.eqb a c) in
             lazymatch b with
             | true => change (Z.eqb a c) with true
             | false => change (Z.eqb a c) with false
             end
         end.

Ltac scan_literals :=
  repeat (progress (cbn [Json.skip_ws]; literal_tests; cbv iota)).

(** [parse_members] reads a member and those after it, up to the closing
    brace, when one unit of fuel per member and one more are left; the
    values are integers, which take no level of nesting. *)
Lemma parse_members_dump (more : dict Z) :
  forall (fuel depth : nat) (k : pystr) (v : Z) (acc : list (pystr * json))
         (rest : pystr),
    (List.length more + 2 <= fuel)%nat ->
    str_round_trips k = true ->
    Forall (fun kv => str_round_trips (fst kv) = true) more ->
    fits_str_digits v = true -> quantities_fit more ->
    Json.parse_members fuel depth
      (flat_map Json.escape_char k
       ++ 34 :: 58 :: 32 ::
          (Json.int_repr v ++ member_texts more ++ 10 :: 125 :: rest))
      acc
    = Ok (JObj (dict_of_pairs
                  (List.rev acc
                   ++ (k, JInt v)
                      :: map (fun kv => (fst kv, JInt (snd kv))) more)),
          rest).
Proof.
  induction more as [|[k2 v2] more IH];
    intros fuel depth k v acc rest Hfuel Hk Hmore Hv Hfits.
  - destruct fuel as [|fuel]; [cbn in Hfuel; lia|].
    cbn [Json.parse_members]. rewrite scan_string_escape by assumption.
    destruct fuel as [|fuel]; [cbn in Hfuel; lia|].
    scan_literals. rewrite skip_ws_int_repr.
    unfold member_texts. cbn [flat_map app].
    rewrite parse_value_int_repr by (apply ends_number_newline || exact Hv).
    scan_literals. cbn [List.rev map]. reflexivity.
  - destruct fuel as [|fuel]; [cbn in Hfuel; lia|].
    inversion Hmore as [|? ? Hk2 Hmore']; subst.
    inversion Hfits as [|? ? Hv2 Hfits']; subst. cbn [snd] in Hv2.
    cbn [Json.parse_members]. rewrite scan_string_escape by assumption.
    destruct fuel as [|fuel]; [cbn in Hfuel; lia|].
    scan_literals. rewrite skip_ws_int_repr, member_texts_cons.
    rewrite parse_value_int_repr by (apply ends_number_comma || exact Hv).
    scan_literals.
    rewrite IH;
      [|cbn [List.length] in Hfuel; lia | exact Hk2 | exact Hmore'
       | exact Hv2 | exact Hfits'].
    cbn [List.rev map fst snd]. now rewrite <- app_assoc.
Qed.

(** The text of a non-empty ledger, character by character up to the first
    key. *)
Lemma dumps_cons (k : pystr) (v : Z) (more : dict Z) :
  Json.dumps ((k, v) :: more) =
    123 :: 10 :: 32 :: 32 :: 32 :: 32 :: 34 ::
      (flat_map Json.escape_char k
       ++ 34 :: 58 :: 32 ::
          (Json.int_repr v ++ member_texts more ++ 10 :: 125 :: [])).
Proof.
  unfold Json.dumps, Json.dump_member, Json.encode_string, Json.newline_indent.
  fold (member_texts more). cbn [fst snd app].
  repeat rewrite <- app_assoc. cbn [app]. repeat rewrite <- app_assoc.
  reflexivity.
Qed.

(** The pieces of members that all fit make up their whole text. *)
Lemma dump_items_fit (items : dict Z) (sep : pystr) :
  quantities_fit items ->
  Json.dump_items sep items =
    (match items with
     | [] => []
     | first :: more => sep ++ Json.dump_member first ++ member_texts more
     end, true).
Proof.
  revert sep. induction items as [|[k v] more IH]; intros sep Hfits;
    [reflexivity|].
  inversion Hfits as [|? ? Hv Hmore]; subst. cbn [snd] in Hv.
  cbn [Json.dump_items]. unfold Json.int_str. rewrite Hv.
  rewrite (IH Json.item_separator Hmore).
  unfold Json.dump_member, Json.key_separator. cbn [fst snd].
  destruct more as [|[k2 v2] more'].
  - cbn [member_texts flat_map]. now rewrite !app_nil_r.
  - change (member_texts ((k2, v2) :: more'))
      with (([44] ++ Json.newline_indent ++ Json.dump_member (k2, v2))
            ++ member_texts more').
    unfold Json.dump_member, Json.item_separator. cbn [fst snd].
    f_equal. rewrite <- !app_assoc. reflexivity.
Qed.

(** [json.dump] on a ledger whose quantities all fit returns, having
    written the whole text. *)
Lemma dump_fits (d : dict Z) :
  quantities_fit d -> Json.dump d = (Json.dumps d, true).
Proof.
  intros Hfits. destruct d as [|first more]; [reflexivity|].
  unfold Json.dump. rewrite (dump_items_fit _ _ Hfits).
  unfold Json.dumps. fold (member_texts more). cbn [app].
  repeat rewrite <- app_assoc. reflexivity.
Qed.

(** The pieces up to a quantity that does not fit: the members before it in
    full, then its key and the key separator, and the encoder stops. *)
Lemma dump_items_stops (before after : dict Z) (k : pystr) (v : Z)
    (sep : pystr) :
  quantities_fit before -> fits_str_digits v = false ->
  Json.dump_items sep (before ++ (k, v) :: after) =
    (sep ++ members_before before ++ Json.encode_string k
     ++ Json.key_separator, false).
Proof.
  revert sep. induction before as [|[k1 v1] more IH]; intros sep Hfits Hv.
  - cbn [app Json.dump_items members_before flat_map]. unfold Json.int_str.
    now rewrite Hv.
  - inversion Hfits as [|? ? Hv1 Hmore]; subst. cbn [snd] in Hv1.
    cbn [app Json.dump_items]. unfold Json.int_str. rewrite Hv1.
    rewrite (IH Json.item_separator Hmore Hv).
    unfold members_before. cbn [flat_map]. unfold Json.dump_member.
    cbn [fst snd]. unfold Json.key_separator. f_equal.
    rewrite <- !app_assoc. reflexivity.
Qed.

Lemma dump_stops (before after : dict Z) (k : pystr) (v : Z) :
  quantities_fit before -> fits_str_digits v = false ->
  Json.dump (before ++ (k, v) :: after) = (cut_text before k, false).
Proof.
  intros Hfits Hv. unfold Json.dump.
  destruct (before ++ (k, v) :: after) as [|x l] eqn:E;
    [destruct before; discriminate|].
  rewrite <- E, (dump_items_stops before after k v [] Hfits Hv).
  reflexivity.
Qed.

(** [json.loads] of the text [json.dump] wrote gives the ledger back: same
    keys in the same order, same integers.  The object takes one level of
    nesting. *)
Lemma loads_dumps (d : dict Z) (depth : nat) :
  dict_wf d ->
  Forall (fun kv => str_round_trips (fst kv) = true) d ->
  quantities_fit d ->
  Json.loads (S depth) (Json.dumps d) = Ok (json_of_stock d).
Proof.
  intros Hwf Hkeys Hfits. destruct d as [|[k v] more]; [reflexivity|].
  inversion Hkeys as [|? ? Hk Hmore]; subst. cbn [fst] in Hk.
  inversion Hfits as [|? ? Hv Hfits']; subst. cbn [snd] in Hv.
  unfold Json.loads. rewrite dumps_cons.
  set (tail := flat_map Json.escape_char k
               ++ 34 :: 58 :: 32 ::
                  (Json.int_repr v ++ member_texts more ++ [10; 125])).
  set (text := 123 :: 10 :: 32 :: 32 :: 32 :: 32 :: 34 :: tail).
  set (fuel := (2 * List.length text)%nat).
  assert (Hlen : (List.length more + 2 <= fuel)%nat).
  { subst fuel text tail. cbn [List.length]. rewrite !length_app. cbn [List.length].
    rewrite !length_app. pose proof (member_texts_length more). lia. }
  clearbody fuel. subst text.
  scan_literals. cbn [Json.parse_value]. scan_literals.
  subst tail.
  rewrite (parse_members_dump more fuel depth k v [] []) by assumption.
  cbn [Json.skip_ws List.rev app]. unfold json_of_stock. cbn [map fst snd].
  rewrite dict_of_pairs_wf; [reflexivity|].
  unfold dict_wf, dict_keys in *. cbn [map fst] in *.
  rewrite map_map. cbn [fst]. exact Hwf.
Qed.

(** ** Saving and loading (C6, C7) *)

Ltac run_io :=
  unfold load_data, save_data, json_load, json_dump, file_read, file_write,
    open_read, open_write, put_disk, try_except, logging_info,
    logging_warning, logging_error, logging_log, get_stock, bind, ret, raise;
  cbn [dispatch isinstance_exn fst snd stock_data logs sink disk clock
       recursion_room IOError].

Lemma code_points_of_round_trips (d : dict Z) :
  Forall (fun kv => str_round_trips (fst kv) = true) d ->
  Forall (fun kv => forallb code_point (fst kv) = true) d.
Proof.
  apply Forall_impl. intros kv H. unfold str_round_trips in H.
  now apply andb_prop in H.
Qed.

(** What [save_data] leaves on a path it can open, when every quantity can
    be written: the bytes of the text of the ledger, and everything else as
    it was. *)
Lemma save_data_writes (st : store) (file_path : pystr) :
  Forall (fun kv => forallb code_point (fst kv) = true) (stock_data st) ->
  quantities_fit (stock_data st) ->
  fs_path_error file_path = None ->
  opens_for_write_and_read (disk st file_path) = true ->
  save_data file_path st =
    (Ok tt,
     mkStore (stock_data st) (logs st) (sink st)
       (fun p =>
          if pystr_eqb p file_path
          then File true true
                 ([] ++ map Utf8.byte_of (Json.dumps (stock_data st)))
          else if pystr_eqb p file_path then File true true []
          else disk st p)
       (clock st) (recursion_room st)).
Proof.
  intros Hkeys Hfits Hpath Hopen.
  pose proof (utf8_encode_ascii _ (json_out_char_ascii _ (dumps_out _ Hkeys)))
    as Henc.
  run_io. rewrite Hpath.
  destruct (disk st file_path) as [[|]| |[|] [|] content|why];
    try discriminate Hopen;
    cbn [stock_data logs sink disk clock recursion_room];
    rewrite (dump_fits _ Hfits); cbn [fst snd];
    rewrite Henc, pystr_eqb_refl; reflexivity.
Qed.

(** [load_data] on a readable file whose bytes decode to a JSON text that
    the decoder has room for. *)
Lemma load_data_reads (st : store) (file_path : pystr) (w : bool)
    (content : list byte) (text : pystr) (v : json) :
  fs_path_error file_path = None ->
  disk st file_path = File true w content ->
  Utf8.decode content = Some text ->
  Json.loads (recursion_room st) (universal_newlines text) = Ok v ->
  load_data file_path st = (Ok v, st).
Proof.
  intros Hpath Hfile Hdec Hloads. run_io. rewrite Hpath, Hfile, Hdec.
  cbn [fst snd]. now rewrite Hloads.
Qed.

(** C6, as stated, fails: the item name made of the two code points U+D83D
    and U+DE00 is written as two [\u] escapes, which [json.load] reads back
    as the single code point U+1F600.  The path is writable, the quantity is
    positive, and both calls complete. *)
Lemma save_then_load_joins_surrogates :
  fst (save_data default_file_path
         (mkStore [([0xD83D; 0xDE00], 1)] None [] (fun _ => Missing true) 0
            990))
  = Ok tt /\
  fst (load_data default_file_path
         (snd (save_data default_file_path
                 (mkStore [([0xD83D; 0xDE00], 1)] None []
                    (fun _ => Missing true) 0 990))))
  = Ok (JObj [([0x1F600], JInt 1)]) /\
  JObj [([0x1F600], JInt 1)] <> json_of_stock [([0xD83D; 0xDE00], 1)].
Proof.
  split; [vm_compute; reflexivity|]. split; [vm_compute; reflexivity|].
  vm_compute. discriminate.
Qed.

(** C6 (amended): for every ledger (a mapping, so without repeated keys)
    whose item names are sequences of code points in which no high surrogate is
    directly followed by a low surrogate, whose quantities are integers of at
    most 4300 digits, and every path that can be opened for writing and then
    for reading, where the decoder has room for one level of nesting:
    [save_data] completes, leaves the ledger as it was, and [load_data] from
    the same path then returns an equal mapping, the same keys in the same
    order with the same integers. *)
Theorem save_then_load_round_trip (st : store) (file_path : pystr) :
  dict_wf (stock_data st) ->
  Forall (fun kv => str_round_trips (fst kv) = true) (stock_data st) ->
  quantities_fit (stock_data st) ->
  fs_path_error file_path = None ->
  opens_for_write_and_read (disk st file_path) = true ->
  (0 < recursion_room st)%nat ->
  exists st1,
    save_data file_path st = (Ok tt, st1) /\
    stock_data st1 = stock_data st /\
    load_data file_path st1 = (Ok (json_of_stock (stock_data st)), st1).
Proof.
  intros Hwf Hkeys Hfits Hpath Hopen Hroom.
  pose proof (code_points_of_round_trips _ Hkeys) as Hcp.
  pose proof (dumps_out _ Hcp) as Hout.
  rewrite (save_data_writes st file_path Hcp Hfits Hpath Hopen).
  eexists. split; [reflexivity|]. split; [reflexivity|].
  eapply load_data_reads.
  - exact Hpath.
  - cbn [disk]. rewrite pystr_eqb_refl. reflexivity.
  - cbn [app]. apply utf8_decode_ascii, json_out_char_ascii, Hout.
  - rewrite universal_newlines_no_cr by apply json_out_char_no_cr, Hout.
    cbn [recursion_room].
    destruct (recursion_room st) as [|depth]; [inversion Hroom|].
    now apply loads_dumps.
Qed.

Lemma save_then_load_round_trip_witness :
  exists st1,
    save_data default_file_path
      (mkStore [(str "apple", 7); (str "banana", 18)] None []
         (fun _ => Missing true) 0 990)
    = (Ok tt, st1) /\
    stock_data st1 = [(str "apple", 7); (str "banana", 18)] /\
    load_data default_file_path st1
    = (Ok (json_of_stock [(str "apple", 7); (str "banana", 18)]), st1).
Proof.
  apply (save_then_load_round_trip
           (mkStore [(str "apple", 7); (str "banana", 18)] None []
              (fun _ => Missing true) 0 990)
           default_file_path).
  - unfold dict_wf. vm_compute.
    repeat constructor; simpl; intros H;
      repeat (destruct H as [H|H]; try discriminate H); exact H.
  - repeat constructor.
  - repeat constructor.
  - reflexivity.
  - reflexivity.
  - cbn [recursion_room]. apply Nat.lt_0_succ.
Defined.

(** C7 fails on the code: a file that is not valid UTF-8 makes [load_data]
    raise [UnicodeDecodeError], which none of its three [except] clauses
    catches; no empty ledger is returned and nothing is logged. *)
Theorem load_data_undecodable_file_raises :
  fst (load_data default_file_path
         (mkStore [] None [] (fun _ => File true true latin1_inventory) 0 990))
  = Raise UnicodeDecodeError /\
  sink (snd (load_data default_file_path
               (mkStore [] None [] (fun _ => File true true latin1_inventory)
                  0 990)))
  = [].
Proof. split; vm_compute; reflexivity. Qed.

(** The failures [load_data] does recover from: a path that names nothing
    or cannot be followed, a path that cannot be opened for reading, and a
    file that decodes as UTF-8 to a text that is not JSON.  Each returns the
    empty ledger and adds one record to the log. *)
Lemma load_data_recovers (st : store) (file_path : pystr) :
  fs_path_error file_path = None ->
  (match disk st file_path with
   | Missing _ | Directory | File false _ _ | Unreachable _ => True
   | File true _ content =>
       exists text,
         Utf8.decode content = Some text /\
         Json.loads (recursion_room st) (universal_newlines text)
         = Raise JSONDecodeError
   end) ->
  exists record,
    load_data file_path st =
      (Ok (JObj []),
       mkStore (stock_data st) (logs st) (sink st ++ [record]) (disk st)
               (clock st) (recursion_room st)).
Proof.
  intros Hpath H. run_io. rewrite Hpath.
  destruct (disk st file_path) as [ok| |[|] w content|why].
  - eexists. reflexivity.
  - eexists. reflexivity.
  - destruct H as (text & -> & Hloads). cbn [fst snd]. rewrite Hloads.
    eexists. reflexivity.
  - eexists. reflexivity.
  - destruct why; eexists; reflexivity.
Qed.

(** ** The fuel of the decoder is enough *)

(** Each scanner gives back a suffix of its input, and the ones that read a
    value or a string a strictly shorter one. *)
Lemma skip_ws_length (s : pystr) :
  (List.length (Json.skip_ws s) <= List.length s)%nat.
Proof.
  induction s as [|c s IH]; cbn [Json.skip_ws List.length]; [lia|].
  destruct (Json.is_ws c); cbn [List.length]; lia.
Qed.

Lemma skip_ws_cons_length (s r : pystr) (c : Z) :
  Json.skip_ws s = c :: r -> (S (List.length r) <= List.length s)%nat.
Proof.
  intros H. pose proof (skip_ws_length s) as Hl. rewrite H in Hl.
  exact Hl.
Qed.

Lemma scan_chunks_length (n : nat) :
  forall s cs rest,
    (List.length s <= n)%nat ->
    Json.scan_chunks s = Some (cs, rest) ->
    (List.length rest < List.length s)%nat.
Proof.
  induction n as [|n IH]; intros s cs rest Hn Hs.
  - destruct s; [discriminate | cbn in Hn; lia].
  - destruct s as [|c r]; [discriminate|]. cbn [Json.scan_chunks] in Hs.
    cbn [List.length] in *.
    destruct (c =? 34); [injection Hs as _ <-; lia|].
    destruct (c =? 92).
    + destruct r as [|e r1]; [discriminate|]. cbn [List.length] in *.
      destruct (e =? 117).
      * destruct r1 as [|h1 [|h2 [|h3 [|h4 r2]]]]; try discriminate.
        cbn [List.length] in *.
        destruct (Json.hex4_value h1 h2 h3 h4); [|discriminate].
        destruct (Json.scan_chunks r2) as [[cs' rest']|] eqn:E; [|discriminate].
        injection Hs as _ <-. apply IH in E; lia.
      * destruct (Json.simple_escape e); [|discriminate].
        destruct (Json.scan_chunks r1) as [[cs' rest']|] eqn:E; [|discriminate].
        injection Hs as _ <-. apply IH in E; lia.
    + destruct (c <? 32); [discriminate|].
      destruct (Json.scan_chunks r) as [[cs' rest']|] eqn:E; [|discriminate].
      injection Hs as _ <-. apply IH in E; lia.
Qed.

Lemma scan_string_length (s key rest : pystr) :
  Json.scan_string s = Some (key, rest) ->
  (List.length rest < List.length s)%nat.
Proof.
  unfold Json.scan_string.
  destruct (Json.scan_chunks s) as [[cs rest']|] eqn:E; [|discriminate].
  intros [= _ <-]. eapply scan_chunks_length; [apply Nat.le_refl | exact E].
Qed.

Lemma span_digits_length (s ds rest : pystr) :
  Json.span_digits s = (ds, rest) ->
  (List.length rest <= List.length s)%nat.
Proof.
  revert ds rest. induction s as [|c s IH]; intros ds rest;
    cbn [Json.span_digits].
  - intros [= _ <-]. apply Nat.le_refl.
  - destruct (Json.is_digit c).
    + destruct (Json.span_digits s) as [ds' rest'] eqn:E.
      intros [= _ <-]. specialize (IH _ _ eq_refl). cbn [List.length]. lia.
    + intros [= _ <-]. apply Nat.le_refl.
Qed.

Lemma scan_fraction_length (s frac rest : pystr) :
  Json.scan_fraction s = (frac, rest) ->
  (List.length rest <= List.length s)%nat.
Proof.
  unfold Json.scan_fraction. destruct s as [|c r]; [intros [= _ <-]; lia|].
  destruct (c =? 46); [|intros [= _ <-]; lia].
  destruct (Json.span_digits r) as [ds rest'] eqn:E.
  apply span_digits_length in E. cbn [List.length].
  destruct ds; intros [= _ <-]; cbn [List.length]; lia.
Qed.

Lemma scan_exponent_length (s expo rest : pystr) :
  Json.scan_exponent s = (expo, rest) ->
  (List.length rest <= List.length s)%nat.
Proof.
  unfold Json.scan_exponent. destruct s as [|e r]; [intros [= _ <-]; lia|].
  destruct ((e =? 101) || (e =? 69)); [|intros [= _ <-]; lia].
  assert (H : forall sign r1,
             (List.length r1 <= List.length r)%nat ->
             (let (ds, rest0) := Json.span_digits r1 in
              match ds with
              | [] => ([], e :: r)
              | _ :: _ => (e :: sign ++ ds, rest0)
              end) = (expo, rest) ->
             (List.length rest <= List.length (e :: r))%nat).
  { intros sign r1 Hr1. destruct (Json.span_digits r1) as [ds rest'] eqn:E.
    apply span_digits_length in E. cbn [List.length].
    destruct ds; intros [= _ <-]; cbn [List.length]; lia. }
  destruct r as [|c r']; [intros Hg; apply (H [] []); [lia | exact Hg]|].
  destruct ((c =? 45) || (c =? 43)); intros Hg.
  - apply (H [c] r'); [cbn [List.length]; lia | exact Hg].
  - apply (H [] (c :: r')); [lia | exact Hg].
Qed.

Lemma finish_number_length (negative : bool) (intpart s rest : pystr)
    (v : json) :
  Json.finish_number negative intpart s = Ok (v, rest) ->
  (List.length rest <= List.length s)%nat.
Proof.
  unfold Json.finish_number.
  destruct (Json.scan_fraction s) as [frac rest1] eqn:E1.
  destruct (Json.scan_exponent rest1) as [expo rest2] eqn:E2.
  apply scan_fraction_length in E1. apply scan_exponent_length in E2.
  destruct frac, expo;
    try destruct (Z.of_nat (List.length intpart) >? int_max_str_digits);
    try discriminate; intros [= _ <-]; lia.
Qed.

Lemma scan_number_length (s rest : pystr) (v : json) :
  Json.scan_number s = Some (Ok (v, rest)) ->
  (List.length rest < List.length s)%nat.
Proof.
  unfold Json.scan_number.
  assert (H : forall negative s1,
             (List.length s1 <= List.length s)%nat ->
             match s1 with
             | [] => None
             | d :: r =>
                 if d =? 48 then Some (Json.finish_number negative [48] r)
                 else if Json.is_digit d then
                   let (ds, r') := Json.span_digits r in
                   Some (Json.finish_number negative (d :: ds) r')
                 else None
             end = Some (Ok (v, rest)) ->
             (List.length rest < List.length s)%nat).
  { intros negative [|d r] Hl; [discriminate|]. cbn [List.length] in Hl.
    destruct (d =? 48).
    - intros [= E]. apply finish_number_length in E. lia.
    - destruct (Json.is_digit d); [|discriminate].
      destruct (Json.span_digits r) as [ds r'] eqn:Es.
      apply span_digits_length in Es.
      intros [= E]. apply finish_number_length in E. lia. }
  destruct s as [|c r]; [discriminate|].
  destruct (c =? 45); intros Hg.
  - apply (H true r); [cbn [List.length]; lia | exact Hg].
  - apply (H false (c :: r)); [lia | exact Hg].
Qed.

Lemma strip_prefix_length (p s rest : pystr) :
  Json.strip_prefix p s = Some rest ->
  (List.length rest + List.length p = List.length s)%nat.
Proof.
  revert s. induction p as [|a p IH]; intros s; cbn [Json.strip_prefix].
  - intros [= <-]. cbn [List.length]. lia.
  - destruct s as [|b s]; [discriminate|].
    destruct (a =? b); [|discriminate].
    intros H. apply IH in H. cbn [List.length]. lia.
Qed.

Lemma scan_scalar_length (s rest : pystr) (v : json) :
  Json.scan_scalar s = Ok (v, rest) ->
  (List.length rest < List.length s)%nat.
Proof.
  unfold Json.scan_scalar, Json.lit_null, Json.lit_true, Json.lit_false,
    Json.lit_NaN, Json.lit_Infinity, Json.lit_minus_Infinity.
  repeat match goal with
         | |- context [Json.strip_prefix ?p s] =>
             let E := fresh "E" in
             destruct (Json.strip_prefix p s) eqn:E;
             [apply strip_prefix_length in E; cbn [List.length] in E;
              intros [= _ <-]; lia|]
         | |- context [Json.scan_number s] =>
             let E := fresh "E" in
             destruct (Json.scan_number s) as [[[v' rest']|e]|] eqn:E;
             [apply scan_number_length in E; intros [= _ <-]; lia
             |discriminate|]
         end.
  discriminate.
Qed.

(** What the descent reads is not empty. *)
Lemma parse_length (fuel : nat) :
  forall depth s v rest,
    (Json.parse_value fuel depth s = Ok (v, rest) ->
     (List.length rest < List.length s)%nat) /\
    (forall acc, Json.parse_elements fuel depth s acc = Ok (v, rest) ->
                 (List.length rest < List.length s)%nat) /\
    (forall acc, Json.parse_members fuel depth s acc = Ok (v, rest) ->
                 (List.length rest < List.length s)%nat).
Proof.
  induction fuel as [|fuel IH]; intros depth s v rest;
    [repeat split; try intros acc; discriminate|].
  assert (IHv : forall depth s v rest,
             Json.parse_value fuel depth s = Ok (v, rest) ->
             (List.length rest < List.length s)%nat)
    by (intros d0 s0 v0 rest0; now apply (IH d0 s0 v0 rest0)).
  assert (IHe : forall depth s v rest acc,
             Json.parse_elements fuel depth s acc = Ok (v, rest) ->
             (List.length rest < List.length s)%nat)
    by (intros d0 s0 v0 rest0 acc0; now apply (IH d0 s0 v0 rest0)).
  assert (IHm : forall depth s v rest acc,
             Json.parse_members fuel depth s acc = Ok (v, rest) ->
             (List.length rest < List.length s)%nat)
    by (intros d0 s0 v0 rest0 acc0; now apply (IH d0 s0 v0 rest0)).
  clear IH. split; [|split].
  - cbn [Json.parse_value]. destruct s as [|c r]; [discriminate|].
    cbn [List.length].
    destruct (c =? 34).
    { destruct (Json.scan_string r) as [[k rest']|] eqn:E; [|discriminate].
      apply scan_string_length in E. intros [= _ <-]. lia. }
    destruct (c =? 123).
    { destruct depth as [|depth]; [discriminate|].
      destruct (Json.skip_ws r) as [|c1 r1] eqn:E; [discriminate|].
      apply skip_ws_cons_length in E.
      destruct (c1 =? 125); [intros [= _ <-]; lia|].
      destruct (c1 =? 34); [|discriminate].
      intros H. apply IHm in H. lia. }
    destruct (c =? 91).
    { destruct depth as [|depth]; [discriminate|].
      destruct (Json.skip_ws r) as [|c1 r1] eqn:E; [discriminate|].
      apply skip_ws_cons_length in E.
      destruct (c1 =? 93); [intros [= _ <-]; lia|].
      intros H. apply IHe in H. cbn [List.length] in H. lia. }
    intros H. apply scan_scalar_length in H. cbn [List.length] in H. exact H.
  - intros acc. cbn [Json.parse_elements].
    destruct (Json.parse_value fuel depth s) as [[v' rest']|e] eqn:E;
      [|discriminate].
    apply IHv in E.
    destruct (Json.skip_ws rest') as [|c r] eqn:Ew; [discriminate|].
    apply skip_ws_cons_length in Ew.
    destruct (c =? 93); [intros [= _ <-]; lia|].
    destruct (c =? 44); [|discriminate].
    intros H. apply IHe in H. pose proof (skip_ws_length r). lia.
  - intros acc. cbn [Json.parse_members].
    destruct (Json.scan_string s) as [[key rest']|] eqn:E; [|discriminate].
    apply scan_string_length in E.
    destruct (Json.skip_ws rest') as [|c r] eqn:Ew; [discriminate|].
    apply skip_ws_cons_length in Ew.
    destruct (c =? 58); [|discriminate].
    destruct (Json.parse_value fuel depth (Json.skip_ws r))
      as [[v' rest'']|e] eqn:Ev; [|discriminate].
    apply IHv in Ev. pose proof (skip_ws_length r).
    destruct (Json.skip_ws rest'') as [|c' r'] eqn:Ew'; [discriminate|].
    apply skip_ws_cons_length in Ew'.
    destruct (c' =? 125); [intros [= _ <-]; lia|].
    destruct (c' =? 44); [|discriminate].
    destruct (Json.skip_ws r') as [|c'' r''] eqn:Ew''; [discriminate|].
    apply skip_ws_cons_length in Ew''.
    destruct (c'' =? 34); [|discriminate].
    intros Hm. apply IHm in Hm. lia.
Qed.

(** More fuel than two units for each character changes nothing: with that
    much the descent never stops for want of fuel. *)
Lemma parse_fuel_stable (f1 : nat) :
  forall (f2 depth : nat) (s : pystr),
    (f1 <= f2)%nat ->
    ((2 * List.length s + 1 <= f1)%nat ->
     Json.parse_value f1 depth s = Json.parse_value f2 depth s) /\
    (forall acc,
       (2 * List.length s + 2 <= f1)%nat ->
       Json.parse_elements f1 depth s acc
       = Json.parse_elements f2 depth s acc) /\
    (forall acc,
       (2 * List.length s + 2 <= f1)%nat ->
       Json.parse_members f1 depth s acc = Json.parse_members f2 depth s acc).
Proof.
  induction f1 as [|f1 IH]; intros f2 depth s Hle;
    [repeat split; intros; lia|].
  destruct f2 as [|f2]; [lia|].
  assert (Hle' : (f1 <= f2)%nat) by lia.
  assert (IHv : forall depth s, (2 * List.length s + 1 <= f1)%nat ->
                  Json.parse_value f1 depth s = Json.parse_value f2 depth s)
    by (intros d0 s0; now apply (IH f2 d0 s0 Hle')).
  assert (IHe : forall depth s acc, (2 * List.length s + 2 <= f1)%nat ->
                  Json.parse_elements f1 depth s acc
                  = Json.parse_elements f2 depth s acc)
    by (intros d0 s0 acc0; now apply (IH f2 d0 s0 Hle')).
  assert (IHm : forall depth s acc, (2 * List.length s + 2 <= f1)%nat ->
                  Json.parse_members f1 depth s acc
                  = Json.parse_members f2 depth s acc)
    by (intros d0 s0 acc0; now apply (IH f2 d0 s0 Hle')).
  clear IH. split; [|split].
  - intros Hb. destruct s as [|c r]; [reflexivity|].
    cbn [List.length] in Hb. cbn [Json.parse_value].
    destruct (c =? 34); [reflexivity|].
    destruct (c =? 123).
    { destruct depth as [|depth]; [reflexivity|].
      destruct (Json.skip_ws r) as [|c1 r1] eqn:E; [reflexivity|].
      apply skip_ws_cons_length in E.
      destruct (c1 =? 125); [reflexivity|].
      destruct (c1 =? 34); [|reflexivity]. apply IHm. lia. }
    destruct (c =? 91); [|reflexivity].
    destruct depth as [|depth]; [reflexivity|].
    destruct (Json.skip_ws r) as [|c1 r1] eqn:E; [reflexivity|].
    apply skip_ws_cons_length in E.
    destruct (c1 =? 93); [reflexivity|]. apply IHe. cbn [List.length]. lia.
  - intros acc Hb. cbn [Json.parse_elements].
    rewrite <- IHv by lia.
    destruct (Json.parse_value f1 depth s) as [[v rest]|e] eqn:E;
      [|reflexivity].
    apply (parse_length f1 depth s v rest) in E.
    destruct (Json.skip_ws rest) as [|c r] eqn:Ew; [reflexivity|].
    apply skip_ws_cons_length in Ew.
    destruct (c =? 93); [reflexivity|].
    destruct (c =? 44); [|reflexivity].
    apply IHe. pose proof (skip_ws_length r). lia.
  - intros acc Hb. cbn [Json.parse_members].
    destruct (Json.scan_string s) as [[key rest]|] eqn:E; [|reflexivity].
    apply scan_string_length in E.
    destruct (Json.skip_ws rest) as [|c r] eqn:Ew; [reflexivity|].
    apply skip_ws_cons_length in Ew.
    destruct (c =? 58); [|reflexivity].
    pose proof (skip_ws_length r) as Hr.
    rewrite <- IHv by lia.
    destruct (Json.parse_value f1 depth (Json.skip_ws r))
      as [[v rest']|e] eqn:Ev; [|reflexivity].
    apply (parse_length f1 depth _ v rest') in Ev.
    destruct (Json.skip_ws rest') as [|c' r'] eqn:Ew'; [reflexivity|].
    apply skip_ws_cons_length in Ew'.
    destruct (c' =? 125); [reflexivity|].
    destruct (c' =? 44); [|reflexivity].
    destruct (Json.skip_ws r') as [|c'' r''] eqn:Ew''; [reflexivity|].
    apply skip_ws_cons_length in Ew''.
    destruct (c'' =? 34); [|reflexivity].
    apply IHm. lia.
Qed.

(** [loads] gives its descent enough fuel: any larger amount yields the same
    value or the same exception. *)
Lemma loads_fuel_enough (s : pystr) (fuel depth : nat) :
  (S (2 * List.length s) <= fuel)%nat ->
  Json.parse_value fuel depth (Json.skip_ws s)
  = Json.parse_value (S (2 * List.length s)) depth (Json.skip_ws s).
Proof.
  intros Hf. symmetry.
  apply (parse_fuel_stable (S (2 * List.length s)) fuel depth (Json.skip_ws s)
           Hf).
  pose proof (skip_ws_length s). lia.
Qed.

(** ** The ledger stays a dictionary, and the scenario of the specification *)

Lemma mutations_keep_dict_wf (st : store) (item qty : pyval) :
  dict_wf (stock_data st) ->
  dict_wf (stock_data (snd (add_item item qty st))) /\
  dict_wf (stock_data (snd (remove_item item qty st))).
Proof.
  intros Hwf. split.
  - rewrite add_item_stock.
    destruct item as [| | | |[|c name]]; try exact Hwf.
    destruct (negb (isinstance_int qty) || (int_of qty <? 0)); [exact Hwf|].
    now apply dict_wf_setitem.
  - destruct (remove_item_stock st item qty) as [_ ->].
    destruct item as [| | | |name]; try exact Hwf.
    destruct (negb (isinstance_int qty) || (int_of qty <? 0)); [exact Hwf|].
    destruct (dict_lookup (stock_data st) name) as [current_qty|];
      [|exact Hwf].
    destruct (current_qty - int_of qty <=? 0).
    + now apply dict_wf_delitem.
    + now apply dict_wf_setitem.
Qed.

(** Start empty; add 10 apples and 20 bananas; remove 3 apples, 1 orange
    (absent) and 25 bananas: 7 apples are left, no banana, and the scan below
    15 finds the apples. *)
Example demo_scenario :
  let run_all :=
    add_item (PyStr (str "apple")) (PyInt 10) ;;
    add_item (PyStr (str "banana")) (PyInt 20) ;;
    remove_item (PyStr (str "apple")) (PyInt 3) ;;
    remove_item (PyStr (str "orange")) (PyInt 1) ;;
    remove_item (PyStr (str "banana")) (PyInt 25) ;;
    apple <- get_qty (PyStr (str "apple")) ;;
    banana <- get_qty (PyStr (str "banana")) ;;
    low <- check_low_items (Some 15) ;;
    ret (apple, banana, low) in
  fst (run_all empty_store) = Ok (7, 0, [str "apple"]) /\
  stock_data (snd (run_all empty_store)) = [(str "apple", 7)].
Proof. split; vm_compute; reflexivity. Qed.

(** * Further properties of the ledger operations *)

(** ** Helper facts *)

(** A call either raises at once, leaving the store as it is, or passes the
    three checks. *)
Lemma add_item_cases (st : store) (item qty : pyval) :
  (exists e, add_item item qty st = (Raise e, st)) \/
  (exists c name,
     item = PyStr (c :: name) /\ isinstance_int qty = true /\ 0 <= int_of qty).
Proof.
  destruct item as [| | | |[|c name]]; try (left; eexists; reflexivity).
  destruct (isinstance_int qty) eqn:Hint.
  - destruct (Z.ltb_spec (int_of qty) 0) as [Hneg|Hnn].
    + left. run. rewrite Hint. cbn [negb].
      destruct (Z.ltb_spec (int_of qty) 0); [|lia]. eexists. reflexivity.
    + right. exists c, name. auto.
  - left. run. rewrite Hint. eexists. reflexivity.
Qed.

(** Sequencing after a call that completed. *)
Lemma bind_after {A B} (m : M A) (k : A -> M B) (st st' : store) (a : A) :
  m st = (Ok a, st') -> bind m k st = k a st'.
Proof. intros H. unfold bind. now rewrite H. Qed.

(** [remove_item] in full: it completes, the accumulator, the disk and the
    clock stay, and exactly one record goes to the log. *)
Lemma remove_item_run (st : store) (item qty : pyval) :
  exists lvl m,
    remove_item item qty st =
      (Ok tt,
       mkStore (stock_data (snd (remove_item item qty st))) (logs st)
               (sink st ++ [(lvl, m)]) (disk st) (clock st) (recursion_room st)) /\
    (lvl = INFO <->
       isinstance_int qty = true /\ 0 <= int_of qty /\
       exists name, item = PyStr name /\ dict_lookup (stock_data st) name <> None)
    /\ lvl <> ERROR.
Proof.
  run.
  destruct (isinstance_int qty) eqn:Hint; cbn [negb orb].
  2:{ exists WARNING, MsgRemoveBadQuantity. split; [reflexivity|].
      split; [|discriminate]. split; [discriminate|]. intros (H & _).
      discriminate. }
  destruct (Z.ltb_spec (int_of qty) 0) as [Hneg|Hnn].
  { exists WARNING, MsgRemoveBadQuantity. split; [reflexivity|].
    split; [|discriminate]. split; [discriminate|]. intros (_ & H & _). lia. }
  assert (Hother : forall it : pyval,
             (forall name, it <> PyStr name) ->
             ~ (true = true /\ 0 <= int_of qty /\
                exists name, it = PyStr name /\
                             dict_lookup (stock_data st) name <> None)).
  { intros it Hit (_ & _ & name & Heq & _). now apply (Hit name). }
  destruct item as [| | | |name].
  1-4: (eexists WARNING, _; split; [reflexivity|];
        split; [|discriminate]; split; [discriminate|];
        intros H; exfalso; revert H; apply Hother; discriminate).
  destruct (dict_lookup (stock_data st) name) as [current_qty|] eqn:Hl;
    cbn [fst snd].
  - assert (Hinfo : INFO = INFO <->
              true = true /\ 0 <= int_of qty /\
              exists name0, PyStr name = PyStr name0 /\
                            dict_lookup (stock_data st) name0 <> None).
    { split; [|reflexivity]. intros _. repeat split; auto.
      exists name. split; [reflexivity | congruence]. }
    destruct (current_qty - int_of qty <=? 0); cbn [fst snd stock_data];
      rewrite Hl; cbn [fst snd stock_data].
    + exists INFO, (MsgRemovedAll (PyStr name)).
      split; [reflexivity|]. split; [exact Hinfo | discriminate].
    + exists INFO, (MsgRemoved qty (PyStr name)).
      split; [reflexivity|]. split; [exact Hinfo | discriminate].
  - exists WARNING, (MsgNotInStock (PyStr name)). split; [reflexivity|].
    split; [|discriminate].
    split; [discriminate|]. intros (_ & _ & name' & [= <-] & H). congruence.
Qed.

Section DictAlgebra.
Context {V : Type}.
Implicit Types (d : dict V) (k : pystr) (v : V).

Lemma dict_setitem_setitem d k v1 v2 :
  dict_setitem (dict_setitem d k v1) k v2 = dict_setitem d k v2.
Proof.
  induction d as [|[k0 v0] d IH]; simpl.
  - now rewrite pystr_eqb_refl.
  - destruct (pystr_eqb_spec k0 k) as [->|Hk]; simpl.
    + now rewrite pystr_eqb_refl.
    + rewrite pystr_eqb_neq by assumption. now rewrite IH.
Qed.

Lemma dict_setitem_same d k v :
  dict_lookup d k = Some v -> dict_setitem d k v = d.
Proof.
  induction d as [|[k0 v0] d IH]; simpl; [discriminate|].
  destruct (pystr_eqb_spec k0 k) as [->|Hk].
  - now intros [= ->].
  - intros H. now rewrite IH.
Qed.

Lemma dict_delitem_setitem_absent d k v :
  dict_lookup d k = None -> dict_delitem (dict_setitem d k v) k = d.
Proof.
  induction d as [|[k0 v0] d IH]; simpl.
  - now rewrite pystr_eqb_refl.
  - destruct (pystr_eqb_spec k0 k) as [->|Hk]; [discriminate|]. simpl.
    rewrite pystr_eqb_neq by assumption. intros H. now rewrite IH.
Qed.

Lemma dict_delitem_setitem_present d k v :
  dict_delitem (dict_setitem d k v) k = dict_delitem d k \/
  dict_lookup d k = None.
Proof.
  induction d as [|[k0 v0] d IH]; simpl; [now right|].
  destruct (pystr_eqb_spec k0 k) as [->|Hk]; simpl.
  - left. now rewrite pystr_eqb_refl.
  - rewrite pystr_eqb_neq by assumption.
    destruct IH as [->|H]; [now left | now right].
Qed.

Lemma dict_keys_delitem d k :
  dict_wf d -> dict_keys (dict_delitem d k) = remove pystr_eq_dec k (dict_keys d).
Proof.
  unfold dict_wf, dict_keys.
  induction d as [|[k0 v0] d IH]; simpl; [reflexivity|].
  intros Hnd. inversion Hnd as [|? ? Hnotin Hnd']; subst.
  destruct (pystr_eqb_spec k0 k) as [->|Hk].
  - destruct (pystr_eq_dec k k); [|congruence].
    symmetry. now apply notin_remove.
  - destruct (pystr_eq_dec k k0); [congruence|]. simpl. now rewrite IH.
Qed.
End DictAlgebra.

(** ** How the mutations compose *)

(** X1: two completed additions to the same item leave the mapping that one
    addition of the sum leaves: the same keys, in the same order, with the same
    quantities.  Each quantity has at most 4300 digits, so that its addition
    completes; their sum may have more. *)
Theorem add_item_accumulates (st : store) (name : pystr) (q1 q2 : Z) :
  name <> [] -> 0 <= q1 -> 0 <= q2 ->
  fits_str_digits q1 = true -> fits_str_digits q2 = true ->
  fst ((add_item (PyStr name) (PyInt q1) ;;
        add_item (PyStr name) (PyInt q2)) st) = Ok tt /\
  stock_data (snd ((add_item (PyStr name) (PyInt q1) ;;
                    add_item (PyStr name) (PyInt q2)) st))
  = stock_data (snd (add_item (PyStr name) (PyInt (q1 + q2)) st)).
Proof.
  intros Hne H1 H2 Hf1 Hf2. destruct name as [|c name]; [congruence|].
  rewrite (bind_after _ _ st _ tt (add_item_valid st c name (PyInt q1)
                                     eq_refl H1 Hf1)).
  rewrite add_item_valid by (try reflexivity; cbn [int_of]; assumption).
  rewrite add_item_stock.
  cbn [fst snd stock_data int_of isinstance_int negb orb].
  destruct (Z.ltb_spec (q1 + q2) 0); [lia|].
  split; [reflexivity|].
  rewrite dict_lookup_setitem_same, dict_setitem_setitem. f_equal. lia.
Qed.

Lemma add_item_accumulates_witness :
  fst ((add_item (PyStr (str "apple")) (PyInt 10) ;;
        add_item (PyStr (str "apple")) (PyInt 5)) empty_store) = Ok tt /\
  stock_data (snd ((add_item (PyStr (str "apple")) (PyInt 10) ;;
                    add_item (PyStr (str "apple")) (PyInt 5)) empty_store))
  = stock_data (snd (add_item (PyStr (str "apple")) (PyInt (10 + 5))
                       empty_store)).
Proof.
  apply (add_item_accumulates empty_store (str "apple") 10 5).
  - vm_compute. discriminate.
  - lia.
  - lia.
  - vm_compute. reflexivity.
  - vm_compute. reflexivity.
Defined.

(** X2: adding a quantity of at most 4300 digits and then removing the same
    quantity gives back the mapping exactly as it was (keys, order,
    quantities), provided the item was absent or stored with a positive
    quantity. *)
Theorem add_then_remove_restores (st : store) (name : pystr) (q : Z) :
  name <> [] -> 0 <= q -> fits_str_digits q = true ->
  (forall c, dict_lookup (stock_data st) name = Some c -> 0 < c) ->
  fst ((add_item (PyStr name) (PyInt q) ;;
        remove_item (PyStr name) (PyInt q)) st) = Ok tt /\
  stock_data (snd ((add_item (PyStr name) (PyInt q) ;;
                    remove_item (PyStr name) (PyInt q)) st))
  = stock_data st.
Proof.
  intros Hne Hq Hfit Hpos. destruct name as [|c name]; [congruence|].
  rewrite (bind_after _ _ st _ tt (add_item_valid st c name (PyInt q)
                                     eq_refl Hq Hfit)).
  match goal with
  | |- fst (remove_item ?i ?n ?s) = _ /\ _ =>
      destruct (remove_item_stock s i n) as [Hr ->]
  end.
  split; [exact Hr|]. cbn [stock_data isinstance_int negb orb int_of].
  destruct (Z.ltb_spec q 0); [lia|].
  rewrite dict_lookup_setitem_same.
  destruct (dict_lookup (stock_data st) (c :: name)) as [cur|] eqn:Hl.
  - specialize (Hpos cur eq_refl).
    destruct (Z.leb_spec (cur + q - q) 0); [lia|].
    rewrite dict_setitem_setitem. apply dict_setitem_same.
    rewrite Hl. f_equal. lia.
  - destruct (Z.leb_spec (0 + q - q) 0); [|lia].
    now apply dict_delitem_setitem_absent.
Qed.

Lemma add_then_remove_restores_witness :
  fst ((add_item (PyStr (str "banana")) (PyInt 4) ;;
        remove_item (PyStr (str "banana")) (PyInt 4))
         (mkStore [(str "apple", 7)] None [] (fun _ => Missing true) 0 990))
  = Ok tt /\
  stock_data (snd ((add_item (PyStr (str "banana")) (PyInt 4) ;;
                    remove_item (PyStr (str "banana")) (PyInt 4))
                     (mkStore [(str "apple", 7)] None []
                        (fun _ => Missing true) 0 990)))
  = [(str "apple", 7)].
Proof.
  apply (add_then_remove_restores
           (mkStore [(str "apple", 7)] None [] (fun _ => Missing true) 0 990)
           (str "banana") 4).
  - vm_compute. discriminate.
  - lia.
  - vm_compute. reflexivity.
  - intros c H. vm_compute in H. discriminate.
Defined.

(** X3: two removals from the same item leave the mapping that one removal
    of the sum leaves; in particular a removal that empties the item makes
    every later removal a no-op. *)
Theorem remove_item_accumulates (st : store) (item : pyval) (q1 q2 : Z) :
  dict_wf (stock_data st) -> 0 <= q1 -> 0 <= q2 ->
  stock_data (snd ((remove_item item (PyInt q1) ;;
                    remove_item item (PyInt q2)) st))
  = stock_data (snd (remove_item item (PyInt (q1 + q2)) st)).
Proof.
  intros Hwf H1 H2.
  destruct (remove_item_run st item (PyInt q1)) as (lvl & m & Hrun & _).
  rewrite (bind_after _ _ st _ tt Hrun).
  match goal with
  | |- stock_data (snd (remove_item ?i ?n ?s)) = _ =>
      destruct (remove_item_stock s i n) as [_ ->]
  end.
  cbn [stock_data].
  destruct (remove_item_stock st item (PyInt q1)) as [_ ->].
  destruct (remove_item_stock st item (PyInt (q1 + q2))) as [_ ->].
  destruct item as [| | | |name]; try reflexivity.
  cbn [isinstance_int negb orb int_of].
  destruct (Z.ltb_spec q1 0); [lia|]. destruct (Z.ltb_spec q2 0); [lia|].
  destruct (Z.ltb_spec (q1 + q2) 0); [lia|].
  destruct (dict_lookup (stock_data st) name) as [c|] eqn:Hl;
    [|now rewrite Hl].
  destruct (Z.leb_spec (c - q1) 0).
  - rewrite dict_lookup_delitem_same by assumption.
    destruct (Z.leb_spec (c - (q1 + q2)) 0); [reflexivity | lia].
  - rewrite dict_lookup_setitem_same.
    destruct (Z.leb_spec (c - q1 - q2) 0);
      destruct (Z.leb_spec (c - (q1 + q2)) 0); try lia.
    + destruct (dict_delitem_setitem_present (stock_data st) name (c - q1))
        as [->|Hnone]; [reflexivity | congruence].
    + rewrite dict_setitem_setitem. f_equal. lia.
Qed.

Lemma remove_item_accumulates_witness :
  stock_data (snd ((remove_item (PyStr (str "apple")) (PyInt 3) ;;
                    remove_item (PyStr (str "apple")) (PyInt 2))
                     (mkStore [(str "apple", 7)] None []
                        (fun _ => Missing true) 0 990)))
  = stock_data (snd (remove_item (PyStr (str "apple")) (PyInt (3 + 2))
                       (mkStore [(str "apple", 7)] None []
                          (fun _ => Missing true) 0 990))).
Proof.
  apply (remove_item_accumulates
           (mkStore [(str "apple", 7)] None [] (fun _ => Missing true) 0 990)
           (PyStr (str "apple")) 3 2).
  - unfold dict_wf. vm_compute. repeat constructor. intros [].
  - lia.
  - lia.
Defined.

(** X4: additions of quantities of at most 4300 digits to two different
    items commute: in either order each key ends with the same presence and
    quantity (only the order of two new keys can differ). *)
Theorem add_item_commutes (st : store) (n1 n2 : pystr) (q1 q2 : Z)
    (k : pystr) :
  n1 <> [] -> n2 <> [] -> n1 <> n2 -> 0 <= q1 -> 0 <= q2 ->
  fits_str_digits q1 = true -> fits_str_digits q2 = true ->
  dict_lookup
    (stock_data (snd ((add_item (PyStr n1) (PyInt q1) ;;
                       add_item (PyStr n2) (PyInt q2)) st))) k
  = dict_lookup
      (stock_data (snd ((add_item (PyStr n2) (PyInt q2) ;;
                         add_item (PyStr n1) (PyInt q1)) st))) k.
Proof.
  intros He1 He2 Hne H1 H2 Hf1 Hf2.
  destruct n1 as [|c1 n1]; [congruence|]. destruct n2 as [|c2 n2]; [congruence|].
  rewrite (bind_after _ _ st _ tt (add_item_valid st c1 n1 (PyInt q1)
                                     eq_refl H1 Hf1)).
  rewrite (bind_after _ _ st _ tt (add_item_valid st c2 n2 (PyInt q2)
                                     eq_refl H2 Hf2)).
  rewrite !add_item_valid by (try reflexivity; cbn [int_of]; assumption).
  cbn [snd stock_data int_of].
  rewrite (dict_lookup_setitem_other (stock_data st) (c1 :: n1) (c2 :: n2))
    by congruence.
  rewrite (dict_lookup_setitem_other (stock_data st) (c2 :: n2) (c1 :: n1))
    by congruence.
  destruct (pystr_eq_dec k (c1 :: n1)) as [->|Hk1].
  - rewrite dict_lookup_setitem_other by congruence.
    now rewrite !dict_lookup_setitem_same.
  - destruct (pystr_eq_dec k (c2 :: n2)) as [->|Hk2].
    + rewrite dict_lookup_setitem_same.
      rewrite dict_lookup_setitem_other by congruence.
      now rewrite dict_lookup_setitem_same.
    + now rewrite !dict_lookup_setitem_other by congruence.
Qed.

Lemma add_item_commutes_witness :
  dict_lookup
    (stock_data (snd ((add_item (PyStr (str "apple")) (PyInt 10) ;;
                       add_item (PyStr (str "banana")) (PyInt 20))
                        empty_store))) (str "apple")
  = dict_lookup
      (stock_data (snd ((add_item (PyStr (str "banana")) (PyInt 20) ;;
                         add_item (PyStr (str "apple")) (PyInt 10))
                          empty_store))) (str "apple").
Proof.
  apply (add_item_commutes empty_store (str "apple") (str "banana") 10 20
           (str "apple")); vm_compute; (discriminate || reflexivity).
Defined.

(** ** The order of the keys *)

(** X5: a completed addition keeps the order of the keys: an item already
    present keeps its place, a new item goes last. *)
Theorem add_item_keeps_order (st st' : store) (name : pystr) (qty : pyval) :
  add_item (PyStr name) qty st = (Ok tt, st') ->
  dict_keys (stock_data st') =
    match dict_lookup (stock_data st) name with
    | Some _ => dict_keys (stock_data st)
    | None => dict_keys (stock_data st) ++ [name]
    end.
Proof.
  intros Hadd.
  destruct (add_item_cases st (PyStr name) qty)
    as [(e & He)|(c & nm & [= ->] & Hint & Hnn)]; [congruence|].
  destruct (fits_str_digits (int_of qty)) eqn:Hfit;
    [|rewrite add_item_unformattable in Hadd by assumption; discriminate].
  rewrite add_item_valid in Hadd by assumption. injection Hadd as <-.
  cbn [stock_data].
  destruct (dict_lookup (stock_data st) (c :: nm)) eqn:Hl.
  - apply dict_keys_setitem_present. congruence.
  - now apply dict_keys_setitem_absent.
Qed.

Lemma add_item_keeps_order_witness :
  dict_keys
    (stock_data (snd (add_item (PyStr (str "banana")) (PyInt 20)
                        (mkStore [(str "apple", 7)] None []
                           (fun _ => Missing true) 0 990))))
  = [str "apple"] ++ [str "banana"].
Proof.
  apply (add_item_keeps_order
           (mkStore [(str "apple", 7)] None [] (fun _ => Missing true) 0 990)
           _ (str "banana") (PyInt 20)).
  reflexivity.
Defined.

(** X6: [remove_item] never reorders: afterwards the keys are the keys of
    before, or those keys without the item when its entry was deleted. *)
Theorem remove_item_keeps_order (st : store) (item qty : pyval) :
  dict_wf (stock_data st) ->
  dict_keys (stock_data (snd (remove_item item qty st)))
    = dict_keys (stock_data st) \/
  exists name,
    item = PyStr name /\
    dict_keys (stock_data (snd (remove_item item qty st)))
      = remove pystr_eq_dec name (dict_keys (stock_data st)).
Proof.
  intros Hwf. destruct (remove_item_stock st item qty) as [_ ->].
  destruct item as [| | | |name]; try (now left).
  destruct (negb (isinstance_int qty) || (int_of qty <? 0)); [now left|].
  destruct (dict_lookup (stock_data st) name) as [c|] eqn:Hl; [|now left].
  destruct (c - int_of qty <=? 0).
  - right. exists name. split; [reflexivity|]. now apply dict_keys_delitem.
  - left. apply dict_keys_setitem_present. congruence.
Qed.

Lemma remove_item_keeps_order_witness :
  dict_keys
    (stock_data (snd (remove_item (PyStr (str "apple")) (PyInt 9)
                        (mkStore [(str "apple", 7); (str "banana", 2)] None
                           [] (fun _ => Missing true) 0 990))))
    = dict_keys [(str "apple", 7); (str "banana", 2)] \/
  exists name,
    PyStr (str "apple") = PyStr name /\
    dict_keys
      (stock_data (snd (remove_item (PyStr (str "apple")) (PyInt 9)
                          (mkStore [(str "apple", 7); (str "banana", 2)] None
                             [] (fun _ => Missing true) 0 990))))
      = remove pystr_eq_dec name
          (dict_keys [(str "apple", 7); (str "banana", 2)]).
Proof.
  apply (remove_item_keeps_order
           (mkStore [(str "apple", 7); (str "banana", 2)] None []
              (fun _ => Missing true) 0 990)
           (PyStr (str "apple")) (PyInt 9)).
  unfold dict_wf. vm_compute.
  repeat constructor; simpl; intros H;
    repeat (destruct H as [H|H]; try discriminate H); exact H.
Defined.

(** ** Invariants the mutations keep *)

(** X7: quantities never go negative: when no stored quantity is negative,
    none is after [add_item] or [remove_item], whatever the arguments and
    whether the call completes or raises. *)
Theorem mutations_keep_quantities_nonnegative
    (st : store) (item qty : pyval) :
  Forall (fun kv => 0 <= snd kv) (stock_data st) ->
  Forall (fun kv => 0 <= snd kv) (stock_data (snd (add_item item qty st))) /\
  Forall (fun kv => 0 <= snd kv) (stock_data (snd (remove_item item qty st))).
Proof.
  intros Hnn. split.
  - destruct (add_item_cases st item qty)
      as [(e & ->)|(c & name & -> & Hint & Hq)]; [exact Hnn|].
    rewrite add_item_stock, Hint. cbn [negb orb].
    destruct (Z.ltb_spec (int_of qty) 0); [lia|].
    apply Forall_dict_setitem; auto; cbn [snd].
    + destruct (dict_lookup (stock_data st) (c :: name)) as [v|] eqn:Hl; [|lia].
      apply dict_lookup_some_in in Hl. rewrite Forall_forall in Hnn.
      specialize (Hnn _ Hl). cbn [snd] in Hnn. lia.
    + intros k' -> v' _.
      destruct (dict_lookup (stock_data st) (c :: name)) as [v|] eqn:Hl; [|lia].
      apply dict_lookup_some_in in Hl. rewrite Forall_forall in Hnn.
      specialize (Hnn _ Hl). cbn [snd] in Hnn. lia.
  - destruct (remove_item_stock st item qty) as [_ ->].
    destruct item as [| | | |name]; try exact Hnn.
    destruct (negb (isinstance_int qty) || (int_of qty <? 0)); [exact Hnn|].
    destruct (dict_lookup (stock_data st) name) as [c|]; [|exact Hnn].
    destruct (Z.leb_spec (c - int_of qty) 0).
    + now apply Forall_dict_delitem.
    + apply Forall_dict_setitem; cbn [snd]; auto; lia.
Qed.

Lemma mutations_keep_quantities_nonnegative_witness :
  Forall (fun kv => 0 <= snd kv)
    (stock_data (snd (add_item (PyStr (str "pear")) (PyInt 0)
                        (mkStore [(str "apple", 7)] None []
                           (fun _ => Missing true) 0 990)))) /\
  Forall (fun kv => 0 <= snd kv)
    (stock_data (snd (remove_item (PyStr (str "pear")) (PyInt 0)
                        (mkStore [(str "apple", 7)] None []
                           (fun _ => Missing true) 0 990)))).
Proof.
  apply (mutations_keep_quantities_nonnegative
           (mkStore [(str "apple", 7)] None [] (fun _ => Missing true) 0 990)
           (PyStr (str "pear")) (PyInt 0)).
  repeat constructor. cbn. lia.
Defined.

(** X8: no entry is ever filed under the empty name: when every key is a
    non-empty string, so is every key after [add_item] or [remove_item]. *)
Theorem mutations_keep_names_nonempty (st : store) (item qty : pyval) :
  Forall (fun kv => fst kv <> []) (stock_data st) ->
  Forall (fun kv => fst kv <> []) (stock_data (snd (add_item item qty st))) /\
  Forall (fun kv => fst kv <> []) (stock_data (snd (remove_item item qty st))).
Proof.
  intros Hne. split.
  - destruct (add_item_cases st item qty)
      as [(e & ->)|(c & name & -> & Hint & Hq)]; [exact Hne|].
    rewrite add_item_stock, Hint. cbn [negb orb].
    destruct (Z.ltb_spec (int_of qty) 0); [lia|].
    apply Forall_dict_setitem; auto; cbn [fst]; discriminate.
  - destruct (remove_item_stock st item qty) as [_ ->].
    destruct item as [| | | |name]; try exact Hne.
    destruct (negb (isinstance_int qty) || (int_of qty <? 0)); [exact Hne|].
    destruct (dict_lookup (stock_data st) name) as [c|] eqn:Hl; [|exact Hne].
    destruct (c - int_of qty <=? 0).
    + now apply Forall_dict_delitem.
    + apply Forall_dict_setitem; cbn [fst]; auto.
      apply dict_lookup_some_in in Hl. rewrite Forall_forall in Hne.
      apply (Hne _ Hl).
Qed.

Lemma mutations_keep_names_nonempty_witness :
  Forall (fun kv => fst kv <> [])
    (stock_data (snd (add_item (PyStr []) (PyInt 3)
                        (mkStore [(str "apple", 7)] None []
                           (fun _ => Missing true) 0 990)))) /\
  Forall (fun kv => fst kv <> [])
    (stock_data (snd (remove_item (PyStr []) (PyInt 3)
                        (mkStore [(str "apple", 7)] None []
                           (fun _ => Missing true) 0 990)))).
Proof.
  apply (mutations_keep_names_nonempty
           (mkStore [(str "apple", 7)] None [] (fun _ => Missing true) 0 990)
           (PyStr []) (PyInt 3)).
  repeat constructor. cbn. discriminate.
Defined.

(** ** What the mutations log *)

(** X9: a completed [add_item] emits one [INFO] record and appends the very
    same message to the caller's accumulator when there is one; the disk is
    not touched.  A call that raises logs nothing and appends nothing. *)
Theorem add_item_logging (st : store) (item qty : pyval) :
  (fst (add_item item qty st) = Ok tt ->
   exists m,
     sink (snd (add_item item qty st)) = sink st ++ [(INFO, m)] /\
     logs (snd (add_item item qty st))
       = option_map (fun l => l ++ [m]) (logs st) /\
     disk (snd (add_item item qty st)) = disk st) /\
  (forall e, fst (add_item item qty st) = Raise e ->
     sink (snd (add_item item qty st)) = sink st /\
     logs (snd (add_item item qty st)) = logs st).
Proof.
  destruct (add_item_cases st item qty)
    as [(e & ->)|(c & name & -> & Hint & Hq)].
  - split; [discriminate | auto].
  - destruct (fits_str_digits (int_of qty)) eqn:Hfit.
    + rewrite add_item_valid by assumption. cbn [fst snd sink logs disk].
      split; [|discriminate]. intros _. eexists. split; [reflexivity|].
      split; [|reflexivity]. now destruct (logs st).
    + rewrite add_item_unformattable by assumption.
      cbn [fst snd sink logs]. split; [discriminate | auto].
Qed.

(** X10: every call of [remove_item] emits exactly one log record, never at
    [ERROR] level: [INFO] when the quantity is a non-negative [int] and the
    item is present, [WARNING] otherwise.  The caller's accumulator, the disk
    and the clock are never touched. *)
Theorem remove_item_logging (st : store) (item qty : pyval) :
  exists lvl m,
    sink (snd (remove_item item qty st)) = sink st ++ [(lvl, m)] /\
    (lvl = INFO \/ lvl = WARNING) /\
    (lvl = INFO <->
       isinstance_int qty = true /\ 0 <= int_of qty /\
       exists name,
         item = PyStr name /\ dict_lookup (stock_data st) name <> None) /\
    logs (snd (remove_item item qty st)) = logs st /\
    disk (snd (remove_item item qty st)) = disk st /\
    clock (snd (remove_item item qty st)) = clock st.
Proof.
  destruct (remove_item_run st item qty) as (lvl & m & Hrun & Hinfo & Herr).
  exists lvl, m. rewrite Hrun. cbn [snd sink logs disk clock].
  split; [reflexivity|]. split; [destruct lvl; auto; congruence|].
  split; [exact Hinfo|]. auto.
Qed.

(** ** The low-stock scan *)

Lemma low_items_keys (d : dict Z) (t : Z) (name : pystr) :
  In name (low_items d t) -> In name (dict_keys d).
Proof.
  unfold dict_keys. induction d as [|[k v] d IH]; simpl; [tauto|].
  destruct (v <? t); simpl; intuition.
Qed.

(** X11: raising the threshold can only add names to the scan, and in a
    dictionary the scan reports no name twice. *)
Theorem check_low_items_monotone (st : store) (t1 t2 : Z) :
  t1 <= t2 ->
  exists r1 r2,
    fst (check_low_items (Some t1) st) = Ok r1 /\
    fst (check_low_items (Some t2) st) = Ok r2 /\
    incl r1 r2 /\
    (dict_wf (stock_data st) -> NoDup r1).
Proof.
  intros Hle. eexists. eexists. split; [run; reflexivity|].
  split; [run; reflexivity|]. split.
  - intros name Hin. apply low_items_in in Hin. destruct Hin as (q & Hin & Hq).
    apply low_items_in. exists q. split; [exact Hin | lia].
  - unfold dict_wf, dict_keys. generalize (stock_data st). intros d.
    induction d as [|[k v] d IH]; simpl; intros Hnd; [constructor|].
    inversion Hnd as [|? ? Hnotin Hnd']; subst.
    destruct (v <? t1); [|now apply IH].
    constructor; [|now apply IH].
    intros Hin. apply Hnotin. now apply low_items_keys in Hin.
Qed.

Lemma check_low_items_monotone_witness :
  exists r1 r2,
    fst (check_low_items (Some 5)
           (mkStore [(str "apple", 7); (str "banana", 2)] None []
              (fun _ => Missing true) 0 990)) = Ok r1 /\
    fst (check_low_items (Some 15)
           (mkStore [(str "apple", 7); (str "banana", 2)] None []
              (fun _ => Missing true) 0 990)) = Ok r2 /\
    incl r1 r2 /\
    (dict_wf [(str "apple", 7); (str "banana", 2)] -> NoDup r1).
Proof.
  apply (check_low_items_monotone
           (mkStore [(str "apple", 7); (str "banana", 2)] None []
              (fun _ => Missing true) 0 990) 5 15).
  lia.
Defined.

(** * Further properties of the persistence layer *)

(** X12: what [load_data] does with each failure.  A path that names
    nothing gives the empty ledger and one [WARNING]: a missing file,
    although an [OSError] too, is caught by the first clause.  A directory,
    a path that cannot be followed, an unreadable file, and a readable file
    whose text the decoder finds malformed each give the empty ledger and one
    [ERROR].  Three failures are caught by no clause and leave [load_data]
    with nothing logged: a path that cannot be handed to the file system, an
    integer of more than 4300 digits in the file (a [ValueError], but no
    [JSONDecodeError]), and nesting deeper than the decoder has room for. *)
Theorem load_data_failure_policy (st : store) (file_path : pystr) :
  let logged r :=
    (Ok (JObj []),
     mkStore (stock_data st) (logs st) (sink st ++ [r]) (disk st) (clock st)
             (recursion_room st)) in
  (forall e, fs_path_error file_path = Some e ->
     load_data file_path st = (Raise e, st)) /\
  (fs_path_error file_path = None ->
   ((exists parent_ok, disk st file_path = Missing parent_ok) ->
    load_data file_path st = logged (WARNING, MsgLoadNotFound file_path)) /\
   (disk st file_path = Directory ->
    load_data file_path st
    = logged (ERROR, MsgLoadIOError file_path IsADirectoryError)) /\
   (forall why, disk st file_path = Unreachable why ->
    isinstance_exn (obstacle_error why) CFileNotFoundError = false /\
    load_data file_path st
    = logged (ERROR, MsgLoadIOError file_path (obstacle_error why))) /\
   ((exists w content, disk st file_path = File false w content) ->
    load_data file_path st
    = logged (ERROR, MsgLoadIOError file_path PermissionError)) /\
   (forall w content text,
      disk st file_path = File true w content ->
      Utf8.decode content = Some text ->
      (Json.loads (recursion_room st) (universal_newlines text)
       = Raise JSONDecodeError ->
       load_data file_path st = logged (ERROR, MsgLoadBadJson file_path)) /\
      (Json.loads (recursion_room st) (universal_newlines text)
       = Raise (ValueError IntStrDigitsExceeded) ->
       load_data file_path st
       = (Raise (ValueError IntStrDigitsExceeded), st)) /\
      (Json.loads (recursion_room st) (universal_newlines text)
       = Raise RecursionError ->
       load_data file_path st = (Raise RecursionError, st)))).
Proof.
  cbv zeta. split.
  - intros e He. run_io. rewrite He.
    unfold fs_path_error in He.
    destruct (Utf8.fsencode file_path) as [bytes|].
    + destruct (existsb (fun b => Utf8.byte_val b =? 0) bytes);
        [|discriminate]. injection He as <-. reflexivity.
    + injection He as <-. reflexivity.
  - intros Hpath. repeat split.
    + intros (ok & H). run_io. now rewrite Hpath, H.
    + intros H. run_io. now rewrite Hpath, H.
    + now destruct why.
    + run_io. rewrite Hpath, H. now destruct why.
    + intros (w & content & H). run_io. now rewrite Hpath, H.
    + intros Hloads. run_io. rewrite Hpath, H, H0. cbn [fst snd].
      now rewrite Hloads.
    + intros Hloads. run_io. rewrite Hpath, H, H0. cbn [fst snd].
      now rewrite Hloads.
    + intros Hloads. run_io. rewrite Hpath, H, H0. cbn [fst snd].
      now rewrite Hloads.
Qed.

(** X13: [load_data] only reads: whatever the path names and however the
    call ends, the ledger, the accumulator, the disk and the clock are as
    before, and at most one record was added to the log. *)
Theorem load_data_only_reads (st : store) (file_path : pystr) :
  exists suffix,
    snd (load_data file_path st)
    = mkStore (stock_data st) (logs st) (sink st ++ suffix) (disk st)
              (clock st) (recursion_room st) /\
    (List.length suffix <= 1)%nat.
Proof.
  assert (Hst : st = mkStore (stock_data st) (logs st) (sink st ++ [])
                       (disk st) (clock st) (recursion_room st))
    by (rewrite app_nil_r; now destruct st).
  assert (Hraise : forall e : exn,
             exists suffix,
               snd (dispatch
                      [(CFileNotFoundError,
                        fun _ => logging_warning (MsgLoadNotFound file_path) ;;
                                 ret (JObj []));
                       (CJSONDecodeError,
                        fun _ => logging_error (MsgLoadBadJson file_path) ;;
                                 ret (JObj []));
                       (IOError,
                        fun error =>
                          logging_error (MsgLoadIOError file_path error) ;;
                          ret (JObj []))] e st)
               = mkStore (stock_data st) (logs st) (sink st ++ suffix)
                   (disk st) (clock st) (recursion_room st) /\
               (List.length suffix <= 1)%nat).
  { intros e. destruct e;
      try (exists []; split; [exact Hst | cbn; lia]);
      eexists; (split; [reflexivity | cbn; lia]). }
  unfold load_data, try_except, json_load, file_read, open_read, bind, ret,
    raise.
  destruct (fs_path_error file_path) as [e|]; [apply Hraise|].
  destruct (disk st file_path) as [ok| |[|] w content|why]; try apply Hraise.
  destruct (Utf8.decode content) as [text|]; [|apply Hraise].
  destruct (Json.loads (recursion_room st) (universal_newlines text))
    as [v|e]; [|apply Hraise].
  exists []. split; [exact Hst | cbn; lia].
Qed.

Lemma save_data_encodes (st : store) :
  Forall (fun kv => forallb code_point (fst kv) = true) (stock_data st) ->
  Utf8.encode (Json.dumps (stock_data st))
  = Some (map Utf8.byte_of (Json.dumps (stock_data st))).
Proof.
  intros Hkeys. apply utf8_encode_ascii, json_out_char_ascii.
  now apply dumps_out.
Qed.

(** X14: [save_data] never changes the ledger or the accumulator, and it
    swallows the [OSError]s of opening the file: when the path can be handed
    to the file system but not opened for writing, the call returns, the
    disk is as it was and the only effect is one [ERROR] record naming the
    path.  What [save_data] lets through is never an [OSError]: it is the
    [ValueError] of a path that cannot be encoded or holds a NUL, or of a
    quantity of more than 4300 digits. *)
Theorem save_data_swallows (st : store) (file_path : pystr) :
  stock_data (snd (save_data file_path st)) = stock_data st /\
  logs (snd (save_data file_path st)) = logs st /\
  (fs_path_error file_path = None ->
   opens_for_write (disk st file_path) = false ->
   exists error,
     isinstance_exn error IOError = true /\
     save_data file_path st
     = (Ok tt,
        mkStore (stock_data st) (logs st)
          (sink st ++ [(ERROR, MsgSaveIOError file_path error)]) (disk st)
          (clock st) (recursion_room st))) /\
  (forall e, fst (save_data file_path st) = Raise e ->
     isinstance_exn e IOError = false /\
     isinstance_exn e CValueError = true).
Proof.
  assert (Hopened : forall st1 : store,
             (exists r w c, disk st1 file_path = File r w c) ->
             stock_data (snd (try_except (json_dump file_path)
                                [(IOError,
                                  fun error =>
                                    logging_error
                                      (MsgSaveIOError file_path error))] st1))
             = stock_data st1 /\
             logs (snd (try_except (json_dump file_path)
                          [(IOError,
                            fun error =>
                              logging_error
                                (MsgSaveIOError file_path error))] st1))
             = logs st1 /\
             (forall e,
                fst (try_except (json_dump file_path)
                       [(IOError,
                         fun error =>
                           logging_error
                             (MsgSaveIOError file_path error))] st1)
                = Raise e ->
                isinstance_exn e IOError = false /\
                isinstance_exn e CValueError = true)).
  { intros st1 (r & w & c & Hfile).
    unfold try_except, json_dump, bind, get_stock, file_write, put_disk, ret,
      raise.
    destruct (Utf8.encode (fst (Json.dump (stock_data st1)))) as [bytes|].
    - rewrite Hfile. destruct (snd (Json.dump (stock_data st1)));
        cbn [fst snd stock_data logs dispatch isinstance_exn IOError];
        (split; [reflexivity|]); (split; [reflexivity|]);
        intros e He; try discriminate He; injection He as <-;
        split; reflexivity.
    - cbn [fst snd stock_data logs dispatch isinstance_exn IOError].
      split; [reflexivity|]. split; [reflexivity|].
      intros e [= <-]. split; reflexivity. }
  unfold save_data.
  assert (Hbind : forall handlers st0,
             try_except (open_write file_path ;; json_dump file_path)
               handlers st0
             = match open_write file_path st0 with
               | (Ok _, st1) => try_except (json_dump file_path) handlers st1
               | (Raise e, st1) => dispatch handlers e st1
               end).
  { intros handlers st0. unfold try_except, bind.
    now destruct (open_write file_path st0) as [[[]|e] st1]. }
  rewrite Hbind. unfold open_write, put_disk.
  destruct (fs_path_error file_path) as [e|] eqn:Hpath.
  { assert (He : isinstance_exn e IOError = false /\
                 isinstance_exn e CValueError = true).
    { unfold fs_path_error in Hpath.
      destruct (Utf8.fsencode file_path) as [bytes|].
      - destruct (existsb (fun b => Utf8.byte_val b =? 0) bytes);
          [|discriminate]. injection Hpath as <-. split; reflexivity.
      - injection Hpath as <-. split; reflexivity. }
    destruct He as [He1 He2]. cbn [dispatch]. rewrite He1.
    cbn [dispatch raise fst snd]. split; [reflexivity|].
    split; [reflexivity|]. split; [discriminate|].
    intros e' [= <-]. split; assumption. }
  destruct (disk st file_path) as [[|]| |r [|] content|why] eqn:Hd.
  - destruct (Hopened
                (mkStore (stock_data st) (logs st) (sink st)
                   (fun p => if pystr_eqb p file_path then File true true []
                             else disk st p)
                   (clock st) (recursion_room st)))
      as (H1 & H2 & H3).
    { cbn [disk]. rewrite pystr_eqb_refl. eauto. }
    cbn [stock_data logs] in H1, H2.
    split; [exact H1|]. split; [exact H2|]. split; [discriminate | exact H3].
  - cbn [dispatch isinstance_exn IOError logging_error logging_log fst snd
         stock_data logs].
    split; [reflexivity|]. split; [reflexivity|].
    split; [|intros e He; discriminate He]. intros _ _. eexists.
    split; [|reflexivity]. reflexivity.
  - cbn [dispatch isinstance_exn IOError logging_error logging_log fst snd
         stock_data logs].
    split; [reflexivity|]. split; [reflexivity|].
    split; [|intros e He; discriminate He]. intros _ _. eexists.
    split; [|reflexivity]. reflexivity.
  - destruct (Hopened
                (mkStore (stock_data st) (logs st) (sink st)
                   (fun p => if pystr_eqb p file_path then File r true []
                             else disk st p)
                   (clock st) (recursion_room st)))
      as (H1 & H2 & H3).
    { cbn [disk]. rewrite pystr_eqb_refl. eauto. }
    cbn [stock_data logs] in H1, H2.
    split; [exact H1|]. split; [exact H2|]. split; [discriminate | exact H3].
  - cbn [dispatch isinstance_exn IOError logging_error logging_log fst snd
         stock_data logs].
    split; [reflexivity|]. split; [reflexivity|].
    split; [|intros e He; discriminate He]. intros _ _. eexists.
    split; [|reflexivity]. reflexivity.
  - destruct why;
      cbn [obstacle_error dispatch isinstance_exn IOError logging_error
           logging_log fst snd stock_data logs];
      (split; [reflexivity|]); (split; [reflexivity|]);
      (split; [|intros e He; discriminate He]); intros _ _; eexists;
      (split; [|reflexivity]); reflexivity.
Qed.

(** X15: a [save_data] that can open its path, on a ledger whose quantities
    have at most 4300 digits each, completes and replaces the whole file: the
    new content is the ASCII text of the ledger and nothing of the old
    content, the file stays writable and nothing is logged. *)
Theorem save_data_overwrites (st : store) (file_path : pystr) :
  Forall (fun kv => forallb code_point (fst kv) = true) (stock_data st) ->
  quantities_fit (stock_data st) ->
  fs_path_error file_path = None ->
  opens_for_write (disk st file_path) = true ->
  exists readable,
    fst (save_data file_path st) = Ok tt /\
    disk (snd (save_data file_path st)) file_path
    = File readable true (map Utf8.byte_of (Json.dumps (stock_data st))) /\
    Utf8.decode (map Utf8.byte_of (Json.dumps (stock_data st)))
    = Some (Json.dumps (stock_data st)) /\
    Forall (fun c => c = 10 \/ 32 <= c <= 126) (Json.dumps (stock_data st)) /\
    sink (snd (save_data file_path st)) = sink st.
Proof.
  intros Hkeys Hfits Hpath Hopen.
  pose proof (save_data_encodes st Hkeys) as Henc.
  pose proof (dumps_out _ Hkeys) as Hout.
  assert (Hdec : Utf8.decode (map Utf8.byte_of (Json.dumps (stock_data st)))
                 = Some (Json.dumps (stock_data st)))
    by now apply utf8_decode_ascii, json_out_char_ascii.
  run_io. rewrite Hpath.
  destruct (disk st file_path) as [[|]| |r [|] content|why] eqn:Hd;
    try discriminate Hopen;
    cbn [stock_data logs sink disk clock recursion_room fst snd];
    rewrite (dump_fits _ Hfits); cbn [fst snd];
    rewrite Henc, pystr_eqb_refl; cbn [fst snd disk sink app];
    rewrite pystr_eqb_refl; eexists; (split; [reflexivity|]);
    (split; [reflexivity|]); (split; [exact Hdec|]);
    (split; [exact Hout | reflexivity]).
Qed.

Lemma save_data_overwrites_witness :
  exists readable,
    fst (save_data default_file_path
           (mkStore [(str "apple", 7)] None []
              (fun _ => File true true latin1_inventory) 0 990)) = Ok tt /\
    disk (snd (save_data default_file_path
                 (mkStore [(str "apple", 7)] None []
                    (fun _ => File true true latin1_inventory) 0 990)))
      default_file_path
    = File readable true (map Utf8.byte_of (Json.dumps [(str "apple", 7)])) /\
    Utf8.decode (map Utf8.byte_of (Json.dumps [(str "apple", 7)]))
    = Some (Json.dumps [(str "apple", 7)]) /\
    Forall (fun c => c = 10 \/ 32 <= c <= 126) (Json.dumps [(str "apple", 7)])
    /\
    sink (snd (save_data default_file_path
                 (mkStore [(str "apple", 7)] None []
                    (fun _ => File true true latin1_inventory) 0 990))) = [].
Proof.
  apply (save_data_overwrites
           (mkStore [(str "apple", 7)] None []
              (fun _ => File true true latin1_inventory) 0 990)
           default_file_path).
  - repeat constructor.
  - repeat constructor.
  - reflexivity.
  - reflexivity.
Defined.

(** ** What a decoded file can hold *)

Lemma byte_val_range (b : byte) : 0 <= Utf8.byte_val b < 256.
Proof.
  unfold Utf8.byte_val. pose proof (Byte.to_N_bounded b). lia.
Qed.

Lemma land_low_bits (v : Z) (n : Z) :
  0 <= n -> Z.land v (Z.ones n) = v mod 2 ^ n.
Proof. intros Hn. now apply Z.land_ones. Qed.

Lemma lor_shiftl_sum (a b n : Z) :
  0 <= n -> 0 <= b < 2 ^ n -> Z.lor (Z.shiftl a n) b = a * 2 ^ n + b.
Proof.
  intros Hn Hb. rewrite lor_shiftl_low by assumption.
  now rewrite Z.shiftl_mul_pow2.
Qed.

Lemma cont_bits_value (b : byte) :
  0x80 <= Utf8.byte_val b <= 0xBF ->
  Utf8.cont_bits b = Utf8.byte_val b - 0x80.
Proof.
  intros Hb. unfold Utf8.cont_bits. change 0x3F with (Z.ones 6).
  rewrite land_low_bits by lia. change (2 ^ 6) with 64.
  pose proof (Z.div_mod (Utf8.byte_val b) 64 ltac:(lia)).
  pose proof (Z.mod_pos_bound (Utf8.byte_val b) 64 ltac:(lia)). lia.
Qed.

Lemma is_cont_range (b : byte) :
  Utf8.is_cont b = true -> 0x80 <= Utf8.byte_val b <= 0xBF.
Proof. unfold Utf8.is_cont. lia. Qed.

(** The code point of a two-byte sequence. *)
Lemma decode2_value (v0 : Z) (b1 : byte) :
  0xC2 <= v0 < 0xE0 -> 0x80 <= Utf8.byte_val b1 <= 0xBF ->
  0x80 <= Z.lor (Z.shiftl (Z.land v0 0x1F) 6) (Utf8.cont_bits b1) < 0x800.
Proof.
  intros H0 H1. rewrite cont_bits_value by assumption.
  change 0x1F with (Z.ones 5). rewrite land_low_bits by lia.
  change (2 ^ 5) with 32.
  rewrite lor_shiftl_sum; [|lia|change (2 ^ 6) with 64; lia].
  change (2 ^ 6) with 64.
  pose proof (Z.div_mod v0 32 ltac:(lia)).
  pose proof (Z.mod_pos_bound v0 32 ltac:(lia)). lia.
Qed.

(** The code point of a three-byte sequence, with the bounds the decoder
    puts on the second byte. *)
Lemma decode3_value (v0 : Z) (b1 b2 : byte) :
  0xE0 <= v0 < 0xF0 ->
  (if v0 =? 0xE0 then 0xA0 else 0x80) <= Utf8.byte_val b1 ->
  Utf8.byte_val b1 <= (if v0 =? 0xED then 0x9F else 0xBF) ->
  0x80 <= Utf8.byte_val b2 <= 0xBF ->
  scalar_value
    (Z.lor (Z.shiftl (Z.land v0 0x0F) 12)
       (Z.lor (Z.shiftl (Utf8.cont_bits b1) 6) (Utf8.cont_bits b2))).
Proof.
  intros H0 Hlo Hhi H2.
  assert (H1 : 0x80 <= Utf8.byte_val b1 <= 0xBF).
  { destruct (v0 =? 0xE0); destruct (v0 =? 0xED); lia. }
  rewrite !cont_bits_value by assumption.
  change 0x0F with (Z.ones 4). rewrite land_low_bits by lia.
  change (2 ^ 4) with 16.
  rewrite (lor_shiftl_sum (Utf8.byte_val b1 - 0x80));
    [|lia|change (2 ^ 6) with 64; lia].
  change (2 ^ 6) with 64.
  rewrite lor_shiftl_sum; [|lia|change (2 ^ 12) with 4096; lia].
  change (2 ^ 12) with 4096.
  pose proof (Z.div_mod v0 16 ltac:(lia)).
  pose proof (Z.mod_pos_bound v0 16 ltac:(lia)).
  unfold scalar_value.
  destruct (Z.eqb_spec v0 0xE0); destruct (Z.eqb_spec v0 0xED); lia.
Qed.

(** The code point of a four-byte sequence. *)
Lemma decode4_value (v0 : Z) (b1 b2 b3 : byte) :
  0xF0 <= v0 < 0xF5 ->
  (if v0 =? 0xF0 then 0x90 else 0x80) <= Utf8.byte_val b1 ->
  Utf8.byte_val b1 <= (if v0 =? 0xF4 then 0x8F else 0xBF) ->
  0x80 <= Utf8.byte_val b2 <= 0xBF -> 0x80 <= Utf8.byte_val b3 <= 0xBF ->
  scalar_value
    (Z.lor (Z.shiftl (Z.land v0 0x07) 18)
       (Z.lor (Z.shiftl (Utf8.cont_bits b1) 12)
          (Z.lor (Z.shiftl (Utf8.cont_bits b2) 6) (Utf8.cont_bits b3)))).
Proof.
  intros H0 Hlo Hhi H2 H3.
  assert (H1 : 0x80 <= Utf8.byte_val b1 <= 0xBF).
  { destruct (v0 =? 0xF0); destruct (v0 =? 0xF4); lia. }
  rewrite !cont_bits_value by assumption.
  change 0x07 with (Z.ones 3). rewrite land_low_bits by lia.
  change (2 ^ 3) with 8.
  rewrite (lor_shiftl_sum (Utf8.byte_val b2 - 0x80));
    [|lia|change (2 ^ 6) with 64; lia].
  change (2 ^ 6) with 64.
  rewrite (lor_shiftl_sum (Utf8.byte_val b1 - 0x80));
    [|lia|change (2 ^ 12) with 4096; lia].
  change (2 ^ 12) with 4096.
  rewrite lor_shiftl_sum; [|lia|change (2 ^ 18) with 262144; lia].
  change (2 ^ 18) with 262144.
  pose proof (Z.div_mod v0 8 ltac:(lia)).
  pose proof (Z.mod_pos_bound v0 8 ltac:(lia)).
  unfold scalar_value.
  destruct (Z.eqb_spec v0 0xF0); destruct (Z.eqb_spec v0 0xF4); lia.
Qed.

Lemma some_eq_inv {A} (x y : A) : Some x = Some y -> y = x.
Proof. congruence. Qed.

(** Strict UTF-8 decodes to scalar values only. *)
Lemma utf8_decode_scalar (n : nat) :
  forall bs text,
    (List.length bs <= n)%nat ->
    Utf8.decode bs = Some text -> Forall scalar_value text.
Proof.
  induction n as [|n IH]; intros bs text Hn Hdec.
  - destruct bs; [|cbn in Hn; lia]. injection Hdec as <-. constructor.
  - destruct bs as [|b0 r0]; [injection Hdec as <-; constructor|].
    cbn [List.length] in Hn. cbn [Utf8.decode] in Hdec. cbv zeta in Hdec.
    pose proof (byte_val_range b0) as Hb0.
    destruct (Z.ltb_spec (Utf8.byte_val b0) 0x80).
    { destruct (Utf8.decode r0) as [t|] eqn:E; [|discriminate].
      cbn [option_map] in Hdec. apply some_eq_inv in Hdec. subst text.
      constructor; [unfold scalar_value; lia|].
      apply (IH r0); [lia | exact E]. }
    destruct (Z.ltb_spec (Utf8.byte_val b0) 0xC2); [discriminate|].
    destruct (Z.ltb_spec (Utf8.byte_val b0) 0xE0).
    { destruct r0 as [|b1 r1]; [discriminate|]. cbn [List.length] in Hn.
      destruct (Utf8.is_cont b1) eqn:Hc; [|discriminate].
      apply is_cont_range in Hc.
      destruct (Utf8.decode r1) as [t|] eqn:E; [|discriminate].
      cbn [option_map] in Hdec. apply some_eq_inv in Hdec. subst text.
      constructor; [|apply (IH r1); [lia | exact E]].
      pose proof (decode2_value (Utf8.byte_val b0) b1 ltac:(lia) Hc).
      unfold scalar_value. lia. }
    destruct (Z.ltb_spec (Utf8.byte_val b0) 0xF0).
    { destruct r0 as [|b1 [|b2 r2]]; try discriminate.
      cbn [List.length] in Hn.
      match type of Hdec with
      | (if ?a && ?b && ?c then _ else _) = _ =>
          destruct a eqn:Ha; destruct b eqn:Hb; destruct c eqn:Hc;
          cbn [andb] in Hdec; try discriminate
      end.
      apply is_cont_range in Hc.
      destruct (Utf8.decode r2) as [t|] eqn:E; [|discriminate].
      cbn [option_map] in Hdec. apply some_eq_inv in Hdec. subst text.
      constructor; [|apply (IH r2); [lia | exact E]].
      apply decode3_value; lia. }
    destruct (Z.ltb_spec (Utf8.byte_val b0) 0xF5); [|discriminate].
    destruct r0 as [|b1 [|b2 [|b3 r3]]]; try discriminate.
    cbn [List.length] in Hn.
    match type of Hdec with
    | (if ?a && ?b && ?c && ?d then _ else _) = _ =>
        destruct a eqn:Ha; destruct b eqn:Hb; destruct c eqn:Hc;
        destruct d eqn:Hd; cbn [andb] in Hdec; try discriminate
    end.
    apply is_cont_range in Hc. apply is_cont_range in Hd.
    destruct (Utf8.decode r3) as [t|] eqn:E; [|discriminate].
    cbn [option_map] in Hdec. apply some_eq_inv in Hdec. subst text.
    constructor; [|apply (IH r3); [lia | exact E]].
    apply decode4_value; lia.
Qed.

Lemma universal_newlines_scalar (n : nat) :
  forall s,
    (List.length s <= n)%nat ->
    Forall scalar_value s -> Forall scalar_value (universal_newlines s).
Proof.
  assert (H10 : scalar_value 10) by (unfold scalar_value; lia).
  induction n as [|n IH]; intros s Hn Hs.
  - destruct s; [constructor | cbn in Hn; lia].
  - destruct s as [|c rest]; [constructor|].
    cbn [List.length] in Hn. inversion Hs as [|? ? Hc Hrest]; subst.
    cbn [universal_newlines]. destruct (c =? 13).
    + destruct rest as [|c' rest']; [constructor; [exact H10 | constructor]|].
      cbn [List.length] in Hn. inversion Hrest as [|? ? Hc' Hrest']; subst.
      destruct (c' =? 10); constructor; try exact H10;
        apply IH; try assumption; cbn [List.length]; lia.
    + constructor; [exact Hc|]. apply IH; [lia | exact Hrest].
Qed.

(** ** What scanning a decoded text can yield *)

Lemma is_suffix_refl (s : pystr) : is_suffix s s.
Proof. now exists []. Qed.

Lemma is_suffix_cons (c : Z) (rest s : pystr) :
  is_suffix rest s -> is_suffix rest (c :: s).
Proof. intros (read & ->). now exists (c :: read). Qed.

Lemma is_suffix_trans (a b c : pystr) :
  is_suffix a b -> is_suffix b c -> is_suffix a c.
Proof.
  intros (r1 & ->) (r2 & ->). exists (r2 ++ r1). now rewrite app_assoc.
Qed.

Lemma Forall_suffix (P : Z -> Prop) (rest s : pystr) :
  is_suffix rest s -> Forall P s -> Forall P rest.
Proof. intros (read & ->) H. now apply Forall_app in H. Qed.

Lemma hex_value_range (c a : Z) : Json.hex_value c = Some a -> 0 <= a < 16.
Proof.
  unfold Json.hex_value.
  destruct (Z.leb_spec 48 c); destruct (Z.leb_spec c 57); cbn [andb];
    try (intros [= <-]; lia);
    destruct (Z.leb_spec 97 c); destruct (Z.leb_spec c 102); cbn [andb];
    try (intros [= <-]; lia);
    destruct (Z.leb_spec 65 c); destruct (Z.leb_spec c 70); cbn [andb];
    try (intros [= <-]; lia); discriminate.
Qed.

Lemma hex4_value_range (h1 h2 h3 h4 u : Z) :
  Json.hex4_value h1 h2 h3 h4 = Some u -> 0 <= u < 0x10000.
Proof.
  unfold Json.hex4_value.
  destruct (Json.hex_value h1) as [a|] eqn:E1; [|discriminate].
  destruct (Json.hex_value h2) as [b|] eqn:E2; [|discriminate].
  destruct (Json.hex_value h3) as [c|] eqn:E3; [|discriminate].
  destruct (Json.hex_value h4) as [d|] eqn:E4; [|discriminate].
  apply hex_value_range in E1, E2, E3, E4. intros [= <-]. lia.
Qed.

Lemma simple_escape_scalar (e ch : Z) :
  Json.simple_escape e = Some ch -> scalar_value ch.
Proof.
  unfold Json.simple_escape, scalar_value.
  repeat match goal with
         | |- context [if ?b then _ else _] =>
             destruct b; [intros [= <-]; lia|]
         end.
  discriminate.
Qed.

Lemma scan_chunks_ok (n : nat) :
  forall s cs rest,
    (List.length s <= n)%nat ->
    Forall scalar_value s ->
    Json.scan_chunks s = Some (cs, rest) ->
    Forall chunk_ok cs /\ is_suffix rest s.
Proof.
  induction n as [|n IH]; intros s cs rest Hn Hs Hscan.
  - destruct s; [discriminate | cbn in Hn; lia].
  - destruct s as [|c r]; [discriminate|]. cbn [Json.scan_chunks] in Hscan.
    cbn [List.length] in Hn. inversion Hs as [|? ? Hc Hr]; subst.
    destruct (c =? 34).
    { apply some_eq_inv in Hscan. injection Hscan as -> ->.
      split; [constructor | apply is_suffix_cons, is_suffix_refl]. }
    destruct (c =? 92).
    + destruct r as [|e r1]; [discriminate|]. cbn [List.length] in Hn.
      inversion Hr as [|? ? He Hr1]; subst.
      destruct (e =? 117).
      * destruct r1 as [|h1 [|h2 [|h3 [|h4 r2]]]]; try discriminate.
        cbn [List.length] in Hn.
        assert (Hr2 : Forall scalar_value r2).
        { apply (Forall_suffix _ r2 (h1 :: h2 :: h3 :: h4 :: r2));
            [now exists [h1; h2; h3; h4] | exact Hr1]. }
        destruct (Json.hex4_value h1 h2 h3 h4) as [u|] eqn:Eh; [|discriminate].
        destruct (Json.scan_chunks r2) as [[cs' rest']|] eqn:E; [|discriminate].
        apply some_eq_inv in Hscan. injection Hscan as -> ->.
        destruct (IH r2 cs' rest' ltac:(lia) Hr2 E) as [Hcs Hsuf].
        split.
        -- constructor; [|exact Hcs]. cbn [chunk_ok].
           now apply hex4_value_range in Eh.
        -- apply (is_suffix_trans _ r2); [exact Hsuf|].
           now exists [c; e; h1; h2; h3; h4].
      * destruct (Json.simple_escape e) as [ch|] eqn:Ee; [|discriminate].
        destruct (Json.scan_chunks r1) as [[cs' rest']|] eqn:E; [|discriminate].
        apply some_eq_inv in Hscan. injection Hscan as -> ->.
        destruct (IH r1 cs' rest' ltac:(lia) Hr1 E) as [Hcs Hsuf].
        split.
        -- constructor; [|exact Hcs]. cbn [chunk_ok].
           now apply simple_escape_scalar in Ee.
        -- now apply is_suffix_cons, is_suffix_cons.
    + destruct (c <? 32); [discriminate|].
      destruct (Json.scan_chunks r) as [[cs' rest']|] eqn:E; [|discriminate].
      apply some_eq_inv in Hscan. injection Hscan as -> ->.
      destruct (IH r cs' rest' ltac:(lia) Hr E) as [Hcs Hsuf].
      split; [constructor; [exact Hc | exact Hcs] | now apply is_suffix_cons].
Qed.

(** The code point two escaped halves join into. *)
Lemma joined_pair_range (u u2 : Z) :
  Json.is_high_surrogate u && Json.is_low_surrogate u2 = true ->
  0x10000 <= 0x10000 + Z.lor (Z.shiftl (u - 0xD800) 10) (u2 - 0xDC00)
  < 0x110000.
Proof.
  unfold Json.is_high_surrogate, Json.is_low_surrogate. intros H.
  rewrite lor_shiftl_sum; [|lia|change (2 ^ 10) with 1024; lia].
  change (2 ^ 10) with 1024. lia.
Qed.

(** The first character of what an escape and the pieces after it join
    into: the value of the escape, or a code point above the basic plane. *)
Lemma join_surrogates_esc_head (u : Z) (more : list Json.chunk) :
  exists c tl,
    Json.join_surrogates (Json.Esc u :: more) = c :: tl /\
    (c = u \/ 0x10000 <= c).
Proof.
  destruct more as [|[c2|u2] more2]; cbn [Json.join_surrogates].
  - eexists _, _. split; [reflexivity | now left].
  - eexists _, _. split; [reflexivity | now left].
  - destruct (Json.is_high_surrogate u && Json.is_low_surrogate u2) eqn:E.
    + eexists _, _. split; [reflexivity|]. right.
      now apply joined_pair_range in E.
    + eexists _, _. split; [reflexivity | now left].
Qed.

Lemma surrogate_pair_free_cons (c : Z) (s : pystr) :
  (forall c2 tl, s = c2 :: tl ->
     Json.is_high_surrogate c && Json.is_low_surrogate c2 = false) ->
  surrogate_pair_free s = true ->
  surrogate_pair_free (c :: s) = true.
Proof.
  intros Hhead Hfree. cbn [surrogate_pair_free].
  destruct s as [|c2 tl]; [reflexivity|].
  rewrite (Hhead c2 tl eq_refl). cbn [negb andb]. exact Hfree.
Qed.

Lemma code_point_intro (c : Z) : 0 <= c < 0x110000 -> code_point c = true.
Proof.
  intros Hc. unfold code_point. apply andb_true_intro.
  split; [apply Z.leb_le | apply Z.ltb_lt]; lia.
Qed.

Lemma not_high_surrogate (c : Z) :
  ~ (0xD800 <= c <= 0xDBFF) -> Json.is_high_surrogate c = false.
Proof.
  intros H. unfold Json.is_high_surrogate.
  destruct (Z.leb_spec 0xD800 c); destruct (Z.leb_spec c 0xDBFF);
    cbn [andb]; auto. lia.
Qed.

Lemma not_low_surrogate (c : Z) :
  ~ (0xDC00 <= c <= 0xDFFF) -> Json.is_low_surrogate c = false.
Proof.
  intros H. unfold Json.is_low_surrogate.
  destruct (Z.leb_spec 0xDC00 c); destruct (Z.leb_spec c 0xDFFF);
    cbn [andb]; auto. lia.
Qed.

Lemma join_surrogates_ok (n : nat) :
  forall cs,
    (List.length cs <= n)%nat -> Forall chunk_ok cs ->
    str_round_trips (Json.join_surrogates cs) = true.
Proof.
  unfold str_round_trips.
  induction n as [|n IH]; intros cs Hn Hcs.
  - destruct cs; [reflexivity | cbn in Hn; lia].
  - destruct cs as [|ch more]; [reflexivity|]. cbn [List.length] in Hn.
    inversion Hcs as [|? ? Hch Hmore]; subst.
    destruct ch as [c|u]; cbn [chunk_ok] in Hch.
    + (* a character of the text *)
      cbn [Json.join_surrogates forallb].
      specialize (IH more ltac:(lia) Hmore). apply andb_prop in IH.
      destruct IH as [IH1 IH2]. rewrite IH1.
      rewrite code_point_intro by (unfold scalar_value in Hch; lia).
      cbn [andb]. apply surrogate_pair_free_cons; [|exact IH2].
      intros c2 tl _. rewrite not_high_surrogate; [reflexivity|].
      unfold scalar_value in Hch. lia.
    + (* an escape *)
      assert (Hkeep :
                forallb code_point (u :: Json.join_surrogates more)
                && surrogate_pair_free (u :: Json.join_surrogates more) = true
                \/ Json.join_surrogates (Json.Esc u :: more)
                   <> u :: Json.join_surrogates more).
      { destruct more as [|[c2|u2] more2].
        - left. cbn [Json.join_surrogates forallb surrogate_pair_free].
          rewrite code_point_intro by lia. reflexivity.
        - left. cbn [List.length] in Hn.
          specialize (IH (Json.Raw c2 :: more2)
                        ltac:(cbn [List.length]; lia) Hmore).
          apply andb_prop in IH. destruct IH as [IH1 IH2].
          cbn [forallb]. rewrite IH1.
          rewrite code_point_intro by lia.
          cbn [andb]. apply surrogate_pair_free_cons; [|exact IH2].
          cbn [Json.join_surrogates]. intros c3 tl [= <- _].
          inversion Hmore as [|? ? Hc2 _]; subst. cbn [chunk_ok] in Hc2.
          rewrite (not_low_surrogate c2); [apply andb_false_r|].
          unfold scalar_value in Hc2. lia.
        - destruct (Json.is_high_surrogate u && Json.is_low_surrogate u2)
            eqn:Epair.
          + right. cbn [Json.join_surrogates]. rewrite Epair.
            intros Heq. pose proof (joined_pair_range u u2 Epair) as Hr.
            assert (Hu : 0x10000
                         + Z.lor (Z.shiftl (u - 0xD800) 10) (u2 - 0xDC00) = u)
              by congruence.
            lia.
          + left. cbn [List.length] in Hn.
            specialize (IH (Json.Esc u2 :: more2)
                          ltac:(cbn [List.length]; lia) Hmore).
            apply andb_prop in IH. destruct IH as [IH1 IH2].
            cbn [forallb]. rewrite IH1.
            rewrite code_point_intro by lia.
            cbn [andb]. apply surrogate_pair_free_cons; [|exact IH2].
            intros c3 tl Hhd.
            destruct (join_surrogates_esc_head u2 more2)
              as (c & tl' & Hj & [->|Hbig]); rewrite Hj in Hhd;
              injection Hhd as <- _; [exact Epair|].
            rewrite (not_low_surrogate c); [apply andb_false_r | lia]. }
      destruct more as [|[c2|u2] more2];
        try (destruct Hkeep as [Hk|Hk]; [exact Hk | now elim Hk]).
      cbn [Json.join_surrogates] in *.
      destruct (Json.is_high_surrogate u && Json.is_low_surrogate u2) eqn:Epair;
        [|destruct Hkeep as [Hk|Hk]; [exact Hk | now elim Hk]].
      (* a joined pair *)
      pose proof (joined_pair_range u u2 Epair) as Hrange.
      inversion Hmore as [|? ? _ Hmore2]; subst.
      cbn [List.length] in Hn.
      specialize (IH more2 ltac:(lia) Hmore2). apply andb_prop in IH.
      destruct IH as [IH1 IH2]. cbn [forallb]. rewrite IH1.
      rewrite code_point_intro by lia.
      cbn [andb]. apply surrogate_pair_free_cons; [|exact IH2].
      intros c3 tl _. rewrite not_high_surrogate; [reflexivity | lia].
Qed.

(** A string literal of a decoded text is a string that round-trips. *)
Lemma scan_string_ok (s key rest : pystr) :
  Forall scalar_value s ->
  Json.scan_string s = Some (key, rest) ->
  str_round_trips key = true /\ is_suffix rest s.
Proof.
  intros Hs. unfold Json.scan_string.
  destruct (Json.scan_chunks s) as [[cs rest']|] eqn:E; [|discriminate].
  intros H. apply some_eq_inv in H. injection H as -> ->.
  destruct (scan_chunks_ok _ s cs rest' (Nat.le_refl _) Hs E) as [Hcs Hsuf].
  split; [|exact Hsuf]. now apply (join_surrogates_ok (List.length cs)).
Qed.

(** ** What the decoder leaves to read *)

Lemma skip_ws_suffix (s : pystr) : is_suffix (Json.skip_ws s) s.
Proof.
  induction s as [|c s IH]; cbn [Json.skip_ws]; [apply is_suffix_refl|].
  destruct (Json.is_ws c); [now apply is_suffix_cons | apply is_suffix_refl].
Qed.

Lemma skip_ws_cons_suffix (s r : pystr) (c : Z) :
  Json.skip_ws s = c :: r -> is_suffix r s.
Proof.
  intros H. apply (is_suffix_trans _ (c :: r)).
  - apply is_suffix_cons, is_suffix_refl.
  - rewrite <- H. apply skip_ws_suffix.
Qed.

Lemma span_digits_suffix (s ds rest : pystr) :
  Json.span_digits s = (ds, rest) -> is_suffix rest s.
Proof.
  revert ds rest. induction s as [|c s IH]; intros ds rest;
    cbn [Json.span_digits].
  - intros [= _ <-]. apply is_suffix_refl.
  - destruct (Json.is_digit c).
    + destruct (Json.span_digits s) as [ds' rest'] eqn:E.
      intros [= _ <-]. apply is_suffix_cons. now apply (IH ds').
    + intros [= _ <-]. apply is_suffix_refl.
Qed.

Lemma scan_fraction_suffix (s frac rest : pystr) :
  Json.scan_fraction s = (frac, rest) -> is_suffix rest s.
Proof.
  unfold Json.scan_fraction.
  destruct s as [|c r]; [intros [= _ <-]; apply is_suffix_refl|].
  destruct (c =? 46); [|intros [= _ <-]; apply is_suffix_refl].
  destruct (Json.span_digits r) as [ds rest'] eqn:E.
  apply span_digits_suffix in E.
  destruct ds; intros [= _ <-];
    [apply is_suffix_refl | now apply is_suffix_cons].
Qed.

Lemma scan_exponent_suffix (s expo rest : pystr) :
  Json.scan_exponent s = (expo, rest) -> is_suffix rest s.
Proof.
  unfold Json.scan_exponent.
  destruct s as [|e r]; [intros [= _ <-]; apply is_suffix_refl|].
  destruct ((e =? 101) || (e =? 69)); [|intros [= _ <-]; apply is_suffix_refl].
  assert (H : forall sign r1,
             is_suffix r1 r ->
             (let (ds, rest0) := Json.span_digits r1 in
              match ds with
              | [] => ([], e :: r)
              | _ :: _ => (e :: sign ++ ds, rest0)
              end) = (expo, rest) ->
             is_suffix rest (e :: r)).
  { intros sign r1 Hr1. destruct (Json.span_digits r1) as [ds rest'] eqn:E.
    apply span_digits_suffix in E.
    destruct ds; intros [= _ <-]; [apply is_suffix_refl|].
    apply is_suffix_cons. now apply (is_suffix_trans _ r1). }
  destruct r as [|c r']; [intros Hg; apply (H [] []);
                          [apply is_suffix_refl | exact Hg]|].
  destruct ((c =? 45) || (c =? 43)); intros Hg.
  - apply (H [c] r'); [apply is_suffix_cons, is_suffix_refl | exact Hg].
  - apply (H [] (c :: r')); [apply is_suffix_refl | exact Hg].
Qed.

Lemma span_digits_digits (s ds rest : pystr) :
  Json.span_digits s = (ds, rest) -> forallb Json.is_digit ds = true.
Proof.
  revert ds rest. induction s as [|c s IH]; intros ds rest;
    cbn [Json.span_digits].
  - intros [= <- _]. reflexivity.
  - destruct (Json.is_digit c) eqn:Hc.
    + destruct (Json.span_digits s) as [ds' rest'] eqn:E.
      intros [= <- _]. cbn [forallb]. rewrite Hc. now apply (IH ds' rest').
    + intros [= <- _]. reflexivity.
Qed.

Lemma finish_number_suffix (negative : bool) (intpart s rest : pystr)
    (v : json) :
  Json.finish_number negative intpart s = Ok (v, rest) -> is_suffix rest s.
Proof.
  unfold Json.finish_number.
  destruct (Json.scan_fraction s) as [frac rest1] eqn:E1.
  destruct (Json.scan_exponent rest1) as [expo rest2] eqn:E2.
  apply scan_fraction_suffix in E1. apply scan_exponent_suffix in E2.
  destruct frac, expo;
    try destruct (Z.of_nat (List.length intpart) >? int_max_str_digits);
    try discriminate; intros [= _ <-]; auto;
    now apply (is_suffix_trans _ rest1).
Qed.

(** The number [finish_number] builds, when it is an integer, has at most
    [int_max_str_digits] digits. *)
Lemma finish_number_ok (negative : bool) (intpart s rest : pystr)
    (v : json) :
  forallb Json.is_digit intpart = true ->
  Json.finish_number negative intpart s = Ok (v, rest) -> loaded_ok v.
Proof.
  intros Hds. unfold Json.finish_number.
  destruct (Json.scan_fraction s) as [frac rest1].
  destruct (Json.scan_exponent rest1) as [expo rest2].
  destruct frac, expo; try (intros [= <- _]; exact I).
  destruct (Z.gtb_spec (Z.of_nat (List.length intpart)) int_max_str_digits);
    [discriminate|].
  intros [= <- _]. cbn [loaded_ok loaded_int_ok]. apply digits_fit; [exact Hds|].
  lia.
Qed.

Lemma scan_number_suffix (s rest : pystr) (v : json) :
  Json.scan_number s = Some (Ok (v, rest)) -> loaded_ok v /\ is_suffix rest s.
Proof.
  unfold Json.scan_number.
  assert (H : forall negative s1,
             is_suffix s1 s ->
             match s1 with
             | [] => None
             | d :: r =>
                 if d =? 48 then Some (Json.finish_number negative [48] r)
                 else if Json.is_digit d then
                   let (ds, r') := Json.span_digits r in
                   Some (Json.finish_number negative (d :: ds) r')
                 else None
             end = Some (Ok (v, rest)) ->
             loaded_ok v /\ is_suffix rest s).
  { intros negative [|d r] Hl; [discriminate|].
    assert (Hr : is_suffix r s).
    { apply (is_suffix_trans _ (d :: r)); [|exact Hl].
      apply is_suffix_cons, is_suffix_refl. }
    destruct (d =? 48).
    - intros [= E]. split; [now apply finish_number_ok in E|].
      apply finish_number_suffix in E. now apply (is_suffix_trans _ r).
    - destruct (Json.is_digit d) eqn:Hd; [|discriminate].
      destruct (Json.span_digits r) as [ds r'] eqn:Es.
      pose proof (span_digits_digits _ _ _ Es) as Hds.
      apply span_digits_suffix in Es.
      intros [= E]. split.
      + apply finish_number_ok in E; [exact E|].
        cbn [forallb]. now rewrite Hd.
      + apply finish_number_suffix in E.
        apply (is_suffix_trans _ r'); [exact E|].
        now apply (is_suffix_trans _ r). }
  destruct s as [|c r]; [discriminate|].
  destruct (c =? 45); intros Hg.
  - apply (H true r); [apply is_suffix_cons, is_suffix_refl | exact Hg].
  - apply (H false (c :: r)); [apply is_suffix_refl | exact Hg].
Qed.

Lemma strip_prefix_suffix (p s rest : pystr) :
  Json.strip_prefix p s = Some rest -> is_suffix rest s.
Proof.
  revert s. induction p as [|a p IH]; intros s; cbn [Json.strip_prefix].
  - intros [= <-]. apply is_suffix_refl.
  - destruct s as [|b s]; [discriminate|].
    destruct (a =? b); [|discriminate].
    intros H. apply is_suffix_cons. now apply IH.
Qed.

Lemma scan_scalar_suffix (s rest : pystr) (v : json) :
  Json.scan_scalar s = Ok (v, rest) -> loaded_ok v /\ is_suffix rest s.
Proof.
  unfold Json.scan_scalar.
  repeat match goal with
         | |- context [Json.strip_prefix ?p s] =>
             let E := fresh "E" in
             destruct (Json.strip_prefix p s) eqn:E;
             [apply strip_prefix_suffix in E; intros [= <- <-];
              split; [exact I | exact E]|]
         | |- context [Json.scan_number s] =>
             let E := fresh "E" in
             destruct (Json.scan_number s) as [[[v' rest']|e]|] eqn:E;
             [apply scan_number_suffix in E; intros [= <- <-]; exact E
             |discriminate|]
         end.
  discriminate.
Qed.

Lemma dict_of_pairs_Forall {V} (P : pystr * V -> Prop)
    (l : list (pystr * V)) :
  Forall P l -> dict_wf (dict_of_pairs l) /\ Forall P (dict_of_pairs l).
Proof.
  unfold dict_of_pairs.
  assert (H : forall d0 : dict V,
             dict_wf d0 -> Forall P d0 -> Forall P l ->
             dict_wf (fold_left (fun d kv => dict_setitem d (fst kv) (snd kv))
                        l d0) /\
             Forall P
               (fold_left (fun d kv => dict_setitem d (fst kv) (snd kv)) l d0)).
  { induction l as [|[k v] l IH]; intros d0 Hwf Hd0 Hl; cbn [fold_left];
      [now split|].
    inversion Hl as [|? ? Hk Hl']; subst. cbn [fst snd] in *.
    apply IH; [now apply dict_wf_setitem | | exact Hl'].
    apply Forall_dict_setitem; auto. now intros k' -> v' _. }
  intros Hl. apply H; [constructor | constructor | exact Hl].
Qed.

(** A value that is a member's value. *)
Lemma loaded_ok_int (v : json) : loaded_ok v -> loaded_int_ok v.
Proof. destruct v; cbn [loaded_ok loaded_int_ok]; auto. Qed.

(** Every value the descent builds from a decoded text can be written
    back: its integers have at most [int_max_str_digits] digits, and an
    object has the keys of a dictionary, each a string that round-trips. *)
Lemma parse_keys_ok (fuel : nat) :
  forall depth s v rest,
    Forall scalar_value s ->
    (Json.parse_value fuel depth s = Ok (v, rest) ->
     loaded_ok v /\ is_suffix rest s) /\
    (forall acc, Json.parse_elements fuel depth s acc = Ok (v, rest) ->
                 loaded_ok v /\ is_suffix rest s) /\
    (forall acc,
       Forall member_ok acc ->
       Json.parse_members fuel depth s acc = Ok (v, rest) ->
       loaded_ok v /\ is_suffix rest s).
Proof.
  induction fuel as [|fuel IH]; intros depth s v rest Hs;
    [repeat split; intros; discriminate|].
  assert (IHv : forall depth s v rest,
             Forall scalar_value s ->
             Json.parse_value fuel depth s = Ok (v, rest) ->
             loaded_ok v /\ is_suffix rest s)
    by (intros d0 s0 v0 rest0 H0; now apply (IH d0 s0 v0 rest0 H0)).
  assert (IHe : forall depth s v rest acc,
             Forall scalar_value s ->
             Json.parse_elements fuel depth s acc = Ok (v, rest) ->
             loaded_ok v /\ is_suffix rest s)
    by (intros d0 s0 v0 rest0 acc0 H0; now apply (IH d0 s0 v0 rest0 H0)).
  assert (IHm : forall depth s v rest acc,
             Forall scalar_value s ->
             Forall member_ok acc ->
             Json.parse_members fuel depth s acc = Ok (v, rest) ->
             loaded_ok v /\ is_suffix rest s)
    by (intros d0 s0 v0 rest0 acc0 H0; now apply (IH d0 s0 v0 rest0 H0)).
  clear IH. split; [|split].
  - cbn [Json.parse_value]. destruct s as [|c r]; [discriminate|].
    assert (Hr : Forall scalar_value r) by now inversion Hs.
    destruct (c =? 34).
    { destruct (Json.scan_string r) as [[k rest']|] eqn:E; [|discriminate].
      apply (scan_string_ok _ _ _ Hr) in E. intros [= <- <-].
      split; [exact I | now apply is_suffix_cons]. }
    destruct (c =? 123).
    { destruct depth as [|depth]; [discriminate|].
      destruct (Json.skip_ws r) as [|c1 r1] eqn:E; [discriminate|].
      apply skip_ws_cons_suffix in E.
      destruct (c1 =? 125).
      { intros [= <- <-]. split; [|now apply is_suffix_cons].
        split; constructor. }
      destruct (c1 =? 34); [|discriminate].
      intros H. apply IHm in H;
        [|now apply (Forall_suffix _ r1 r) | constructor].
      destruct H as [Hv Hsuf]. split; [exact Hv|].
      apply is_suffix_cons. now apply (is_suffix_trans _ r1). }
    destruct (c =? 91).
    { destruct depth as [|depth]; [discriminate|].
      destruct (Json.skip_ws r) as [|c1 r1] eqn:E; [discriminate|].
      pose proof (skip_ws_suffix r) as Hsk. rewrite E in Hsk.
      destruct (c1 =? 93).
      { intros [= <- <-]. split; [exact I|]. apply is_suffix_cons.
        apply (is_suffix_trans _ (c1 :: r1)); [|exact Hsk].
        apply is_suffix_cons, is_suffix_refl. }
      intros H. apply IHe in H; [|now apply (Forall_suffix _ _ r)].
      destruct H as [Hv Hsuf]. split; [exact Hv|].
      apply is_suffix_cons. now apply (is_suffix_trans _ (c1 :: r1)). }
    apply scan_scalar_suffix.
  - intros acc. cbn [Json.parse_elements].
    destruct (Json.parse_value fuel depth s) as [[v' rest']|e] eqn:E;
      [|discriminate].
    apply IHv in E; [|exact Hs]. destruct E as [_ Hsuf].
    destruct (Json.skip_ws rest') as [|c r] eqn:Ew; [discriminate|].
    apply skip_ws_cons_suffix in Ew.
    assert (Hrs : is_suffix r s) by now apply (is_suffix_trans _ rest').
    destruct (c =? 93); [intros [= <- <-]; split; [exact I | exact Hrs]|].
    destruct (c =? 44); [|discriminate].
    pose proof (skip_ws_suffix r) as Hsk.
    assert (Hss : is_suffix (Json.skip_ws r) s)
      by now apply (is_suffix_trans _ r).
    intros H. apply IHe in H; [|now apply (Forall_suffix _ _ s)].
    destruct H as [Hv Hsuf']. split; [exact Hv|].
    now apply (is_suffix_trans _ (Json.skip_ws r)).
  - intros acc Hacc. cbn [Json.parse_members].
    destruct (Json.scan_string s) as [[key rest']|] eqn:E; [|discriminate].
    apply (scan_string_ok _ _ _ Hs) in E. destruct E as [Hkey Hsuf].
    destruct (Json.skip_ws rest') as [|c r] eqn:Ew; [discriminate|].
    apply skip_ws_cons_suffix in Ew.
    assert (Hrs : is_suffix r s) by now apply (is_suffix_trans _ rest').
    destruct (c =? 58); [|discriminate].
    assert (Hss : is_suffix (Json.skip_ws r) s).
    { apply (is_suffix_trans _ r); [apply skip_ws_suffix | exact Hrs]. }
    destruct (Json.parse_value fuel depth (Json.skip_ws r))
      as [[v' rest'']|e] eqn:Ev; [|discriminate].
    apply IHv in Ev; [|now apply (Forall_suffix _ _ s)].
    destruct Ev as [Hv' Hsuf2]. apply loaded_ok_int in Hv'.
    assert (Hr2 : is_suffix rest'' s)
      by now apply (is_suffix_trans _ (Json.skip_ws r)).
    destruct (Json.skip_ws rest'') as [|c' r'] eqn:Ew'; [discriminate|].
    apply skip_ws_cons_suffix in Ew'.
    assert (Hr's : is_suffix r' s) by now apply (is_suffix_trans _ rest'').
    assert (Hmember : member_ok (key, v')) by (split; assumption).
    assert (Hacc' : Forall member_ok ((key, v') :: acc))
      by (constructor; assumption).
    destruct (c' =? 125).
    { intros [= <- <-]. split; [|exact Hr's]. cbn [loaded_ok].
      apply (dict_of_pairs_Forall member_ok).
      apply Forall_app. split; [now apply Forall_rev|].
      constructor; [exact Hmember | constructor]. }
    destruct (c' =? 44); [|discriminate].
    destruct (Json.skip_ws r') as [|c'' r''] eqn:Ew''; [discriminate|].
    apply skip_ws_cons_suffix in Ew''.
    assert (Hr''s : is_suffix r'' s) by now apply (is_suffix_trans _ r').
    destruct (c'' =? 34); [|discriminate].
    intros H. apply IHm in H;
      [|now apply (Forall_suffix _ _ s) | exact Hacc'].
    destruct H as [Hv Hsuf3]. split; [exact Hv|].
    now apply (is_suffix_trans _ r'').
Qed.

Lemma loads_keys_ok (depth : nat) (s : pystr) (v : json) :
  Forall scalar_value s -> Json.loads depth s = Ok v -> loaded_ok v.
Proof.
  intros Hs. unfold Json.loads.
  destruct (match s with c :: _ => c =? 0xFEFF | [] => false end);
    [discriminate|].
  destruct (Json.parse_value (S (2 * List.length s)) depth (Json.skip_ws s))
    as [[v' rest]|e] eqn:E; [|discriminate].
  destruct (Json.skip_ws rest); [|discriminate]. intros [= <-].
  assert (Hss : Forall scalar_value (Json.skip_ws s)).
  { apply (Forall_suffix _ _ s); [apply skip_ws_suffix | exact Hs]. }
  destruct (parse_keys_ok (S (2 * List.length s)) depth (Json.skip_ws s) v'
              rest Hss) as [Hv _].
  now apply Hv in E.
Qed.

(** Whatever [load_data] returns, from whatever file, can be written
    back. *)
Lemma load_data_keys_ok (st st' : store) (file_path : pystr) (v : json) :
  load_data file_path st = (Ok v, st') -> loaded_ok v.
Proof.
  assert (Hempty : loaded_ok (JObj [])) by (split; constructor).
  assert (Hraise : forall e : exn,
             dispatch
               [(CFileNotFoundError,
                 fun _ => logging_warning (MsgLoadNotFound file_path) ;;
                          ret (JObj []));
                (CJSONDecodeError,
                 fun _ => logging_error (MsgLoadBadJson file_path) ;;
                          ret (JObj []));
                (IOError,
                 fun error =>
                   logging_error (MsgLoadIOError file_path error) ;;
                   ret (JObj []))] e st
             = (Ok v, st') -> loaded_ok v).
  { intros e. destruct e; cbn; intros [= <- _]; exact Hempty. }
  unfold load_data, try_except, json_load, file_read, open_read, bind, ret,
    raise.
  destruct (fs_path_error file_path) as [e|]; [apply Hraise|].
  destruct (disk st file_path) as [ok| |[|] w content|why]; try apply Hraise.
  destruct (Utf8.decode content) as [text|] eqn:Hdec; [|apply Hraise].
  destruct (Json.loads (recursion_room st) (universal_newlines text))
    as [v'|e] eqn:Hl; [|apply Hraise].
  intros [= <- _].
  apply (loads_keys_ok (recursion_room st) (universal_newlines text));
    [|exact Hl].
  apply (universal_newlines_scalar (List.length text)); [apply Nat.le_refl|].
  now apply (utf8_decode_scalar (List.length content) content).
Qed.

(** The bytes of [{"a": 1, "a": 2}]: one key, written twice. *)
Lemma repeated_key_file_loads :
  load_data default_file_path
    (mkStore [] None []
       (fun _ => File true false
                   [x7b; x22; x61; x22; x3a; x20; x31; x2c; x20; x22; x61;
                    x22; x3a; x20; x32; x7d]) 0 990)
  = (Ok (JObj [(str "a", JInt 2)]),
     mkStore [] None []
       (fun _ => File true false
                   [x7b; x22; x61; x22; x3a; x20; x31; x2c; x20; x22; x61;
                    x22; x3a; x20; x32; x7d]) 0 990).
Proof. reflexivity. Qed.

(** X16: every object [load_data] returns, from whatever the file holds, is
    a dictionary (a key repeated in the file is kept once) whose keys are
    strings of code points with no high surrogate directly before a low one:
    exactly the names [save_data] writes back faithfully. *)
Theorem load_data_returns_dictionaries
    (st st' : store) (file_path : pystr) (members : dict json) :
  load_data file_path st = (Ok (JObj members), st') ->
  dict_wf members /\
  Forall (fun kv => str_round_trips (fst kv) = true) members.
Proof.
  intros H. destruct (load_data_keys_ok st st' file_path _ H) as [Hwf Hm].
  split; [exact Hwf|]. revert Hm. apply Forall_impl. now intros kv [Hk _].
Qed.

Lemma load_data_returns_dictionaries_witness :
  dict_wf [(str "a", JInt 2)] /\
  Forall (fun kv : pystr * json => str_round_trips (fst kv) = true)
    [(str "a", JInt 2)].
Proof.
  exact (load_data_returns_dictionaries _ _ _ _ repeated_key_file_loads).
Defined.

Lemma json_of_stock_ok (d : dict Z) :
  loaded_ok (json_of_stock d) ->
  dict_wf d /\ Forall (fun kv => str_round_trips (fst kv) = true) d /\
  quantities_fit d.
Proof.
  unfold json_of_stock. cbn [loaded_ok]. intros [Hwf Hm]. split; [|split].
  - unfold dict_wf, dict_keys in *. rewrite map_map in Hwf. exact Hwf.
  - rewrite Forall_map in Hm. revert Hm. apply Forall_impl.
    now intros kv [Hk _].
  - rewrite Forall_map in Hm. revert Hm. apply Forall_impl.
    now intros kv [_ Hv].
Qed.

(** X17: what was loaded can be saved and loaded again unchanged: when
    [load_data] returns a ledger of integers, saving that ledger to a path
    that can be opened and loading from it, with room for one level of
    nesting, returns the same ledger, with no condition on the item names
    or on the quantities. *)
Theorem load_save_load_is_stable
    (st st1 st2 : store) (file_path save_path : pystr) (d : dict Z) :
  load_data file_path st = (Ok (json_of_stock d), st1) ->
  stock_data st2 = d ->
  fs_path_error save_path = None ->
  opens_for_write_and_read (disk st2 save_path) = true ->
  (0 < recursion_room st2)%nat ->
  exists st3,
    save_data save_path st2 = (Ok tt, st3) /\
    load_data save_path st3 = (Ok (json_of_stock d), st3).
Proof.
  intros Hload Hstock Hpath Hopen Hroom.
  destruct (json_of_stock_ok d (load_data_keys_ok _ _ _ _ Hload))
    as (Hwf & Hkeys & Hfits).
  rewrite <- Hstock in *.
  pose proof (code_points_of_round_trips _ Hkeys) as Hcp.
  pose proof (dumps_out _ Hcp) as Hout.
  rewrite (save_data_writes st2 save_path Hcp Hfits Hpath Hopen).
  eexists. split; [reflexivity|].
  eapply load_data_reads.
  - exact Hpath.
  - cbn [disk]. rewrite pystr_eqb_refl. reflexivity.
  - cbn [app]. apply utf8_decode_ascii, json_out_char_ascii, Hout.
  - rewrite universal_newlines_no_cr by apply json_out_char_no_cr, Hout.
    cbn [recursion_room].
    destruct (recursion_room st2) as [|depth]; [inversion Hroom|].
    now apply loads_dumps.
Qed.

(** The bytes of an object whose only key is written as the two escapes
    of a surrogate pair, with the value 3. *)
Lemma escaped_pair_file_loads :
  load_data default_file_path
    (mkStore [] None []
       (fun _ => File true true
                   [x7b; x22; x5c; x75; x64; x38; x33; x64; x5c; x75; x64;
                    x65; x30; x30; x22; x3a; x20; x33; x7d]) 0 990)
  = (Ok (json_of_stock [([0x1F600], 3)]),
     mkStore [] None []
       (fun _ => File true true
                   [x7b; x22; x5c; x75; x64; x38; x33; x64; x5c; x75; x64;
                    x65; x30; x30; x22; x3a; x20; x33; x7d]) 0 990).
Proof. reflexivity. Qed.

Lemma load_save_load_is_stable_witness :
  exists st3,
    save_data default_file_path
      (mkStore [([0x1F600], 3)] None []
         (fun _ => File true true
                     [x7b; x22; x5c; x75; x64; x38; x33; x64; x5c; x75; x64;
                      x65; x30; x30; x22; x3a; x20; x33; x7d]) 0 990)
    = (Ok tt, st3) /\
    load_data default_file_path st3
    = (Ok (json_of_stock [([0x1F600], 3)]), st3).
Proof.
  apply (load_save_load_is_stable _ _
           (mkStore [([0x1F600], 3)] None []
              (fun _ => File true true
                          [x7b; x22; x5c; x75; x64; x38; x33; x64; x5c; x75;
                           x64; x65; x30; x30; x22; x3a; x20; x33; x7d]) 0 990)
           default_file_path default_file_path [([0x1F600], 3)]
           escaped_pair_file_loads).
  - reflexivity.
  - reflexivity.
  - reflexivity.
  - cbn [recursion_room]. apply Nat.lt_0_succ.
Defined.

(** * Further properties: quantities that are booleans *)

(** X18: a [bool] passes for a quantity: [True] adds or removes one unit and
    [False] none, exactly as the integers 1 and 0 do; only the logged
    message keeps the argument as it was given. *)
Theorem bool_quantity_counts_as_int (st : store) (item : pyval) (b : bool) :
  fst (add_item item (PyBool b) st)
    = fst (add_item item (PyInt (if b then 1 else 0)) st) /\
  stock_data (snd (add_item item (PyBool b) st))
    = stock_data (snd (add_item item (PyInt (if b then 1 else 0)) st)) /\
  stock_data (snd (remove_item item (PyBool b) st))
    = stock_data (snd (remove_item item (PyInt (if b then 1 else 0)) st)).
Proof.
  assert (Hint : int_of (PyBool b) = int_of (PyInt (if b then 1 else 0)))
    by now destruct b.
  assert (Hnn : 0 <= int_of (PyBool b)) by (destruct b; cbn; lia).
  assert (Hfit : fits_str_digits (int_of (PyBool b)) = true)
    by (destruct b; vm_compute; reflexivity).
  split; [|split].
  - destruct item as [| | | |[|c name]]; try reflexivity.
    rewrite !add_item_valid
      by (try reflexivity; try rewrite <- Hint; assumption).
    reflexivity.
  - rewrite !add_item_stock. now rewrite Hint.
  - destruct (remove_item_stock st item (PyBool b)) as [_ ->].
    destruct (remove_item_stock st item (PyInt (if b then 1 else 0)))
      as [_ ->].
    rewrite Hint. reflexivity.
Qed.

(** * Further properties: at the limits of the interpreter *)

(** ** A quantity too long to format *)

Lemma limit_does_not_fit (n : Z) :
  int_str_limit <= n -> fits_str_digits n = false.
Proof.
  intros Hn. pose proof int_str_limit_pos. unfold fits_str_digits.
  apply Z.ltb_ge. lia.
Qed.

(** X19: [add_item] updates the mapping before it formats its message: with
    a name and an [int] quantity that pass the three checks, when the
    quantity has more than 4300 digits the call raises [ValueError], the item
    is stored all the same with the quantity added ([get_qty] returns that
    much more), and nothing is logged or appended. *)
Theorem add_item_raises_after_updating
    (st : store) (name : pystr) (qty : pyval) :
  name <> [] -> isinstance_int qty = true -> int_str_limit <= int_of qty ->
  exists before,
    fst (get_qty (PyStr name) st) = Ok before /\
    fst (add_item (PyStr name) qty st) = Raise (ValueError IntStrDigitsExceeded)
    /\
    fst (get_qty (PyStr name) (snd (add_item (PyStr name) qty st)))
    = Ok (before + int_of qty) /\
    sink (snd (add_item (PyStr name) qty st)) = sink st /\
    logs (snd (add_item (PyStr name) qty st)) = logs st.
Proof.
  intros Hne Hint Hq. destruct name as [|c name]; [congruence|].
  pose proof int_str_limit_pos as Hpos.
  rewrite add_item_unformattable
    by (try assumption; try lia; now apply limit_does_not_fit).
  eexists. split; [run; reflexivity|]. split; [reflexivity|].
  split; [|split; reflexivity].
  run. now rewrite dict_lookup_setitem_same.
Qed.

Lemma add_item_raises_after_updating_witness :
  exists before,
    fst (get_qty (PyStr (str "apple"))
           (mkStore [(str "apple", 7)] None [] (fun _ => Missing true) 0 990))
    = Ok before /\
    fst (add_item (PyStr (str "apple")) (PyInt int_str_limit)
           (mkStore [(str "apple", 7)] None [] (fun _ => Missing true) 0 990))
    = Raise (ValueError IntStrDigitsExceeded) /\
    fst (get_qty (PyStr (str "apple"))
           (snd (add_item (PyStr (str "apple")) (PyInt int_str_limit)
                   (mkStore [(str "apple", 7)] None []
                      (fun _ => Missing true) 0 990))))
    = Ok (before + int_of (PyInt int_str_limit)) /\
    sink (snd (add_item (PyStr (str "apple")) (PyInt int_str_limit)
                 (mkStore [(str "apple", 7)] None []
                    (fun _ => Missing true) 0 990))) = [] /\
    logs (snd (add_item (PyStr (str "apple")) (PyInt int_str_limit)
                 (mkStore [(str "apple", 7)] None []
                    (fun _ => Missing true) 0 990))) = None.
Proof.
  apply (add_item_raises_after_updating
           (mkStore [(str "apple", 7)] None [] (fun _ => Missing true) 0 990)
           (str "apple") (PyInt int_str_limit)).
  - vm_compute. discriminate.
  - reflexivity.
  - cbn [int_of]. apply Z.le_refl.
Defined.

(** ** A save that stops half way *)

Lemma encode_string_out (k : pystr) :
  forallb code_point k = true -> Forall json_out_char (Json.encode_string k).
Proof.
  intros Hk. unfold Json.encode_string.
  constructor; [unfold json_out_char; lia|].
  apply Forall_app. split.
  - apply Forall_flat_map. rewrite forallb_forall in Hk.
    apply Forall_forall. intros c Hin. apply escape_char_out. now apply Hk.
  - constructor; [unfold json_out_char; lia | constructor].
Qed.

Lemma members_before_out (before : dict Z) :
  Forall (fun kv => forallb code_point (fst kv) = true) before ->
  Forall json_out_char (members_before before).
Proof.
  intros Hkeys. unfold members_before. apply Forall_flat_map.
  revert Hkeys. apply Forall_impl. intros kv Hkv.
  apply Forall_app. split; [now apply dump_member_out|].
  unfold Json.item_separator, Json.newline_indent.
  repeat (constructor; [unfold json_out_char; lia|]). constructor.
Qed.

Lemma cut_text_out (before : dict Z) (item : pystr) :
  Forall (fun kv => forallb code_point (fst kv) = true) before ->
  forallb code_point item = true ->
  Forall json_out_char (cut_text before item).
Proof.
  intros Hkeys Hitem. unfold cut_text, Json.newline_indent, Json.key_separator.
  cbn [app]. repeat (constructor; [unfold json_out_char; lia|]).
  apply Forall_app. split; [now apply members_before_out|].
  apply Forall_app. split; [now apply encode_string_out|].
  repeat (constructor; [unfold json_out_char; lia|]). constructor.
Qed.

(** A key written by [encode_string] is read as some key, whatever its
    code points. *)
Lemma scan_string_escape_any (k rest : pystr) :
  forallb code_point k = true ->
  Json.scan_string (flat_map Json.escape_char k ++ 34 :: rest)
  = Some (Json.join_surrogates (flat_map chunks_of_char k), rest).
Proof.
  intros Hk. unfold Json.scan_string. now rewrite scan_chunks_escape.
Qed.

(** What follows the opening brace and the indentation starts with the
    quote of a key. *)
Lemma cut_head (before : dict Z) (item : pystr) :
  exists text,
    members_before before ++ Json.encode_string item ++ Json.key_separator
    = 34 :: text.
Proof.
  destruct before as [|[k v] more]; eexists; reflexivity.
Qed.

(** The members of a text that was cut after a key separator: the descent
    reads them and finds no value after the last key. *)
Lemma parse_members_cut (before : dict Z) :
  forall (fuel depth : nat) (acc : list (pystr * json)) (item text : pystr),
    Forall (fun kv => forallb code_point (fst kv) = true) before ->
    quantities_fit before ->
    forallb code_point item = true ->
    34 :: text
    = members_before before ++ Json.encode_string item ++ Json.key_separator ->
    Json.parse_members fuel depth text acc = Raise JSONDecodeError.
Proof.
  induction before as [|[k v] more IH];
    intros fuel depth acc item text Hkeys Hfits Hitem Heq.
  - cbn [members_before flat_map app] in Heq.
    unfold Json.encode_string, Json.key_separator in Heq. cbn [app] in Heq.
    injection Heq as ->. rewrite <- app_assoc. cbn [app].
    destruct fuel as [|fuel]; [reflexivity|].
    cbn [Json.parse_members]. rewrite scan_string_escape_any by assumption.
    scan_literals. now destruct fuel.
  - inversion Hkeys as [|? ? Hk Hkeys']; subst. cbn [fst] in Hk.
    inversion Hfits as [|? ? Hv Hfits']; subst. cbn [snd] in Hv.
    destruct (cut_head more item) as [text' Htext'].
    assert (Htext : text
                    = flat_map Json.escape_char k
                      ++ 34 :: 58 :: 32 ::
                         (Json.int_repr v
                          ++ 44 :: 10 :: 32 :: 32 :: 32 :: 32 :: 34 :: text')).
    { assert (Hshape :
                members_before ((k, v) :: more) ++ Json.encode_string item
                ++ Json.key_separator
                = 34 :: flat_map Json.escape_char k
                        ++ 34 :: 58 :: 32 ::
                           (Json.int_repr v
                            ++ 44 :: 10 :: 32 :: 32 :: 32 :: 32 :: 34
                               :: text')).
      { unfold members_before. cbn [flat_map]. fold (members_before more).
        rewrite <- app_assoc, Htext'.
        unfold Json.dump_member, Json.encode_string, Json.item_separator,
          Json.newline_indent.
        cbn [fst snd app]. repeat (rewrite <- app_assoc; cbn [app]).
        reflexivity. }
      rewrite Hshape in Heq. now injection Heq. }
    subst text.
    destruct fuel as [|fuel]; [reflexivity|].
    cbn [Json.parse_members]. rewrite scan_string_escape_any by assumption.
    scan_literals. rewrite skip_ws_int_repr.
    destruct fuel as [|fuel]; [reflexivity|].
    rewrite parse_value_int_repr by (apply ends_number_comma || exact Hv).
    scan_literals.
    now apply (IH (S fuel) depth _ item text').
Qed.

(** The decoder refuses a text that was cut. *)
Lemma loads_cut (depth : nat) (before : dict Z) (item : pystr) :
  Forall (fun kv => forallb code_point (fst kv) = true) before ->
  quantities_fit before ->
  forallb code_point item = true ->
  Json.loads (S depth) (cut_text before item) = Raise JSONDecodeError.
Proof.
  intros Hkeys Hfits Hitem. unfold Json.loads, cut_text.
  destruct (cut_head before item) as [text Htext]. rewrite Htext.
  unfold Json.newline_indent. cbn [app]. scan_literals.
  cbn [Json.parse_value]. scan_literals.
  now rewrite (parse_members_cut before _ depth [] item text).
Qed.

(** X20: a quantity of more than 4300 digits makes [save_data] fail half
    way: [json.dump] raises [ValueError], which [save_data] does not catch,
    after the file was emptied and the members before that quantity were
    written.  The ledger in memory is untouched and nothing is logged; the
    file holds a text that stops after a key, which [load_data] then finds
    malformed: it returns the empty ledger and logs one [ERROR]. *)
Theorem save_data_stops_at_long_quantity
    (st : store) (file_path : pystr) (before after : dict Z) (item : pystr)
    (quantity : Z) :
  stock_data st = before ++ (item, quantity) :: after ->
  Forall (fun kv => forallb code_point (fst kv) = true) (stock_data st) ->
  quantities_fit before -> fits_str_digits quantity = false ->
  fs_path_error file_path = None ->
  opens_for_write_and_read (disk st file_path) = true ->
  (0 < recursion_room st)%nat ->
  exists st1,
    save_data file_path st = (Raise (ValueError IntStrDigitsExceeded), st1) /\
    stock_data st1 = stock_data st /\
    sink st1 = sink st /\
    disk st1 file_path
    = File true true (map Utf8.byte_of (cut_text before item)) /\
    load_data file_path st1
    = (Ok (JObj []),
       mkStore (stock_data st1) (logs st1)
         (sink st1 ++ [(ERROR, MsgLoadBadJson file_path)]) (disk st1)
         (clock st1) (recursion_room st1)).
Proof.
  intros Hstock Hkeys Hfits Hq Hpath Hopen Hroom.
  assert (Hkeys' : Forall (fun kv => forallb code_point (fst kv) = true)
                     before /\ forallb code_point item = true).
  { rewrite Hstock in Hkeys. apply Forall_app in Hkeys.
    destruct Hkeys as [Hb Ha]. split; [exact Hb|]. now inversion Ha. }
  destruct Hkeys' as [Hbefore Hitem].
  pose proof (cut_text_out before item Hbefore Hitem) as Hout.
  pose proof (utf8_encode_ascii _ (json_out_char_ascii _ Hout)) as Henc.
  pose proof (utf8_decode_ascii _ (json_out_char_ascii _ Hout)) as Hdec.
  pose proof (dump_stops before after item quantity Hfits Hq) as Hdump.
  rewrite <- Hstock in Hdump.
  assert (Hsave : exists st1,
             save_data file_path st
             = (Raise (ValueError IntStrDigitsExceeded), st1) /\
             stock_data st1 = stock_data st /\ logs st1 = logs st /\
             sink st1 = sink st /\ clock st1 = clock st /\
             recursion_room st1 = recursion_room st /\
             disk st1 file_path
             = File true true (map Utf8.byte_of (cut_text before item))).
  { run_io. rewrite Hpath.
    destruct (disk st file_path) as [[|]| |[|] [|] content|why];
      try discriminate Hopen;
      cbn [stock_data logs sink disk clock recursion_room];
      rewrite Hdump; cbn [fst snd]; rewrite Henc, pystr_eqb_refl;
      cbn [fst snd]; eexists; (split; [reflexivity|]);
      cbn [stock_data logs sink disk clock recursion_room];
      rewrite pystr_eqb_refl; repeat split. }
  destruct Hsave as (st1 & Hsave & H1 & H2 & H3 & H4 & H5 & H6).
  exists st1. split; [exact Hsave|]. split; [exact H1|]. split; [exact H3|].
  split; [exact H6|].
  run_io. rewrite Hpath, H6, Hdec. cbn [fst snd].
  rewrite universal_newlines_no_cr by apply json_out_char_no_cr, Hout.
  rewrite H5. destruct (recursion_room st) as [|depth]; [inversion Hroom|].
  rewrite loads_cut by assumption. cbn [fst snd]. rewrite <- H5.
  reflexivity.
Qed.


Lemma save_data_stops_at_long_quantity_witness :
  exists st1,
    save_data default_file_path
      (mkStore [(str "apple", 7); (str "pear", int_str_limit)] None []
         (fun _ => File true true latin1_inventory) 0 990)
    = (Raise (ValueError IntStrDigitsExceeded), st1) /\
    stock_data st1 = [(str "apple", 7); (str "pear", int_str_limit)] /\
    sink st1 = [] /\
    disk st1 default_file_path
    = File true true
        (map Utf8.byte_of (cut_text [(str "apple", 7)] (str "pear"))) /\
    load_data default_file_path st1
    = (Ok (JObj []),
       mkStore (stock_data st1) (logs st1)
         (sink st1 ++ [(ERROR, MsgLoadBadJson default_file_path)]) (disk st1)
         (clock st1) (recursion_room st1)).
Proof.
  apply (save_data_stops_at_long_quantity
           (mkStore [(str "apple", 7); (str "pear", int_str_limit)] None []
              (fun _ => File true true latin1_inventory) 0 990)
           default_file_path [(str "apple", 7)] [] (str "pear")
           int_str_limit).
  - reflexivity.
  - repeat constructor.
  - constructor; [vm_compute; reflexivity | constructor].
  - exact int_str_limit_does_not_fit.
  - reflexivity.
  - reflexivity.
  - cbn [recursion_room]. apply Nat.lt_0_succ.
Defined.

(** ** A file the decoder gives up on *)

Lemma universal_newlines_brackets (n : nat) (tail : pystr) :
  universal_newlines (repeat 91 n ++ tail)
  = repeat 91 n ++ universal_newlines tail.
Proof.
  induction n as [|n IH]; [reflexivity|].
  cbn [repeat app universal_newlines]. change (91 =? 13) with false.
  cbv iota. now rewrite IH.
Qed.

(** One opening bracket more than there are levels left. *)
Lemma parse_value_too_deep (depth : nat) :
  forall (fuel : nat) (tail : pystr),
    (2 * depth + 1 <= fuel)%nat ->
    Json.parse_value fuel depth (repeat 91 (S depth) ++ tail)
    = Raise RecursionError.
Proof.
  induction depth as [|depth IH]; intros fuel tail Hfuel.
  - destruct fuel as [|fuel]; [lia|].
    cbn [repeat app Json.parse_value]. scan_literals. reflexivity.
  - destruct fuel as [|[|fuel]]; try lia.
    specialize (IH fuel tail ltac:(lia)).
    change (repeat 91 (S (S depth)) ++ tail)
      with (91 :: 91 :: (repeat 91 depth ++ tail)).
    change (repeat 91 (S depth) ++ tail)
      with (91 :: (repeat 91 depth ++ tail)) in IH.
    cbn [Json.parse_value]. scan_literals.
    cbn [Json.parse_elements]. now rewrite IH.
Qed.

Lemma loads_too_deep (depth : nat) (tail : pystr) :
  Json.loads depth (repeat 91 (S depth) ++ tail) = Raise RecursionError.
Proof.
  unfold Json.loads.
  change (repeat 91 (S depth) ++ tail)
    with (91 :: (repeat 91 depth ++ tail)).
  change (91 =? 65279) with false. cbv iota.
  assert (Hws : Json.skip_ws (91 :: (repeat 91 depth ++ tail))
                = 91 :: (repeat 91 depth ++ tail)) by reflexivity.
  rewrite Hws.
  change (91 :: (repeat 91 depth ++ tail))
    with (repeat 91 (S depth) ++ tail).
  rewrite parse_value_too_deep; [reflexivity|].
  rewrite length_app, repeat_length. lia.
Qed.

(** X21: [load_data] does not recover from nesting that is too deep: when
    the text of a readable file starts with one opening bracket more than the
    decoder has room for, whatever follows, [json.load] raises
    [RecursionError], which no clause catches: [load_data] raises it, returns
    no ledger and logs nothing. *)
Theorem load_data_nesting_too_deep
    (st : store) (file_path : pystr) (w : bool) (content : list byte)
    (tail : pystr) :
  fs_path_error file_path = None ->
  disk st file_path = File true w content ->
  Utf8.decode content = Some (repeat 91 (S (recursion_room st)) ++ tail) ->
  load_data file_path st = (Raise RecursionError, st).
Proof.
  intros Hpath Hfile Hdec. run_io. rewrite Hpath, Hfile, Hdec.
  cbn [fst snd]. now rewrite universal_newlines_brackets, loads_too_deep.
Qed.

Lemma load_data_nesting_too_deep_witness :
  load_data default_file_path
    (mkStore [] None [] (fun _ => File true false [x5b; x5b; x5b]) 0 2)
  = (Raise RecursionError,
     mkStore [] None [] (fun _ => File true false [x5b; x5b; x5b]) 0 2).
Proof.
  apply (load_data_nesting_too_deep
           (mkStore [] None [] (fun _ => File true false [x5b; x5b; x5b]) 0 2)
           default_file_path false [x5b; x5b; x5b] []).
  - reflexivity.
  - reflexivity.
  - reflexivity.
Defined.

(** A number that does not fit is printed with more than
    [int_max_str_digits] digits. *)
Lemma unfit_digits_length (p : positive) :
  fits_str_digits (Zpos p) = false ->
  int_max_str_digits
  < Z.of_nat (List.length (Json.uint_digits (Pos.to_uint p))).
Proof.
  intros Hfit.
  destruct (Z.lt_ge_cases int_max_str_digits
              (Z.of_nat (List.length (Json.uint_digits (Pos.to_uint p)))))
    as [H|H]; [exact H|].
  exfalso.
  pose proof (digits_fit false (Json.uint_digits (Pos.to_uint p))
                (uint_digits_are_digits _) H) as Hf.
  cbv iota in Hf. rewrite digits_value_to_uint in Hf. congruence.
Qed.

Lemma finish_number_long (negative : bool) (intpart rest : pystr) (c : Z) :
  ends_number c ->
  int_max_str_digits < Z.of_nat (List.length intpart) ->
  Json.finish_number negative intpart (c :: rest)
  = Raise (ValueError IntStrDigitsExceeded).
Proof.
  intros (_ & H1 & H2 & H3) Hlen.
  unfold Json.finish_number, Json.scan_fraction, Json.scan_exponent.
  destruct (Z.eqb_spec c 46); [contradiction|].
  destruct (Z.eqb_spec c 101); [contradiction|].
  destruct (Z.eqb_spec c 69); [contradiction|]. cbn [orb].
  destruct (Z.gtb_spec (Z.of_nat (List.length intpart)) int_max_str_digits);
    [reflexivity | lia].
Qed.

Lemma scan_number_long (n c : Z) (rest : pystr) :
  ends_number c -> fits_str_digits n = false ->
  Json.scan_number (Json.int_repr n ++ c :: rest)
  = Some (Raise (ValueError IntStrDigitsExceeded)).
Proof.
  intros Hc Hfit. pose proof Hc as (Hnd & _).
  destruct n as [|p|p]; cbn [Json.int_repr].
  - exfalso. pose proof int_str_limit_pos.
    assert (fits_str_digits 0 = true)
      by (apply fits_str_digits_spec; cbn [Z.abs]; lia).
    congruence.
  - pose proof (unfit_digits_length p Hfit) as Hlen.
    destruct (to_uint_digits_shape p) as (d & ds & E & Hd & Hds).
    rewrite E in *. cbn [app]. unfold Json.scan_number.
    destruct (Z.eqb_spec d 45); [lia|].
    destruct (Z.eqb_spec d 48); [lia|].
    assert (Json.is_digit d = true) as -> by (unfold Json.is_digit; lia).
    now rewrite span_digits_stop, finish_number_long by assumption.
  - pose proof (unfit_digits_length p Hfit) as Hlen.
    destruct (to_uint_digits_shape p) as (d & ds & E & Hd & Hds).
    rewrite E in *. cbn [app]. unfold Json.scan_number.
    change (45 =? 45) with true. cbv iota.
    destruct (Z.eqb_spec d 48); [lia|].
    assert (Json.is_digit d = true) as -> by (unfold Json.is_digit; lia).
    now rewrite span_digits_stop, finish_number_long by assumption.
Qed.

Lemma parse_value_long (fuel depth : nat) (n c : Z) (rest : pystr) :
  ends_number c -> fits_str_digits n = false ->
  Json.parse_value (S fuel) depth (Json.int_repr n ++ c :: rest)
  = Raise (ValueError IntStrDigitsExceeded).
Proof.
  intros Hc Hfit. pose proof (scan_number_long n c rest Hc Hfit) as Hnum.
  destruct (int_repr_head n) as (c0 & tl & E & Hc0). rewrite E in *.
  cbn [app] in *. cbn [Json.parse_value].
  destruct (Z.eqb_spec c0 34); [lia|].
  destruct (Z.eqb_spec c0 123); [lia|].
  destruct (Z.eqb_spec c0 91); [lia|].
  unfold Json.scan_scalar, Json.lit_null, Json.lit_true, Json.lit_false.
  cbn [Json.strip_prefix].
  destruct (Z.eqb_spec 110 c0); [lia|].
  destruct (Z.eqb_spec 116 c0); [lia|].
  destruct (Z.eqb_spec 102 c0); [lia|].
  now rewrite Hnum.
Qed.

(** What follows a member in the text of a ledger ends a number. *)
Lemma member_texts_head (after : dict Z) (rest : pystr) :
  exists c tl,
    member_texts after ++ 10 :: 125 :: rest = c :: tl /\ ends_number c.
Proof.
  destruct after as [|[k v] more].
  - exists 10, (125 :: rest). split; [reflexivity | apply ends_number_newline].
  - rewrite member_texts_cons. eexists _, _.
    split; [reflexivity | apply ends_number_comma].
Qed.

(** The member whose quantity is too long stops the descent. *)
Lemma parse_members_long_here (fuel depth : nat) (item : pystr) (q c : Z)
    (rest : pystr) (acc : list (pystr * json)) :
  (2 <= fuel)%nat -> forallb code_point item = true ->
  fits_str_digits q = false -> ends_number c ->
  Json.parse_members fuel depth
    (flat_map Json.escape_char item
     ++ 34 :: 58 :: 32 :: (Json.int_repr q ++ c :: rest)) acc
  = Raise (ValueError IntStrDigitsExceeded).
Proof.
  intros Hfuel Hitem Hq Hc. destruct fuel as [|[|fuel]]; try lia.
  cbn [Json.parse_members]. rewrite scan_string_escape_any by assumption.
  scan_literals. rewrite skip_ws_int_repr.
  now rewrite parse_value_long by assumption.
Qed.

(** So do the members before it, once they are read. *)
Lemma parse_members_long (pre : dict Z) :
  forall (fuel depth : nat) (k : pystr) (v : Z) (acc : list (pystr * json))
         (after : dict Z) (item : pystr) (q : Z) (rest : pystr),
    (List.length pre + 3 <= fuel)%nat ->
    forallb code_point k = true -> fits_str_digits v = true ->
    Forall (fun kv => forallb code_point (fst kv) = true) pre ->
    quantities_fit pre ->
    forallb code_point item = true -> fits_str_digits q = false ->
    Json.parse_members fuel depth
      (flat_map Json.escape_char k
       ++ 34 :: 58 :: 32 ::
          (Json.int_repr v
           ++ member_texts (pre ++ (item, q) :: after) ++ 10 :: 125 :: rest))
      acc
    = Raise (ValueError IntStrDigitsExceeded).
Proof.
  induction pre as [|[k2 v2] pre IH];
    intros fuel depth k v acc after item q rest Hfuel Hk Hv Hkeys Hfits
      Hitem Hq.
  - destruct fuel as [|fuel]; [cbn in Hfuel; lia|].
    cbn [Json.parse_members]. rewrite scan_string_escape_any by assumption.
    destruct fuel as [|fuel]; [cbn in Hfuel; lia|].
    scan_literals. rewrite skip_ws_int_repr. cbn [app].
    rewrite member_texts_cons.
    rewrite parse_value_int_repr by (apply ends_number_comma || exact Hv).
    scan_literals.
    destruct (member_texts_head after rest) as (c & tl & -> & Hc).
    apply parse_members_long_here; try assumption. cbn in Hfuel. lia.
  - inversion Hkeys as [|? ? Hk2 Hkeys']; subst. cbn [fst] in Hk2.
    inversion Hfits as [|? ? Hv2 Hfits']; subst. cbn [snd] in Hv2.
    destruct fuel as [|fuel]; [cbn in Hfuel; lia|].
    cbn [Json.parse_members]. rewrite scan_string_escape_any by assumption.
    destruct fuel as [|fuel]; [cbn in Hfuel; lia|].
    scan_literals. rewrite skip_ws_int_repr. cbn [app].
    rewrite member_texts_cons.
    rewrite parse_value_int_repr by (apply ends_number_comma || exact Hv).
    scan_literals.
    apply IH; try assumption. cbn [List.length] in Hfuel. lia.
Qed.

(** The decoder on the text of a ledger with a quantity that is too long. *)
Lemma loads_long (depth : nat) (pre after : dict Z) (item : pystr) (q : Z) :
  Forall (fun kv => forallb code_point (fst kv) = true) pre ->
  quantities_fit pre ->
  forallb code_point item = true -> fits_str_digits q = false ->
  Json.loads (S depth) (Json.dumps (pre ++ (item, q) :: after))
  = Raise (ValueError IntStrDigitsExceeded).
Proof.
  intros Hkeys Hfits Hitem Hq. unfold Json.loads.
  destruct pre as [|[k v] pre].
  - cbn [app]. rewrite dumps_cons.
    destruct (member_texts_head after []) as (c & tl & Hhead & Hc).
    rewrite Hhead.
    set (text := 123 :: 10 :: 32 :: 32 :: 32 :: 32 :: 34 :: _).
    set (fuel := (2 * List.length text)%nat).
    assert (Hlen : (2 <= fuel)%nat)
      by (subst fuel text; cbn [List.length]; lia).
    clearbody fuel. subst text.
    scan_literals. cbn [Json.parse_value]. scan_literals.
    now rewrite parse_members_long_here.
  - inversion Hkeys as [|? ? Hk Hkeys']; subst. cbn [fst] in Hk.
    inversion Hfits as [|? ? Hv Hfits']; subst. cbn [snd] in Hv.
    cbn [app]. rewrite dumps_cons.
    set (text := 123 :: 10 :: 32 :: 32 :: 32 :: 32 :: 34 :: _).
    set (fuel := (2 * List.length text)%nat).
    assert (Hlen : (List.length pre + 3 <= fuel)%nat).
    { subst fuel text. cbn [List.length]. rewrite !length_app.
      cbn [List.length]. rewrite !length_app.
      pose proof (member_texts_length (pre ++ (item, q) :: after)) as Hm.
      rewrite length_app in Hm. cbn [List.length] in Hm. lia. }
    clearbody fuel. subst text.
    scan_literals. cbn [Json.parse_value]. scan_literals.
    now rewrite parse_members_long.
Qed.

(** X22: [load_data] does not recover from a quantity that is too long
    either: when a readable file holds the text of a ledger in which a
    quantity has more than 4300 digits, [json.load] raises a [ValueError]
    that is no [JSONDecodeError], which no clause catches: [load_data] raises
    it, returns no ledger and logs nothing. *)
Theorem load_data_long_quantity_raises
    (st : store) (file_path : pystr) (w : bool) (content : list byte)
    (pre after : dict Z) (item : pystr) (q : Z) :
  fs_path_error file_path = None ->
  disk st file_path = File true w content ->
  Utf8.decode content = Some (Json.dumps (pre ++ (item, q) :: after)) ->
  Forall (fun kv => forallb code_point (fst kv) = true)
    (pre ++ (item, q) :: after) ->
  quantities_fit pre -> fits_str_digits q = false ->
  (0 < recursion_room st)%nat ->
  load_data file_path st = (Raise (ValueError IntStrDigitsExceeded), st).
Proof.
  intros Hpath Hfile Hdec Hkeys Hfits Hq Hroom.
  pose proof (dumps_out _ Hkeys) as Hout.
  apply Forall_app in Hkeys. destruct Hkeys as [Hpre Hrest].
  assert (Hitem : forallb code_point item = true) by now inversion Hrest.
  run_io. rewrite Hpath, Hfile, Hdec. cbn [fst snd].
  rewrite universal_newlines_no_cr by apply json_out_char_no_cr, Hout.
  destruct (recursion_room st) as [|depth]; [inversion Hroom|].
  now rewrite loads_long.
Qed.

Lemma load_data_long_quantity_raises_witness :
  load_data default_file_path
    (mkStore [] None []
       (fun _ => File true true
                   (map Utf8.byte_of
                      (Json.dumps [(str "apple", 7);
                                   (str "pear", int_str_limit)])))
       0 990)
  = (Raise (ValueError IntStrDigitsExceeded),
     mkStore [] None []
       (fun _ => File true true
                   (map Utf8.byte_of
                      (Json.dumps [(str "apple", 7);
                                   (str "pear", int_str_limit)])))
       0 990).
Proof.
  assert (Hkeys : Forall (fun kv : pystr * Z =>
                            forallb code_point (fst kv) = true)
                    ([(str "apple", 7)] ++ (str "pear", int_str_limit) :: []))
    by (repeat constructor).
  apply (load_data_long_quantity_raises
           (mkStore [] None []
              (fun _ => File true true
                          (map Utf8.byte_of
                             (Json.dumps [(str "apple", 7);
                                          (str "pear", int_str_limit)])))
              0 990)
           default_file_path true
           (map Utf8.byte_of
              (Json.dumps [(str "apple", 7); (str "pear", int_str_limit)]))
           [(str "apple", 7)] [] (str "pear") int_str_limit).
  - reflexivity.
  - reflexivity.
  - apply utf8_decode_ascii, json_out_char_ascii, (dumps_out _ Hkeys).
  - exact Hkeys.
  - constructor; [vm_compute; reflexivity | constructor].
  - exact int_str_limit_does_not_fit.
  - cbn [recursion_room]. apply Nat.lt_0_succ.
Defined.
